(** * Monthly aggregation of daily fund data: a model of [aggregatemonthly.js]

    The development embeds [src/aggregatemonthly.js] (the [statistics]
    object, the classes [FundMetrics] and [MonthData], the function
    [processMonthlyData] and the summary step of [main]) and settles the
    properties stated about it.

    Modelling choices, all repeated where they are used:
    - a fund figure is a rational ([Q]): JSON numerals are finite decimals,
      and the arithmetic of the [statistics] object is taken exact, so its
      binary64 rounding and overflow are outside the model; what is stated
      about these figures is which samples go into which formula, and their
      order;
    - the year tokens that the month sort subtracts are read as binary64
      does: rounded to 53 significant bits, infinite from 2^1024, [NaN] for
      a text that is no numeral;
    - a JS string is a [string]; [toUpperCase] acts on ASCII letters;
    - a [Map] is an association list in insertion order, which is the order
      [Map.prototype.entries] iterates in;
    - a property that may be absent from the decoded JSON is an [option];
      reading through an absent one is the [TypeError] of the source. *)

From Stdlib Require Import List String Ascii Bool Arith ZArith.
From Stdlib Require Import QArith Qabs Qround Lia Lqa Sorted Permutation.
Import ListNotations.

Local Open Scope string_scope.
Local Open Scope list_scope.

(* ------------------------------------------------------------------ *)
(** ** Integers in binary64 *)

Module Binary64.

Local Open Scope Z_scope.

(** The integer that binary64 holds for the integer [n >= 0]: [n] itself
    when it has at most 53 significant bits, otherwise [n] rounded to 53
    significant bits, to the nearest and on a tie to the even
    significand. *)
Definition round (n : Z) : Z :=
  let e := Z.log2 n - 52 in
  if e <=? 0 then n
  else
    let q := Z.shiftr n e in
    let r := n - Z.shiftl q e in
    let half := Z.shiftl 1 (e - 1) in
    let q' := if r <? half then q
              else if half <? r then q + 1
              else if Z.even q then q else q + 1 in
    Z.shiftl q' e.

(** The same for an integer of either sign. *)
Definition round_signed (z : Z) : Z :=
  if z <? 0 then - round (- z) else round z.

(** A rounded magnitude of [2^1024] or more is no finite number. *)
Definition overflow : Z := 2 ^ 1024.

(** What [ToNumber] gives for a token: an integer that binary64 holds,
    [+Infinity] or [NaN]. *)
Inductive number : Type :=
| Finite (z : Z)
| Infinity
| NaN.

End Binary64.

(* ------------------------------------------------------------------ *)
(** ** Strings *)

Module JsString.

(** [s.split(sep)] for a one-character separator: never empty, the empty
    string gives the one-element list holding it. *)
Fixpoint split (sep : ascii) (s : string) : list string :=
  match s with
  | EmptyString => [EmptyString]
  | String c s' =>
      if Ascii.eqb c sep then EmptyString :: split sep s'
      else match split sep s' with
           | t :: ts => String c t :: ts
           | [] => [String c EmptyString]
           end
  end.

Definition is_lower (c : ascii) : bool :=
  let n := nat_of_ascii c in (97 <=? n)%nat && (n <=? 122)%nat.

Definition upper_char (c : ascii) : ascii :=
  if is_lower c then ascii_of_nat (nat_of_ascii c - 32) else c.

(** [s.toUpperCase()] on ASCII text. *)
Fixpoint toUpperCase (s : string) : string :=
  match s with
  | EmptyString => EmptyString
  | String c s' => String (upper_char c) (toUpperCase s')
  end.

(** What a template literal prints for a destructured array element:
    the element, or the text [undefined] when the array was too short. *)
Definition template (o : option string) : string :=
  match o with
  | Some s => s
  | None => "undefined"
  end.

Definition is_digit (c : ascii) : bool :=
  let n := nat_of_ascii c in (48 <=? n)%nat && (n <=? 57)%nat.

Fixpoint all_digits (s : string) : bool :=
  match s with
  | EmptyString => true
  | String c s' => is_digit c && all_digits s'
  end.

Fixpoint digits_value (acc : Z) (s : string) : Z :=
  match s with
  | EmptyString => acc
  | String c s' => digits_value (10 * acc + (Z.of_nat (nat_of_ascii c) - 48)) s'
  end.

(** [ToNumber] of a string, as the subtraction [aYear - bYear] applies it.
    The model reads the empty string (0) and unsigned decimal digit
    strings, whose value is rounded to binary64 (correctly rounded, as
    the engine does it; the standard allows an approximation beyond 20
    significant digits); every other text is [NaN].  Signed, fractional,
    exponent and radix-prefixed numerals, which JS would also read, are
    not modelled: no statement below depends on them. *)
Definition toNumber (s : string) : Binary64.number :=
  if all_digits s
  then
    let v := Binary64.round (digits_value 0 s) in
    if (v <? Binary64.overflow)%Z then Binary64.Finite v
    else Binary64.Infinity
  else Binary64.NaN.

End JsString.

(* ------------------------------------------------------------------ *)
(** ** Numbers *)

Module JsNumber.

Local Open Scope Q_scope.

(** A number that may be [NaN]: the result type of a sort comparator. *)
Definition jsnum := option Q.

Definition Qltb (x y : Q) : bool := negb (Qle_bool y x).

(** The integer nearest to [x >= 0], the larger one on a tie: the [n] of
    [Number.prototype.toFixed]. *)
Definition nearest (x : Q) : Z := Qfloor (x + (1 # 2)).

(** [+x.toFixed(2)].  [toFixed] rounds the magnitude and puts the sign
    back; a magnitude of 10^21 or more is printed unrounded, so that the
    unary plus gives the number back. *)
Definition toFixed2 (x : Q) : Q :=
  if Qle_bool (inject_Z (10 ^ 21)) (Qabs x) then x
  else
    let n := nearest (Qabs x * inject_Z 100) in
    if Qltb x 0 then Qmake (- n) 100 else Qmake n 100.

(** [+Math.sqrt(v).toFixed(2)] for [v >= 0], taken as one step since the
    root itself need not be rational: the hundredth nearest to the root
    (the larger on a tie) has numerator
    [floor (100 * sqrt v + 1/2) = (floor (sqrt (40000 * v)) + 1) / 2].
    From 10^21 upwards [toFixed] does not round; a binary64 number of
    that size is an integer, and the model takes the integer part of the
    root there.  A negative [v], whose root is [NaN], does not arise: the
    only caller passes a mean of squares. *)
Definition sqrt_toFixed2 (v : Q) : Q :=
  if Qle_bool (inject_Z (10 ^ 42)) v then inject_Z (Z.sqrt (Qfloor v))
  else Qmake ((Z.sqrt (Qfloor (v * inject_Z 40000)) + 1) / 2) 100.

End JsNumber.

(* ------------------------------------------------------------------ *)
(** ** Arrays *)

Module JsArray.

Import JsNumber.

Section Sort.
Context {A : Type}.
Variable comparefn : A -> A -> jsnum.

(** [SortCompare]: a negative result puts the first argument first; a
    [NaN] result counts as zero. *)
Definition before (x y : A) : bool :=
  match comparefn x y with
  | Some v => Qltb v 0
  | None => false
  end.

(** Insertion of [x], which stood in front of all of [l], into the
    sorted [l]: it moves behind exactly the elements that must come
    before it. *)
Fixpoint insert (x : A) (l : list A) : list A :=
  match l with
  | [] => [x]
  | y :: l' => if before y x then y :: insert x l' else x :: y :: l'
  end.

(** [arr.sort(comparefn)], a stable sort (ECMAScript 2019).  For a
    comparator that is a consistent ordering of the elements the result
    of a stable sort is determined, whatever the algorithm, and is the
    one computed here.  For an inconsistent comparator the standard
    leaves the order to the implementation: the result is then some
    permutation of the elements, and nothing below is stated about the
    order unless the hypotheses make the comparator consistent. *)
Fixpoint sort (l : list A) : list A :=
  match l with
  | [] => []
  | x :: l' => insert x (sort l')
  end.
End Sort.

(** [arr[i]] for an index computed in the integers: [undefined] outside
    the array, in particular at [-1]. *)
Definition at_index {A : Type} (l : list A) (i : Z) : option A :=
  if (i <? 0)%Z then None else nth_error l (Z.to_nat i).

(** [arr.indexOf(x)] on strings: the first position, or [-1]. *)
Fixpoint indexOf (l : list string) (x : string) : Z :=
  match l with
  | [] => -1
  | y :: l' =>
      if String.eqb y x then 0%Z
      else let i := indexOf l' x in if (i <? 0)%Z then (-1)%Z else (i + 1)%Z
  end.

End JsArray.

(* ------------------------------------------------------------------ *)
(** ** Maps *)

Module JsMap.

(** [new Map()] with string keys: entries in insertion order. *)
Definition t (V : Type) := list (string * V).

Definition empty {V : Type} : t V := [].

Fixpoint has {V : Type} (m : t V) (k : string) : bool :=
  match m with
  | [] => false
  | (k', _) :: m' => String.eqb k' k || has m' k
  end.

Fixpoint get {V : Type} (m : t V) (k : string) : option V :=
  match m with
  | [] => None
  | (k', v) :: m' => if String.eqb k' k then Some v else get m' k
  end.

(** [m.set(k, v)]: a present key keeps its place, a new one goes last. *)
Fixpoint set {V : Type} (m : t V) (k : string) (v : V) : t V :=
  match m with
  | [] => [(k, v)]
  | (k', v') :: m' =>
      if String.eqb k' k then (k', v) :: m' else (k', v') :: set m' k v
  end.

(** The object stored under [k] is mutated in place by [f]: what
    [m.get(k).method(...)] does to the map. *)
Fixpoint modify {V : Type} (m : t V) (k : string) (f : V -> V) : t V :=
  match m with
  | [] => []
  | (k', v) :: m' =>
      if String.eqb k' k then (k', f v) :: m' else (k', v) :: modify m' k f
  end.

Definition entries {V : Type} (m : t V) : list (string * V) := m.

End JsMap.

(* ------------------------------------------------------------------ *)
(** ** The [statistics] object *)

Module statistics.

Import JsNumber.
Local Open Scope Q_scope.

(** [arr.reduce((a, b) => a + b, 0)] *)
Definition sum (arr : list Q) : Q := fold_left Qplus arr 0.

Definition len (arr : list Q) : Q := inject_Z (Z.of_nat (List.length arr)).

Definition average (arr : list Q) : Q :=
  match arr with
  | [] => 0
  | _ => toFixed2 (sum arr / len arr)
  end.

Definition median (arr : list Q) : Q :=
  match arr with
  | [] => 0
  | _ =>
      let sorted := JsArray.sort (fun a b => Some (a - b)) arr in
      let mid := Nat.div (List.length sorted) 2 in
      if Nat.eqb (Nat.modulo (List.length sorted) 2) 0
      then toFixed2 ((nth (mid - 1) sorted 0 + nth mid sorted 0) / inject_Z 2)
      else toFixed2 (nth mid sorted 0)
  end.

(** The mean used here is [statistics.average(arr)], hence already
    rounded; [Math.pow(d, 2)] is [d * d]. *)
Definition variance (arr : list Q) : Q :=
  let mean := average arr in
  fold_left (fun acc val => acc + (val - mean) * (val - mean)) arr 0 / len arr.

Definition stdDev (arr : list Q) : Q :=
  match arr with
  | [] => 0
  | _ => sqrt_toFixed2 (variance arr)
  end.

End statistics.

(* ------------------------------------------------------------------ *)
(** ** Abrupt completion *)

(** An evaluation either completes normally or throws; the only throw of
    the modelled code is the [TypeError] of reading a property of
    [undefined]. *)
Inductive completion (A : Type) : Type :=
| Normal (a : A)
| Throw.
Arguments Normal {A} a.
Arguments Throw {A}.

(** A computation over a mutable store [S]: what was written before a throw
    stays written. *)
Definition Eff (S A : Type) : Type := S -> S * completion A.

Definition ret {S A : Type} (a : A) : Eff S A := fun s => (s, Normal a).

Definition bind {S A B : Type} (c : Eff S A) (k : A -> Eff S B) : Eff S B :=
  fun s =>
    match c s with
    | (s', Normal a) => k a s'
    | (s', Throw) => (s', Throw)
    end.

(** Reading [o.p] and then going through the result: a [TypeError] when
    the property is absent. *)
Definition deref {S A : Type} (o : option A) : Eff S A :=
  fun s =>
    match o with
    | Some a => (s, Normal a)
    | None => (s, Throw)
    end.

Definition update {S : Type} (f : S -> S) : Eff S unit :=
  fun s => (f s, Normal tt).

Notation "x <- c ;; k" := (bind c (fun x => k))
  (at level 61, c at next level, right associativity).
Notation "c ;;; k" := (bind c (fun _ => k))
  (at level 61, right associativity).

(** [arr.forEach(f)] for an effectful [f]: a throw ends the loop. *)
Fixpoint forEach {S A : Type} (arr : list A) (f : A -> Eff S unit)
  : Eff S unit :=
  match arr with
  | [] => ret tt
  | x :: arr' => f x ;;; forEach arr' f
  end.

(** [try { c } catch (error) { h }]: the handler runs on the store as the
    body left it, and a throw of the handler is not caught. *)
Definition try_catch {S : Type} (c h : Eff S unit) : Eff S unit :=
  fun s =>
    match c s with
    | (s', Normal a) => (s', Normal a)
    | (s', Throw) => h s'
    end.

(* ------------------------------------------------------------------ *)
(** ** Input: the decoded [data.json] *)

Module Fund.
Record t : Type := mk
  { name : string;
    nominalRate : Q;
    afterTaxReturn : Q;
    realReturn : Q }.
End Fund.

Module StatsAverage.
(** [metadata.statistics.average] of a day *)
Record t : Type := mk
  { nominalRate : Q;
    afterTaxReturn : Q;
    realReturn : Q }.
End StatsAverage.

Module DayStatistics.
Record t : Type := mk { average : option StatsAverage.t }.
End DayStatistics.

Module DayMetadata.
Record t : Type := mk
  { date : option string;
    statistics : option DayStatistics.t }.
End DayMetadata.

Module DayData.
Record t : Type := mk
  { metadata : option DayMetadata.t;
    funds : option (list Fund.t) }.
End DayData.

(* ------------------------------------------------------------------ *)
(** ** Output records *)

Module Averages.
(** the object returned by [getAverages] *)
Record t : Type := mk
  { nominalRate : Q;
    afterTaxReturn : Q;
    realReturn : Q;
    dataPoints : nat }.
End Averages.

Module MetricStats.
Record t : Type := mk { average : Q; median : Q; stdDev : Q }.
End MetricStats.

Module DetailedStats.
(** the object returned by [getDetailedStats] *)
Record t : Type := mk
  { nominalRate : MetricStats.t;
    afterTaxReturn : MetricStats.t;
    realReturn : MetricStats.t;
    dataPoints : nat }.
End DetailedStats.

Module FundEntry.
(** [{ name, ...metrics.getAverages() }] *)
Record t : Type := mk { name : string; averages : Averages.t }.
Definition nominalRate (f : t) : Q := Averages.nominalRate (averages f).
End FundEntry.

Module FundSummary.
(** [{ ...fund, rank: index + 1 }] *)
Record t : Type := mk { entry : FundEntry.t; rank : nat }.
Definition name (f : t) : string := FundEntry.name (entry f).
Definition nominalRate (f : t) : Q := FundEntry.nominalRate (entry f).
Definition dataPoints (f : t) : nat :=
  Averages.dataPoints (FundEntry.averages (entry f)).
End FundSummary.

Module MonthStatistics.
Record t : Type := mk { average : Averages.t; detailed : DetailedStats.t }.
End MonthStatistics.

Module MonthSummaryBlock.
(** [metadata.summary]; a performer is [{ ...funds[i] }], the empty
    object (here [None]) when [funds[i]] is [undefined]. *)
Record t : Type := mk
  { totalFunds : nat;
    topPerformer : option FundSummary.t;
    bottomPerformer : option FundSummary.t }.
End MonthSummaryBlock.

Module MonthMetadata.
Record t : Type := mk
  { month : string;
    source : string;
    statistics : MonthStatistics.t;
    summary : MonthSummaryBlock.t }.
End MonthMetadata.

Module MonthSummary.
Record t : Type := mk
  { metadata : MonthMetadata.t;
    funds : list FundSummary.t }.
Definition month (m : t) : string := MonthMetadata.month (metadata m).
Definition statistics (m : t) : MonthStatistics.t :=
  MonthMetadata.statistics (metadata m).
Definition totalFunds (m : t) : nat :=
  MonthSummaryBlock.totalFunds (MonthMetadata.summary (metadata m)).
Definition topPerformer (m : t) : option FundSummary.t :=
  MonthSummaryBlock.topPerformer (MonthMetadata.summary (metadata m)).
Definition bottomPerformer (m : t) : option FundSummary.t :=
  MonthSummaryBlock.bottomPerformer (MonthMetadata.summary (metadata m)).
End MonthSummary.

(* ------------------------------------------------------------------ *)
(** ** [class FundMetrics] *)

Module FundMetrics.

Record t : Type := mk
  { nominalRates : list Q;
    afterTaxReturns : list Q;
    realReturns : list Q;
    count : nat }.

Definition new : t := mk [] [] [] 0.

(** [push] appends; [count++] *)
Definition addMetrics (nominal afterTax real : Q) (this : t) : t :=
  mk (nominalRates this ++ [nominal])
     (afterTaxReturns this ++ [afterTax])
     (realReturns this ++ [real])
     (S (count this)).

Definition getAverages (this : t) : Averages.t :=
  Averages.mk (statistics.average (nominalRates this))
              (statistics.average (afterTaxReturns this))
              (statistics.average (realReturns this))
              (count this).

Definition detail (arr : list Q) : MetricStats.t :=
  MetricStats.mk (statistics.average arr) (statistics.median arr)
                 (statistics.stdDev arr).

Definition getDetailedStats (this : t) : DetailedStats.t :=
  DetailedStats.mk (detail (nominalRates this))
                   (detail (afterTaxReturns this))
                   (detail (realReturns this))
                   (count this).

End FundMetrics.

(* ------------------------------------------------------------------ *)
(** ** [class MonthData] *)

Module MonthData.

Record t : Type := mk
  { fundsData : JsMap.t FundMetrics.t;
    statistics : FundMetrics.t }.

Definition new : t := mk JsMap.empty FundMetrics.new.

Definition addFundData (fund : Fund.t) (this : t) : t :=
  let fundsData1 :=
    if negb (JsMap.has (fundsData this) (Fund.name fund))
    then JsMap.set (fundsData this) (Fund.name fund) FundMetrics.new
    else fundsData this in
  mk (JsMap.modify fundsData1 (Fund.name fund)
        (FundMetrics.addMetrics (Fund.nominalRate fund)
           (Fund.afterTaxReturn fund) (Fund.realReturn fund)))
     (statistics this).

(** [stats.average.nominalRate] throws when [stats] or [stats.average]
    is absent; the three arguments are read before anything is pushed. *)
Definition addStatistics (stats : option DayStatistics.t) : Eff t unit :=
  st <- deref stats ;;
  avg <- deref (DayStatistics.average st) ;;
  update (fun this =>
    mk (fundsData this)
       (FundMetrics.addMetrics (StatsAverage.nominalRate avg)
          (StatsAverage.afterTaxReturn avg) (StatsAverage.realReturn avg)
          (statistics this))).

End MonthData.

(* ------------------------------------------------------------------ *)
(** ** [processMonthlyData] *)

(** A method call on the object that a map holds under [k]: the object is
    shared with the map, so its mutation is a mutation of the entry. *)
Definition with_object {V A : Type} (k : string) (c : Eff V A)
  : Eff (JsMap.t V) A :=
  fun m =>
    match JsMap.get m k with
    | Some v => let (v', r) := c v in (JsMap.modify m k (fun _ => v'), r)
    | None => (m, Throw)
    end.

(** The month key of a date string:
    [const [day, month, year] = date.split(" ")] and then
    [`${month} ${year}`.toUpperCase()]. *)
Definition monthYear_of (date : string) : string :=
  let parts := JsString.split " " date in
  let month := nth_error parts 1 in
  let year := nth_error parts 2 in
  JsString.toUpperCase
    (JsString.template month ++ " " ++ JsString.template year).

(** The body of the [try] block for one day. *)
Definition day_body (dayData : DayData.t) : Eff (JsMap.t MonthData.t) unit :=
  md <- deref (DayData.metadata dayData) ;;
  date <- deref (DayMetadata.date md) ;;
  let monthYear := monthYear_of date in
  update (fun monthsMap =>
            if negb (JsMap.has monthsMap monthYear)
            then JsMap.set monthsMap monthYear MonthData.new
            else monthsMap) ;;;
  fs <- deref (DayData.funds dayData) ;;
  forEach fs (fun fund =>
    with_object monthYear (update (MonthData.addFundData fund))) ;;;
  with_object monthYear (MonthData.addStatistics (DayMetadata.statistics md)).

(** The [catch] block for one day: the message of [console.error] is
    the template literal that reads [dayData.metadata.date] again, a
    [TypeError] when [metadata] is absent; an absent [date] is printed
    as [undefined]. *)
Definition day_handler (dayData : DayData.t)
  : Eff (JsMap.t MonthData.t) unit :=
  md <- deref (DayData.metadata dayData) ;;
  ret tt.

(** [dailyData.forEach(dayData => { try {...} catch (error) {...} })] *)
Definition collect (dailyData : list DayData.t)
  : Eff (JsMap.t MonthData.t) unit :=
  forEach dailyData
    (fun dayData => try_catch (day_body dayData) (day_handler dayData)).

(** [arr.map((x, index) => f(x, index))] *)
Fixpoint mapi_from {A B : Type} (i : nat) (f : A -> nat -> B) (l : list A)
  : list B :=
  match l with
  | [] => []
  | x :: l' => f x i :: mapi_from (S i) f l'
  end.

Definition mapi {A B : Type} (f : A -> nat -> B) (l : list A) : list B :=
  mapi_from 0 f l.

(** The comparator [(a, b) => b.nominalRate - a.nominalRate]. *)
Definition compareFunds (a b : FundEntry.t) : JsNumber.jsnum :=
  Some (FundEntry.nominalRate b - FundEntry.nominalRate a)%Q.

(** The fund list of a month, with rankings. *)
Definition rankedFunds (data : MonthData.t) : list FundSummary.t :=
  mapi (fun fund index => FundSummary.mk fund (index + 1))
    (JsArray.sort compareFunds
       (map (fun '(name, metrics) =>
               FundEntry.mk name (FundMetrics.getAverages metrics))
            (JsMap.entries (MonthData.fundsData data)))).

Definition summarize (e : string * MonthData.t) : MonthSummary.t :=
  let (monthYear, data) := e in
  let funds := rankedFunds data in
  MonthSummary.mk
    (MonthMetadata.mk monthYear "Daily Nation and M-PESA APP"
       (MonthStatistics.mk
          (FundMetrics.getAverages (MonthData.statistics data))
          (FundMetrics.getDetailedStats (MonthData.statistics data)))
       (MonthSummaryBlock.mk
          (List.length funds)
          (JsArray.at_index funds 0)
          (JsArray.at_index funds (Z.of_nat (List.length funds) - 1))))
    funds.

Definition months : list string :=
  ["JANUARY"; "FEBRUARY"; "MARCH"; "APRIL"; "MAY"; "JUNE";
   "JULY"; "AUGUST"; "SEPTEMBER"; "OCTOBER"; "NOVEMBER"; "DECEMBER"].

(** [months.indexOf(x)] where [x] may be [undefined], which no entry
    equals. *)
Definition monthIndex (x : option string) : Z :=
  match x with
  | Some s => JsArray.indexOf months s
  | None => -1
  end.

(** [ToNumber] of a destructured element; [undefined] gives [NaN]. *)
Definition yearNumber (x : option string) : Binary64.number :=
  match x with
  | Some s => JsString.toNumber s
  | None => Binary64.NaN
  end.

(** The subtraction [x - y] in binary64.  An infinite difference is
    given as [2^1024] with its sign: the sort reads the sign only. *)
Definition subtract (x y : Binary64.number) : JsNumber.jsnum :=
  match x, y with
  | Binary64.Finite a, Binary64.Finite b =>
      Some (inject_Z (Binary64.round_signed (a - b)))
  | Binary64.Infinity, Binary64.Finite _ =>
      Some (inject_Z Binary64.overflow)
  | Binary64.Finite _, Binary64.Infinity =>
      Some (inject_Z (- Binary64.overflow))
  | _, _ => None
  end.

Definition option_string_eqb (x y : option string) : bool :=
  match x, y with
  | Some a, Some b => String.eqb a b
  | None, None => true
  | _, _ => false
  end.

(** The comparator of the chronological sort, on month keys. *)
Definition compareMonthKeys (a b : string) : JsNumber.jsnum :=
  let pa := JsString.split " " a in
  let pb := JsString.split " " b in
  let aMonth := nth_error pa 0 in
  let aYear := nth_error pa 1 in
  let bMonth := nth_error pb 0 in
  let bYear := nth_error pb 1 in
  if negb (option_string_eqb aYear bYear)
  then subtract (yearNumber aYear) (yearNumber bYear)
  else Some (inject_Z (monthIndex aMonth - monthIndex bMonth)).

Definition compareMonths (a b : MonthSummary.t) : JsNumber.jsnum :=
  compareMonthKeys (MonthSummary.month a) (MonthSummary.month b).

(** [processMonthlyData]: a throw that leaves the loop, which only the
    [catch] block can raise, leaves the function. *)
Definition processMonthlyData (dailyData : list DayData.t)
  : completion (list MonthSummary.t) :=
  match collect dailyData JsMap.empty with
  | (monthsMap, Normal _) =>
      let monthlyData := map summarize (JsMap.entries monthsMap) in
      Normal (JsArray.sort compareMonths monthlyData)
  | (_, Throw) => Throw
  end.

(* ------------------------------------------------------------------ *)
(** ** The summary step of [main] *)

Module DateRange.
Record t : Type := mk { start : string; end_ : string }.
End DateRange.

Module Summary.
Record t : Type := mk
  { totalMonths : nat;
    dateRange : DateRange.t;
    averageNumberOfFunds : Q }.
End Summary.

Module SummaryData.
Record t : Type := mk
  { summary : Summary.t;
    monthlyData : list MonthSummary.t }.
End SummaryData.

(** The object literal [summaryData]: [monthlyData[0].metadata] throws on
    an empty array, before anything else of the literal is evaluated. *)
Definition summaryData_of (monthlyData : list MonthSummary.t)
  : completion SummaryData.t :=
  match JsArray.at_index monthlyData 0 with
  | None => Throw
  | Some first =>
      match JsArray.at_index monthlyData
              (Z.of_nat (List.length monthlyData) - 1) with
      | None => Throw
      | Some last =>
          Normal
            (SummaryData.mk
               (Summary.mk
                  (List.length monthlyData)
                  (DateRange.mk (MonthSummary.month first)
                                (MonthSummary.month last))
                  (JsNumber.toFixed2
                     (fold_left
                        (fun sum month =>
                           sum + inject_Z
                                   (Z.of_nat (MonthSummary.totalFunds month)))%Q
                        monthlyData 0%Q
                      / inject_Z (Z.of_nat (List.length monthlyData)))%Q))
               monthlyData)
      end
  end.

(** How a run of [main] ends, given the decoded input: the summary is
    written to [monthly.json], or the [catch] reports the error and calls
    [process.exit(1)]. *)
Inductive outcome : Type :=
| Written (s : SummaryData.t)
| Exit1.

Definition main (dailyData : list DayData.t) : outcome :=
  match processMonthlyData dailyData with
  | Normal monthlyData =>
      match summaryData_of monthlyData with
      | Normal s => Written s
      | Throw => Exit1
      end
  | Throw => Exit1
  end.

(** A complete day record, for the examples. *)
Definition mkDay (date : string) (fs : list Fund.t) (n a r : Q) : DayData.t :=
  DayData.mk
    (Some (DayMetadata.mk (Some date)
             (Some (DayStatistics.mk (Some (StatsAverage.mk n a r))))))
    (Some fs).

(* ================================================================== *)
(** * Notions used in the statements *)

(** [precedes x y l]: an occurrence of [x] stands in front of an occurrence
    of [y]. *)
Inductive precedes {A : Type} (x y : A) : list A -> Prop :=
| precedes_here (l : list A) : In y l -> precedes x y (x :: l)
| precedes_later (z : A) (l : list A) : precedes x y l -> precedes x y (z :: l).

(** The distinct strings of a list, in the order of their first
    occurrence. *)
Fixpoint first_occ (l : list string) : list string :=
  match l with
  | [] => []
  | k :: l' => k :: filter (fun k' => negb (String.eqb k' k)) (first_occ l')
  end.

Definition key_is (k : string) (o : option string) : bool :=
  match o with
  | Some k' => String.eqb k' k
  | None => false
  end.

Definition key_list (o : option string) : list string :=
  match o with
  | Some k => [k]
  | None => []
  end.

(** Grouping by an optional key, as both maps of the program are filled:
    the entry of a key is created from [new] when the key is first seen,
    and every item with that key is folded into the entry by [f]. *)
Section GroupBy.
Context {D V : Type}.
Variable key : D -> option string.
Variable f : D -> V -> V.
Variable new : V.

Definition upsert (m : JsMap.t V) (d : D) : JsMap.t V :=
  match key d with
  | None => m
  | Some k =>
      JsMap.modify (if negb (JsMap.has m k) then JsMap.set m k new else m)
                   k (f d)
  end.

Definition select (k : string) (ds : list D) : list D :=
  filter (fun d => key_is k (key d)) ds.

Definition keys_of (ds : list D) : list string :=
  first_occ (flat_map (fun d => key_list (key d)) ds).

Definition grouped (ds : list D) : JsMap.t V :=
  map (fun k => (k, fold_left (fun v d => f d v) (select k ds) new))
      (keys_of ds).
End GroupBy.

(** The date of a day record, when it can be read without a throw. *)
Definition day_date (d : DayData.t) : option string :=
  match DayData.metadata d with
  | Some md => DayMetadata.date md
  | None => None
  end.

(** The bucket a day record goes to. *)
Definition day_key (d : DayData.t) : option string :=
  option_map monthYear_of (day_date d).

(** The fund samples a day record adds to its bucket. *)
Definition day_funds (d : DayData.t) : list Fund.t :=
  match DayData.funds d with
  | Some fs => fs
  | None => []
  end.

(** The portfolio triple a day record adds to its bucket: the one of a
    record whose [try] block ran to its end. *)
Definition day_triple (d : DayData.t) : option StatsAverage.t :=
  match DayData.metadata d, DayData.funds d with
  | Some md, Some _ =>
      match DayMetadata.statistics md with
      | Some st => DayStatistics.average st
      | None => None
      end
  | _, _ => None
  end.

Definition triple_list (d : DayData.t) : list StatsAverage.t :=
  match day_triple d with
  | Some t => [t]
  | None => []
  end.

(** The records, fund samples and portfolio triples of the bucket [k], in
    input order. *)
Definition month_days (ds : list DayData.t) (k : string) : list DayData.t :=
  select day_key k ds.

Definition month_samples (ds : list DayData.t) (k : string) : list Fund.t :=
  flat_map day_funds (month_days ds k).

Definition month_triples (ds : list DayData.t) (k : string)
  : list StatsAverage.t :=
  flat_map triple_list (month_days ds k).

(** The fund names of a bucket in the order of their first appearance. *)
Definition month_fund_names (ds : list DayData.t) (k : string) : list string :=
  first_occ (map Fund.name (month_samples ds k)).

Definition fund_key (f : Fund.t) : option string := Some (Fund.name f).

Definition addSample (f : Fund.t) : FundMetrics.t -> FundMetrics.t :=
  FundMetrics.addMetrics (Fund.nominalRate f) (Fund.afterTaxReturn f)
                         (Fund.realReturn f).

Definition addTriple (t : StatsAverage.t) : FundMetrics.t -> FundMetrics.t :=
  FundMetrics.addMetrics (StatsAverage.nominalRate t)
                         (StatsAverage.afterTaxReturn t)
                         (StatsAverage.realReturn t).

(** What one day does to the bucket it goes to. *)
Definition apply_day (d : DayData.t) (b : MonthData.t) : MonthData.t :=
  match DayData.funds d with
  | None => b
  | Some fs =>
      let b' := fold_left (fun b f => MonthData.addFundData f b) fs b in
      match day_triple d with
      | Some t =>
          MonthData.mk (MonthData.fundsData b')
                       (addTriple t (MonthData.statistics b'))
      | None => b'
      end
  end.

(** A record that has [metadata], whatever is in it. *)
Definition has_metadata (d : DayData.t) : bool :=
  match DayData.metadata d with
  | Some _ => true
  | None => false
  end.

(** The month map when the loop has run to its end: every [try] block ran
    on the store that the one before it left, thrown or not. *)
Definition collected (ds : list DayData.t) : JsMap.t MonthData.t :=
  fold_left (fun monthsMap dayData => fst (day_body dayData monthsMap))
            ds JsMap.empty.

(** The list that [processMonthlyData] returns, when it returns. *)
Definition summaries (ds : list DayData.t) : list MonthSummary.t :=
  JsArray.sort compareMonths (map summarize (JsMap.entries (collected ds))).

(** The accumulator holding exactly the given samples. *)
Definition metrics_of_samples (l : list Fund.t) : FundMetrics.t :=
  FundMetrics.mk (map Fund.nominalRate l) (map Fund.afterTaxReturn l)
                 (map Fund.realReturn l) (List.length l).

Definition metrics_of_triples (l : list StatsAverage.t) : FundMetrics.t :=
  FundMetrics.mk (map StatsAverage.nominalRate l)
                 (map StatsAverage.afterTaxReturn l)
                 (map StatsAverage.realReturn l) (List.length l).

(** The bucket of the key [k]: the days of that key folded into a new
    [MonthData]. *)
Definition bucket (ds : list DayData.t) (k : string) : MonthData.t :=
  fold_left (fun b d => apply_day d b) (month_days ds k) MonthData.new.

(** The samples of the fund [n] in the bucket [k]. *)
Definition fund_samples (ds : list DayData.t) (k n : string) : list Fund.t :=
  select fund_key n (month_samples ds k).

(** The fund list of the bucket [k] before it is sorted: one entry per fund
    name, in the order of first appearance. *)
Definition fund_entries (ds : list DayData.t) (k : string) : list FundEntry.t :=
  map (fun n =>
         FundEntry.mk n
           (FundMetrics.getAverages (metrics_of_samples (fund_samples ds k n))))
      (month_fund_names ds k).

(** The standard deviation as the specification words it, for comparison
    with [statistics.stdDev]: the population standard deviation of the
    samples about their unrounded mean, rounded once, at the end. *)
Definition stdDev_spec (arr : list Q) : Q :=
  match arr with
  | [] => 0
  | _ =>
      let mean := (statistics.sum arr / statistics.len arr)%Q in
      JsNumber.sqrt_toFixed2
        (fold_left (fun acc val => acc + (val - mean) * (val - mean))%Q arr 0%Q
         / statistics.len arr)%Q
  end.

(** Descending order of the average nominal rate. *)
Definition rate_desc (a b : FundEntry.t) : Prop :=
  (FundEntry.nominalRate b <= FundEntry.nominalRate a)%Q.

(** ** Well-formed dates and the chronological order *)

Fixpoint has_space (s : string) : bool :=
  match s with
  | EmptyString => false
  | String c s' => Ascii.eqb c " " || has_space s'
  end.

(** A year written as a decimal numeral in the usual way: digits only, at
    least one, no leading zero. *)
Definition canonical_year (y : string) : bool :=
  match y with
  | EmptyString => false
  | String c rest =>
      JsString.all_digits y
      && (negb (Ascii.eqb c "0") || String.eqb rest EmptyString)
  end.

(** A date that parses: day, month and year tokens separated by single
    spaces, the year a numeral. *)
Definition parseable_date (date : string) : bool :=
  match JsString.split " " date with
  | _ :: _ :: year :: _ => canonical_year year
  | _ => false
  end.

(** A year that binary64 holds exactly: at most 2^53. *)
Definition exact_year (y : string) : bool :=
  (JsString.digits_value 0 y <=? 2 ^ 53)%Z.

(** A date whose month key the chronological sort can order: it parses
    and its year is at most 2^53. *)
Definition orderable_date (date : string) : bool :=
  match JsString.split " " date with
  | _ :: _ :: year :: _ => canonical_year year && exact_year year
  | _ => false
  end.

(** The month key as the specification words it: the uppercased month
    token paired with the year token. *)
Definition MonthKey (date : string) : option (string * string) :=
  match JsString.split " " date with
  | _ :: month :: year :: _ => Some (JsString.toUpperCase month, year)
  | _ => None
  end.

(** The year of a month key as an integer (the value of its second token
    read as a decimal numeral), and the calendar index of its month name
    (January = 0; -1 for a name outside the table). *)
Definition key_year (k : string) : Z :=
  match nth_error (JsString.split " " k) 1 with
  | Some y => JsString.digits_value 0 y
  | None => 0
  end.

Definition key_index (k : string) : Z :=
  monthIndex (nth_error (JsString.split " " k) 0).

(** Ascending order of the pair (year, calendar index). *)
Definition chron_le (a b : string) : Prop :=
  (key_year a < key_year b)%Z
  \/ (key_year a = key_year b /\ (key_index a <= key_index b)%Z).

(** A key made of a month token and a numeral year of at most 2^53. *)
Definition wf_key (k : string) : Prop :=
  exists mo y,
    k = (mo ++ " " ++ y)%string
    /\ has_space mo = false /\ canonical_year y = true
    /\ exact_year y = true.

(** The value of a digit character and the length of a string, in the
    integers. *)
Definition digit (c : ascii) : Z := Z.of_nat (nat_of_ascii c) - 48.

Definition slen (s : string) : Z := Z.of_nat (String.length s).

(* ------------------------------------------------------------------ *)
(** ** Sample inputs *)

(** Two funds of different rates, and a day without funds. *)
Definition day_A5_B7 : DayData.t :=
  mkDay "01 January 2024" [Fund.mk "A" 5 5 5; Fund.mk "B" 7 7 7] 6 6 6.

Definition day_no_funds : DayData.t := mkDay "01 January 2024" [] 1 1 1.

(** A day whose portfolio nominal rate is 0.125, and a day with two funds
    of equal rate and one of a higher rate. *)
Definition day_eighth : DayData.t :=
  mkDay "01 January 2024" [Fund.mk "X" 4 4 4] (1 # 8) 4 4.

Definition day_tie : DayData.t :=
  mkDay "01 January 2024"
        [Fund.mk "A" 5 5 5; Fund.mk "C" 5 5 5; Fund.mk "B" 7 7 7] 6 6 6.

(** The summary that [day_A5_B7] alone gives. *)
Definition month_A5_B7 : MonthSummary.t :=
  summarize ("JANUARY 2024", bucket [day_A5_B7] "JANUARY 2024").

Definition month_no_funds : MonthSummary.t :=
  summarize ("JANUARY 2024", bucket [day_no_funds] "JANUARY 2024").

(** Two days of one month with different numbers of funds: the mean of the
    daily means is not the mean of the samples. *)
Definition days_mean_of_means : list DayData.t :=
  [mkDay "01 January 2024" [Fund.mk "A" 1 1 1] 1 1 1;
   mkDay "02 January 2024" [Fund.mk "A" 3 3 3; Fund.mk "B" 5 5 5] 4 4 4].

Definition month_mean_of_means : MonthSummary.t :=
  summarize ("JANUARY 2024", bucket days_mean_of_means "JANUARY 2024").

(** A record whose date is the empty string, one without [metadata], one
    whose [metadata] has no [date], and one whose month is not a month
    name. *)
Definition day_empty_date : DayData.t :=
  mkDay EmptyString [Fund.mk "X" 4 4 4] 4 4 4.


Definition day_no_date : DayData.t :=
  DayData.mk
    (Some (DayMetadata.mk None
             (Some (DayStatistics.mk (Some (StatsAverage.mk 4 4 4))))))
    (Some [Fund.mk "X" 4 4 4]).

Definition day_unknown_month : DayData.t :=
  mkDay "01 Foo 2024" [Fund.mk "X" 4 4 4] 4 4 4.

Definition day_january : DayData.t :=
  mkDay "01 January 2024" [Fund.mk "X" 4 4 4] 4 4 4.

(** Three months out of order, and one month written in two ways. *)
Definition days_three_months : list DayData.t :=
  [mkDay "05 March 2023" [Fund.mk "X" 4 4 4] 4 4 4;
   mkDay "05 January 2024" [Fund.mk "X" 4 4 4] 4 4 4;
   mkDay "05 December 2023" [Fund.mk "X" 4 4 4] 4 4 4].

(** One year written in two ways, the later month first. *)
Definition days_leading_zero : list DayData.t :=
  [mkDay "01 March 02024" [Fund.mk "X" 4 4 4] 4 4 4;
   mkDay "01 January 2024" [Fund.mk "X" 4 4 4] 4 4 4].



(* ------------------------------------------------------------------ *)
(** ** Further notions *)

(** An item that has a key. *)
Definition keyed {D : Type} (key : D -> option string) (d : D) : bool :=
  match key d with
  | Some _ => true
  | None => false
  end.

(** A record whose date can be read, and one whose [try] block ran to its
    end. *)
Definition has_key (d : DayData.t) : bool :=
  match day_key d with
  | Some _ => true
  | None => false
  end.

Definition has_triple (d : DayData.t) : bool :=
  match day_triple d with
  | Some _ => true
  | None => false
  end.

(** The [dataPoints] of the portfolio view and of the fund list of a month
    summary. *)
Definition portfolioPoints (m : MonthSummary.t) : nat :=
  Averages.dataPoints (MonthStatistics.average (MonthSummary.statistics m)).

Definition fundPoints (m : MonthSummary.t) : nat :=
  list_sum (map FundSummary.dataPoints (MonthSummary.funds m)).

(** The samples of one fund name among the samples of a month. *)
Definition samples_named (n : string) (l : list Fund.t) : list Fund.t :=
  filter (fun s => String.eqb (Fund.name s) n) l.

(** Two days of one month with the fund X at rates 4 and 6. *)
Definition days_X4_X6 : list DayData.t :=
  [mkDay "01 January 2024" [Fund.mk "X" 4 4 4] 4 4 4;
   mkDay "02 January 2024" [Fund.mk "X" 6 6 6] 6 6 6].

Definition month_X4_X6 : MonthSummary.t :=
  summarize ("JANUARY 2024", bucket days_X4_X6 "JANUARY 2024").

(** A record with a date and no [funds], and its month. *)
Definition day_without_funds : DayData.t :=
  DayData.mk
    (Some (DayMetadata.mk (Some "01 January 2024")
             (Some (DayStatistics.mk (Some (StatsAverage.mk 9 9 9))))))
    None.

Definition month_without_funds : MonthSummary.t :=
  summarize ("JANUARY 2024", bucket [day_without_funds] "JANUARY 2024").

(** Strictly ascending order of the pair (year, calendar index). *)
Definition chron_lt (a b : string) : Prop :=
  (key_year a < key_year b)%Z
  \/ (key_year a = key_year b /\ (key_index a < key_index b)%Z).

(** A date that the sort can order and whose month, uppercased, is in
    the table. *)
Definition calendar_date (date : string) : bool :=
  match JsString.split " " date with
  | _ :: month :: year :: _ =>
      canonical_year year && exact_year year
      && existsb (String.eqb (JsString.toUpperCase month)) months
  | _ => false
  end.

(** A key made of a month name of the table and a numeral year of at most
    2^53. *)
Definition calendar_key (k : string) : Prop :=
  exists mo y,
    k = (mo ++ " " ++ y)%string /\ In mo months /\ canonical_year y = true
    /\ exact_year y = true.

(** Two months of one year whose names are not in the table. *)
Definition days_foo_bar : list DayData.t :=
  [mkDay "01 Foo 2024" [] 1 1 1; mkDay "01 Bar 2024" [] 1 1 1].

Definition month_foo : MonthSummary.t :=
  summarize ("FOO 2024", bucket days_foo_bar "FOO 2024").

Definition month_bar : MonthSummary.t :=
  summarize ("BAR 2024", bucket days_foo_bar "BAR 2024").

(* ================================================================== *)
(** * The earlier conversion script

    The second source file is an earlier version of the conversion: the
    function [convertToMonthlyFormat] groups the days in plain objects, has
    no [try], rounds nothing, ranks nothing and sorts nothing.  Its funds
    are identified by the property [fundManager]. *)

Module JsObject.

(** A plain object [{}] used as a map from strings: its own properties in
    the order of their creation. *)
Definition t (V : Type) := list (string * V).

(** The property names that every plain object inherits from
    [Object.prototype]. *)
Definition prototypeNames : list string :=
  ["constructor"; "__defineGetter__"; "__defineSetter__"; "hasOwnProperty";
   "__lookupGetter__"; "__lookupSetter__"; "isPrototypeOf";
   "propertyIsEnumerable"; "toString"; "valueOf"; "__proto__";
   "toLocaleString"].

(** What [o[k]] finds: an own property, an inherited one (a function, or
    the prototype itself for [__proto__]) or nothing ([undefined]). *)
Inductive property (V : Type) : Type :=
| Own (v : V)
| Inherited
| Missing.
Arguments Own {V} v.
Arguments Inherited {V}.
Arguments Missing {V}.

Definition get {V : Type} (o : t V) (k : string) : property V :=
  match JsMap.get o k with
  | Some v => Own v
  | None =>
      if existsb (String.eqb k) prototypeNames then Inherited else Missing
  end.

(** [!o[k]] is true only for [undefined]: the own values here are objects,
    the inherited ones functions or the prototype object. *)
Definition truthy {V : Type} (p : property V) : bool :=
  match p with
  | Missing => false
  | _ => true
  end.

(** A property name that is an array index: a canonical decimal numeral
    below 2^32 - 1. *)
Definition is_index (k : string) : bool :=
  canonical_year k && (JsString.digits_value 0 k <=? 4294967294)%Z.

Fixpoint insert_index (k : string) (l : list string) : list string :=
  match l with
  | [] => [k]
  | k' :: l' =>
      if (JsString.digits_value 0 k' <? JsString.digits_value 0 k)%Z
      then k' :: insert_index k l'
      else k :: k' :: l'
  end.

Definition sort_index (l : list string) : list string :=
  fold_right insert_index [] l.

(** The order in which own property names are enumerated: the array
    indices in ascending numeric order, then the other names in the order
    of their creation. *)
Definition key_order (names : list string) : list string :=
  sort_index (filter is_index names)
  ++ filter (fun k => negb (is_index k)) names.

(** [Object.keys(o)] *)
Definition keys {V : Type} (o : t V) : list string := key_order (map fst o).

(** The own properties in the order of [Object.keys], each with the value
    that [o[k]] reads. *)
Definition entries {V : Type} (o : t V) : list (string * V) :=
  flat_map (fun k => match JsMap.get o k with
                     | Some v => [(k, v)]
                     | None => []
                     end)
           (keys o).

End JsObject.

(** A method call or property access on [o[k]]: possible on an own
    property; on an inherited one or on [undefined] the access that the
    script makes next is a read on [undefined], a [TypeError]. *)
Definition on_property {V A : Type} (k : string) (c : Eff V A)
  : Eff (JsObject.t V) A :=
  fun o =>
    match JsObject.get o k with
    | JsObject.Own v =>
        let (v', r) := c v in (JsMap.modify o k (fun _ => v'), r)
    | _ => (o, Throw)
    end.

Module Legacy.

(** The three sample arrays that the script keeps for a fund and for the
    portfolio. *)
Module Series.
Record t : Type := mk
  { nominalRates : list Q;
    afterTaxReturns : list Q;
    realReturns : list Q }.
Definition empty : t := mk [] [] [].
Definition push (n a r : Q) (s : t) : t :=
  mk (nominalRates s ++ [n]) (afterTaxReturns s ++ [a]) (realReturns s ++ [r]).
End Series.

Module Fund.
Record t : Type := mk
  { fundManager : string;
    nominalRate : Q;
    afterTaxReturn : Q;
    realReturn : Q }.
End Fund.

Module DayData.
Record t : Type := mk
  { metadata : option DayMetadata.t;
    funds : option (list Fund.t) }.
End DayData.

(** An entry of [monthsData]; [statisticsData] has the one property
    [average], which holds the series. *)
Module MonthData.
Record t : Type := mk
  { fundsData : JsObject.t Series.t;
    statisticsData_average : Series.t }.
Definition new : t := mk [] Series.empty.
End MonthData.

Module Triple.
Record t : Type := mk
  { nominalRate : JsNumber.jsnum;
    afterTaxReturn : JsNumber.jsnum;
    realReturn : JsNumber.jsnum }.
End Triple.

Module FundAverage.
Record t : Type := mk { fundManager : string; averages : Triple.t }.
End FundAverage.

Module Month.
Record t : Type := mk
  { month : string;
    source : string;
    statistics_average : Triple.t;
    funds : list FundAverage.t }.
End Month.

(** [average]: no guard for the empty array, whose mean is [0 / 0]. *)
Definition average (arr : list Q) : JsNumber.jsnum :=
  match arr with
  | [] => None
  | _ => Some (statistics.sum arr / statistics.len arr)%Q
  end.

Definition averages (s : Series.t) : Triple.t :=
  Triple.mk (average (Series.nominalRates s))
            (average (Series.afterTaxReturns s))
            (average (Series.realReturns s)).

(** The fund part of the loop body, on the entry of the month. *)
Definition collect_fund (fund : Fund.t) : Eff MonthData.t unit :=
  fun monthObj =>
    let fundManager := Fund.fundManager fund in
    let fundsData1 :=
      if negb (JsObject.truthy
                 (JsObject.get (MonthData.fundsData monthObj) fundManager))
      then JsMap.set (MonthData.fundsData monthObj) fundManager Series.empty
      else MonthData.fundsData monthObj in
    let (fundsData2, r) :=
      on_property fundManager
        (update (Series.push (Fund.nominalRate fund)
                   (Fund.afterTaxReturn fund) (Fund.realReturn fund)))
        fundsData1 in
    (MonthData.mk fundsData2 (MonthData.statisticsData_average monthObj), r).

(** The statistics part of the loop body. *)
Definition collect_statistics (stats : option DayStatistics.t)
  : Eff MonthData.t unit :=
  st <- deref stats ;;
  avg <- deref (DayStatistics.average st) ;;
  update (fun monthObj =>
    MonthData.mk (MonthData.fundsData monthObj)
      (Series.push (StatsAverage.nominalRate avg)
         (StatsAverage.afterTaxReturn avg) (StatsAverage.realReturn avg)
         (MonthData.statisticsData_average monthObj))).

(** The body of [data.forEach]. *)
Definition collect_day (dayData : DayData.t)
  : Eff (JsObject.t MonthData.t) unit :=
  md <- deref (DayData.metadata dayData) ;;
  dateStr <- deref (DayMetadata.date md) ;;
  let monthYear := monthYear_of dateStr in
  update (fun monthsData =>
            if negb (JsObject.truthy (JsObject.get monthsData monthYear))
            then JsMap.set monthsData monthYear MonthData.new
            else monthsData) ;;;
  fs <- deref (DayData.funds dayData) ;;
  forEach fs (fun fund => on_property monthYear (collect_fund fund)) ;;;
  on_property monthYear (collect_statistics (DayMetadata.statistics md)).

(** The second half: one record for each month, in the order of
    [Object.keys]. *)
Definition monthRecord (e : string * MonthData.t) : Month.t :=
  let (monthYear, monthObj) := e in
  Month.mk monthYear "Daily Nation and M-PESA APP"
    (averages (MonthData.statisticsData_average monthObj))
    (map (fun '(fundManager, fundData) =>
            FundAverage.mk fundManager (averages fundData))
         (JsObject.entries (MonthData.fundsData monthObj))).

(** [convertToMonthlyFormat]: a throw of the loop body is not caught. *)
Definition convertToMonthlyFormat (data : list DayData.t)
  : completion (list Month.t) :=
  match forEach data collect_day [] with
  | (monthsData, Normal _) =>
      Normal (map monthRecord (JsObject.entries monthsData))
  | (_, Throw) => Throw
  end.

(** *** Notions for the statements about the script *)

Definition day_date (d : DayData.t) : option string :=
  match DayData.metadata d with
  | Some md => DayMetadata.date md
  | None => None
  end.

Definition day_key (d : DayData.t) : option string :=
  option_map monthYear_of (day_date d).

Definition day_funds (d : DayData.t) : list Fund.t :=
  match DayData.funds d with
  | Some fs => fs
  | None => []
  end.

Definition day_triple (d : DayData.t) : option StatsAverage.t :=
  match DayData.metadata d with
  | Some md =>
      match DayMetadata.statistics md with
      | Some st => DayStatistics.average st
      | None => None
      end
  | None => None
  end.

Definition triple_list (d : DayData.t) : list StatsAverage.t :=
  match day_triple d with
  | Some t => [t]
  | None => []
  end.

Definition ordinary_name (k : string) : bool :=
  negb (existsb (String.eqb k) JsObject.prototypeNames).

(** A record that the loop body gets through: every property it reads is
    there and no fund is named like a property of [Object.prototype]. *)
Definition day_ok (d : DayData.t) : bool :=
  match day_date d, DayData.funds d, day_triple d with
  | Some _, Some fs, Some _ =>
      forallb (fun f => ordinary_name (Fund.fundManager f)) fs
  | _, _, _ => false
  end.

Definition fund_key (f : Fund.t) : option string := Some (Fund.fundManager f).

Definition addSample (f : Fund.t) : Series.t -> Series.t :=
  Series.push (Fund.nominalRate f) (Fund.afterTaxReturn f) (Fund.realReturn f).

Definition addTriple (t : StatsAverage.t) : Series.t -> Series.t :=
  Series.push (StatsAverage.nominalRate t) (StatsAverage.afterTaxReturn t)
              (StatsAverage.realReturn t).

Definition apply_day (d : DayData.t) (b : MonthData.t) : MonthData.t :=
  MonthData.mk
    (fold_left (upsert fund_key addSample Series.empty) (day_funds d)
               (MonthData.fundsData b))
    (fold_left (fun s t => addTriple t s) (triple_list d)
               (MonthData.statisticsData_average b)).

Definition month_samples (data : list DayData.t) (k : string) : list Fund.t :=
  flat_map day_funds (select day_key k data).

Definition month_triples (data : list DayData.t) (k : string)
  : list StatsAverage.t :=
  flat_map triple_list (select day_key k data).

Definition samples_named (n : string) (l : list Fund.t) : list Fund.t :=
  filter (fun s => String.eqb (Fund.fundManager s) n) l.

(** The exact mean of a list of numbers. *)
Definition mean (arr : list Q) : Q :=
  (statistics.sum arr / statistics.len arr)%Q.

(** The exact means of the three figures of a list of fund samples, and of
    a list of portfolio triples. *)
Definition fund_means (l : list Fund.t) : Triple.t :=
  Triple.mk (Some (mean (map Fund.nominalRate l)))
            (Some (mean (map Fund.afterTaxReturn l)))
            (Some (mean (map Fund.realReturn l))).

Definition triple_means (l : list StatsAverage.t) : Triple.t :=
  Triple.mk (Some (mean (map StatsAverage.nominalRate l)))
            (Some (mean (map StatsAverage.afterTaxReturn l)))
            (Some (mean (map StatsAverage.realReturn l))).

(** The fund names of a list of samples, each once, in the order of their
    first appearance. *)
Definition fund_names (l : list Fund.t) : list string :=
  first_occ (map Fund.fundManager l).

(** The record of the month [k], read off the input. *)
Definition month_of (data : list DayData.t) (k : string) : Month.t :=
  Month.mk k "Daily Nation and M-PESA APP"
    (triple_means (month_triples data k))
    (map (fun n =>
            FundAverage.mk n
              (fund_means (samples_named n (month_samples data k))))
         (JsObject.key_order (fund_names (month_samples data k)))).

(** A complete day record. *)
Definition day (date : string) (fs : list Fund.t) (n a r : Q) : DayData.t :=
  DayData.mk
    (Some (DayMetadata.mk (Some date)
             (Some (DayStatistics.mk (Some (StatsAverage.mk n a r))))))
    (Some fs).

End Legacy.

(** The fund maps of the month entries hold ordinary names only. *)
Definition ordinary_funds (b : Legacy.MonthData.t) : Prop :=
  Forall (fun n => Legacy.ordinary_name n = true)
         (map fst (Legacy.MonthData.fundsData b)).

Definition ordinary_months (m : JsObject.t Legacy.MonthData.t) : Prop :=
  forall k b, JsMap.get m k = Some b -> ordinary_funds b.

(** *** Sample inputs of the earlier script *)

Definition legacy_days_sample : list Legacy.DayData.t :=
  [ Legacy.day "1 January 2024"
      [Legacy.Fund.mk "Zed" 10 8 4; Legacy.Fund.mk "7" 20 16 8] 15 12 6;
    Legacy.day "1 February 2024" [Legacy.Fund.mk "Zed" 8 6 2] 8 6 2;
    Legacy.day "2 January 2024" [Legacy.Fund.mk "Zed" 12 10 6] 12 10 6 ].

Definition legacy_january_sample : Legacy.Month.t :=
  Legacy.Month.mk "JANUARY 2024" "Daily Nation and M-PESA APP"
    (Legacy.Triple.mk (Some (27 # 2)) (Some (22 # 2)) (Some (12 # 2)))
    [ Legacy.FundAverage.mk "7"
        (Legacy.Triple.mk (Some 20) (Some 16) (Some 8));
      Legacy.FundAverage.mk "Zed"
        (Legacy.Triple.mk (Some (22 # 2)) (Some (18 # 2)) (Some (10 # 2))) ].

Definition legacy_february_sample : Legacy.Month.t :=
  Legacy.Month.mk "FEBRUARY 2024" "Daily Nation and M-PESA APP"
    (Legacy.Triple.mk (Some 8) (Some 6) (Some 2))
    [ Legacy.FundAverage.mk "Zed"
        (Legacy.Triple.mk (Some 8) (Some 6) (Some 2)) ].

Definition legacy_result_sample : list Legacy.Month.t :=
  [legacy_january_sample; legacy_february_sample].

(* ================================================================== *)
(** * Properties *)

Local Open Scope nat_scope.

(** ** Comparison of rationals *)

Lemma Qltb_lt (x y : Q) : JsNumber.Qltb x y = true <-> (x < y)%Q.
Proof.
  unfold JsNumber.Qltb. rewrite negb_true_iff.
  split; intro H.
  - apply Qnot_le_lt. intro Hle. apply Qle_bool_iff in Hle. congruence.
  - destruct (Qle_bool y x) eqn:E; [|reflexivity].
    apply Qle_bool_iff in E. exfalso. apply (Qlt_not_le _ _ H E).
Qed.

Lemma Qltb_ge (x y : Q) : JsNumber.Qltb x y = false <-> (y <= x)%Q.
Proof.
  unfold JsNumber.Qltb. rewrite negb_false_iff. apply Qle_bool_iff.
Qed.

(** ** Order of occurrence in a list *)

#[local] Hint Constructors precedes : core.


Lemma precedes_map {A B : Type} (h : A -> B) (x y : A) (l : list A) :
  precedes x y l -> precedes (h x) (h y) (map h l).
Proof.
  induction 1; simpl; auto using in_map.
Qed.


Lemma precedes_nth {A : Type} (l : list A) (i j : nat) (x y : A) :
  (i < j)%nat -> nth_error l i = Some x -> nth_error l j = Some y ->
  precedes x y l.
Proof.
  revert i j. induction l as [|a l IH]; intros i j Hij Hi Hj.
  - destruct i; discriminate.
  - destruct j as [|j]; [lia|]. simpl in Hj.
    destruct i as [|i]; simpl in Hi.
    + injection Hi as ->. constructor. eapply nth_error_In; eauto.
    + apply precedes_later. apply (IH i j); auto. lia.
Qed.

(** ** The stable sort *)

Section SortFacts.
Context {A : Type}.
Variable comparefn : A -> A -> JsNumber.jsnum.

Local Abbreviation before := (JsArray.before comparefn).
Local Abbreviation insert := (JsArray.insert comparefn).
Local Abbreviation sort := (JsArray.sort comparefn).

Lemma insert_perm (x : A) (l : list A) : Permutation (insert x l) (x :: l).
Proof.
  induction l as [|y l IH]; simpl; auto.
  destruct (before y x); auto.
  rewrite IH. apply perm_swap.
Qed.

Lemma sort_perm (l : list A) : Permutation (sort l) l.
Proof.
  induction l as [|x l IH]; simpl; auto.
  rewrite insert_perm. auto.
Qed.

Lemma sort_In (l : list A) (x : A) : In x (sort l) <-> In x l.
Proof.
  split; apply Permutation_in; [|symmetry]; apply sort_perm.
Qed.

Lemma sort_length (l : list A) : List.length (sort l) = List.length l.
Proof. apply Permutation_length, sort_perm. Qed.

(** Stability needs nothing of the comparator: an element only ever
    moves behind elements that the comparator puts before it. *)
Lemma insert_precedes (a x y : A) (l : list A) :
  precedes x y (insert a l) ->
  precedes x y l \/ (x = a /\ In y l) \/ (y = a /\ before x a = true).
Proof.
  induction l as [|z l IH]; simpl; intro H.
  - inversion H as [l' Hy | z' l' H']; subst; [destruct Hy | inversion H'].
  - destruct (before z a) eqn:Ez.
    + inversion H as [l' Hy | z' l' H']; subst.
      * apply (Permutation_in _ (insert_perm a l)) in Hy.
        destruct Hy as [<- | Hy]; auto.
      * destruct (IH H') as [Hp | [[-> Hy] | [-> Hb]]]; simpl; auto.
    + inversion H as [l' Hy | z' l' H']; subst; auto.
Qed.

Lemma sort_stable (l : list A) (x y : A) :
  precedes x y (sort l) -> before x y = false -> precedes x y l.
Proof.
  induction l as [|a l IH]; simpl; intros H Hxy.
  - inversion H.
  - destruct (insert_precedes _ _ _ _ H) as [Hp | [[-> Hy] | [-> Hb]]].
    + auto.
    + constructor. apply sort_In. exact Hy.
    + congruence.
Qed.

(** Sortedness needs the comparator to be a consistent ordering of the
    elements at hand, which [P] collects. *)
Section Sorted.
Variable P : A -> Prop.
Variable le : A -> A -> Prop.
Hypothesis le_trans : forall x y z, P x -> P y -> P z ->
  le x y -> le y z -> le x z.
Hypothesis before_le : forall x y, P x -> P y -> before x y = true -> le x y.
Hypothesis not_before_le : forall x y, P x -> P y ->
  before x y = false -> le y x.

Lemma insert_sorted (x : A) (l : list A) :
  P x -> Forall P l -> StronglySorted le l -> StronglySorted le (insert x l).
Proof.
  intros Px Pl Hs. induction Hs as [|y l Hs IH Hy]; simpl.
  - repeat constructor.
  - inversion Pl as [|? ? Py Pl']; subst.
    destruct (before y x) eqn:E.
    + constructor; auto.
      apply Forall_forall. intros z Hz.
      apply (Permutation_in _ (insert_perm x l)) in Hz.
      destruct Hz as [<- | Hz]; auto.
      rewrite Forall_forall in Hy. auto.
    + assert (Hxy : le x y) by auto.
      constructor; [constructor; auto|].
      constructor; auto.
      rewrite Forall_forall in Hy, Pl'. apply Forall_forall.
      intros z Hz. apply (le_trans x y z); auto.
Qed.

Lemma sort_sorted (l : list A) : Forall P l -> StronglySorted le (sort l).
Proof.
  induction l as [|x l IH]; simpl; intro Pl.
  - constructor.
  - inversion Pl as [|? ? Px Pl']; subst.
    apply insert_sorted; auto.
    rewrite Forall_forall in Pl'. apply Forall_forall.
    intros z Hz. apply (proj1 (sort_In l z)) in Hz. auto.
Qed.
End Sorted.
End SortFacts.

Lemma StronglySorted_precedes {A : Type} (le : A -> A -> Prop) (l : list A)
  (x y : A) : StronglySorted le l -> precedes x y l -> le x y.
Proof.
  intros Hs Hp. induction Hp as [l Hy | z l Hp IH].
  - inversion Hs as [|? ? _ Hall]; subst. rewrite Forall_forall in Hall. auto.
  - inversion Hs; subst. auto.
Qed.

(** ** First occurrences *)

Lemma first_occ_In (l : list string) (x : string) :
  In x (first_occ l) <-> In x l.
Proof.
  induction l as [|k l IH]; simpl; [tauto|].
  rewrite filter_In, IH, negb_true_iff, String.eqb_neq.
  destruct (String.eqb_spec k x); [tauto|].
  split; [tauto|]. intros [H | H]; [tauto|].
  right. split; [assumption|congruence].
Qed.

Lemma first_occ_NoDup (l : list string) : NoDup (first_occ l).
Proof.
  induction l as [|k l IH]; simpl; constructor.
  - rewrite filter_In, String.eqb_refl. simpl. intros [_ H]. discriminate.
  - apply NoDup_filter. exact IH.
Qed.

Lemma existsb_eqb_In (l : list string) (k : string) :
  existsb (fun k' => String.eqb k' k) l = true <-> In k l.
Proof.
  rewrite existsb_exists. split.
  - intros [x [Hx E]]. apply String.eqb_eq in E. subst. exact Hx.
  - intro H. exists k. split; [exact H | apply String.eqb_refl].
Qed.

Lemma first_occ_snoc (l : list string) (k : string) :
  first_occ (l ++ [k]) =
  if existsb (fun k' => String.eqb k' k) (first_occ l)
  then first_occ l else first_occ l ++ [k].
Proof.
  induction l as [|a l IH]; simpl; [reflexivity|].
  rewrite IH. destruct (String.eqb_spec a k) as [-> | Hak]; simpl.
  - destruct (existsb _ (first_occ l)); [reflexivity|].
    rewrite filter_app. simpl. rewrite String.eqb_refl. simpl.
    rewrite app_nil_r. reflexivity.
  - assert (E : existsb (fun k' => String.eqb k' k)
                  (filter (fun k' => negb (String.eqb k' a)) (first_occ l))
                = existsb (fun k' => String.eqb k' k) (first_occ l)).
    { apply eq_true_iff_eq. rewrite !existsb_eqb_In, filter_In.
      rewrite negb_true_iff, String.eqb_neq. split; [tauto|].
      intro H. split; [exact H | congruence]. }
    rewrite E. destruct (existsb _ (first_occ l)); [reflexivity|].
    rewrite filter_app. simpl.
    destruct (String.eqb_spec k a); [congruence|]. reflexivity.
Qed.

(** ** Maps that list each key once *)

Section MapFacts.
Context {V : Type}.

Lemma has_map (g : string -> V) (l : list string) (k : string) :
  JsMap.has (map (fun k' => (k', g k')) l) k
  = existsb (fun k' => String.eqb k' k) l.
Proof.
  induction l as [|a l IH]; simpl; [reflexivity|]. rewrite IH. reflexivity.
Qed.

Lemma set_map_fresh (g : string -> V) (l : list string) (k : string) (v : V) :
  ~ In k l ->
  JsMap.set (map (fun k' => (k', g k')) l) k v
  = map (fun k' => (k', g k')) l ++ [(k, v)].
Proof.
  induction l as [|a l IH]; simpl; intro H; [reflexivity|].
  destruct (String.eqb_spec a k) as [-> | Hak]; [tauto|].
  rewrite IH; [reflexivity | tauto].
Qed.


Lemma modify_app_fresh (m : JsMap.t V) (k : string) (v : V) (h : V -> V) :
  ~ In k (map fst m) ->
  JsMap.modify (m ++ [(k, v)]) k h = m ++ [(k, h v)].
Proof.
  induction m as [|[a w] m IH]; simpl; intro H.
  - rewrite String.eqb_refl. reflexivity.
  - destruct (String.eqb_spec a k) as [-> | Hak]; [tauto|].
    rewrite IH; [reflexivity | tauto].
Qed.

Lemma modify_map (g : string -> V) (l : list string) (k : string) (h : V -> V) :
  NoDup l ->
  JsMap.modify (map (fun k' => (k', g k')) l) k h
  = map (fun k' => (k', if String.eqb k' k then h (g k') else g k')) l.
Proof.
  induction 1 as [|a l Ha Hl IH]; simpl; [reflexivity|].
  destruct (String.eqb_spec a k) as [-> | Hak].
  - f_equal. apply map_ext_in. intros b Hb.
    destruct (String.eqb_spec b k) as [-> | _]; [tauto | reflexivity].
  - rewrite IH. reflexivity.
Qed.


End MapFacts.

(** ** Grouping: the map built entry by entry is the grouped input *)

Section KeyFacts.
Context {D : Type}.
Variable key : D -> option string.

Lemma keys_of_snoc (ds : list D) (d : D) :
  keys_of key (ds ++ [d]) =
  match key d with
  | None => keys_of key ds
  | Some k =>
      if existsb (fun k' => String.eqb k' k) (keys_of key ds)
      then keys_of key ds else keys_of key ds ++ [k]
  end.
Proof.
  unfold keys_of. rewrite flat_map_app. simpl. rewrite app_nil_r.
  destruct (key d) as [k|]; simpl.
  - apply first_occ_snoc.
  - rewrite app_nil_r. reflexivity.
Qed.

Lemma select_snoc (k : string) (ds : list D) (d : D) :
  select key k (ds ++ [d]) =
  select key k ds ++ (if key_is k (key d) then [d] else []).
Proof.
  unfold select. rewrite filter_app. simpl.
  destruct (key_is k (key d)); reflexivity.
Qed.

Lemma keys_of_In (ds : list D) (k : string) :
  In k (keys_of key ds) <-> exists d, In d ds /\ key d = Some k.
Proof.
  unfold keys_of. rewrite first_occ_In, in_flat_map. split.
  - intros [d [Hd Hk]]. exists d. split; [exact Hd|].
    destruct (key d) as [k'|]; simpl in Hk; [|tauto].
    destruct Hk as [-> | []]. reflexivity.
  - intros [d [Hd Hk]]. exists d. split; [exact Hd|].
    rewrite Hk. simpl. auto.
Qed.

Lemma select_fresh (ds : list D) (k : string) :
  ~ In k (keys_of key ds) -> select key k ds = [].
Proof.
  intro H. unfold select.
  induction ds as [|d ds IH]; simpl; [reflexivity|].
  destruct (key_is k (key d)) eqn:E.
  - exfalso. apply H. apply keys_of_In. exists d. split; [left; reflexivity|].
    unfold key_is in E. destruct (key d) as [k'|]; [|discriminate].
    apply String.eqb_eq in E. congruence.
  - apply IH. intro Hin. apply H. apply keys_of_In.
    apply keys_of_In in Hin. destruct Hin as [d' [Hd' Hk]].
    exists d'. split; [right; exact Hd' | exact Hk].
Qed.

End KeyFacts.

Section GroupByFacts.
Context {D V : Type}.
Variable key : D -> option string.
Variable f : D -> V -> V.
Variable new : V.


Theorem group_fold (ds : list D) :
  fold_left (upsert key f new) ds JsMap.empty = grouped key f new ds.
Proof.
  induction ds as [|d ds IH] using rev_ind; [reflexivity|].
  rewrite fold_left_app. simpl. rewrite IH. clear IH.
  unfold upsert, grouped. rewrite keys_of_snoc.
  destruct (key d) as [k|] eqn:Ek.
  - rewrite has_map.
    destruct (existsb _ (keys_of key ds)) eqn:Eh; simpl.
    + rewrite modify_map by apply first_occ_NoDup.
      apply map_ext. intro k'. f_equal.
      rewrite select_snoc, fold_left_app, Ek. simpl.
      rewrite (String.eqb_sym k k').
      destruct (String.eqb k' k); reflexivity.
    + assert (Hk : ~ In k (keys_of key ds)).
      { intro Hin. apply existsb_eqb_In in Hin. congruence. }
      rewrite set_map_fresh by exact Hk.
      rewrite modify_app_fresh
        by (rewrite map_map; simpl; rewrite map_id; exact Hk).
      rewrite map_app. simpl. f_equal.
      * apply map_ext_in. intros k' Hk'. f_equal.
        rewrite select_snoc, Ek. simpl.
        destruct (String.eqb_spec k k') as [-> | _]; [tauto|].
        rewrite app_nil_r. reflexivity.
      * rewrite select_snoc, Ek. simpl. rewrite String.eqb_refl.
        rewrite select_fresh by exact Hk. reflexivity.
  - apply map_ext. intro k'. f_equal.
    rewrite select_snoc, Ek. simpl. rewrite app_nil_r. reflexivity.
Qed.

End GroupByFacts.

(** ** One day of [processMonthlyData] as a grouping step *)

Section ObjectFacts.
Context {V : Type}.

Lemma get_set_same (m : JsMap.t V) (k : string) (v : V) :
  JsMap.get (JsMap.set m k v) k = Some v.
Proof.
  induction m as [|[a w] m IH]; simpl.
  - rewrite String.eqb_refl. reflexivity.
  - destruct (String.eqb_spec a k) as [-> | Hak]; simpl.
    + rewrite String.eqb_refl. reflexivity.
    + destruct (String.eqb_spec a k); [congruence | exact IH].
Qed.

Lemma has_get (m : JsMap.t V) (k : string) :
  JsMap.has m k = true -> exists v, JsMap.get m k = Some v.
Proof.
  induction m as [|[a w] m IH]; simpl; [discriminate|].
  destruct (String.eqb a k); simpl; eauto.
Qed.

Lemma get_ensure (m : JsMap.t V) (k : string) (new : V) :
  exists v,
    JsMap.get (if negb (JsMap.has m k) then JsMap.set m k new else m) k
    = Some v.
Proof.
  destruct (JsMap.has m k) eqn:E; simpl.
  - apply has_get. exact E.
  - exists new. apply get_set_same.
Qed.

Lemma get_modify_same (m : JsMap.t V) (k : string) (h : V -> V) :
  JsMap.get (JsMap.modify m k h) k = option_map h (JsMap.get m k).
Proof.
  induction m as [|[a w] m IH]; simpl; [reflexivity|].
  destruct (String.eqb a k) eqn:E; simpl; rewrite E; [reflexivity | exact IH].
Qed.

Lemma modify_modify (m : JsMap.t V) (k : string) (h1 h2 : V -> V) :
  JsMap.modify (JsMap.modify m k h1) k h2
  = JsMap.modify m k (fun v => h2 (h1 v)).
Proof.
  induction m as [|[a w] m IH]; simpl; [reflexivity|].
  destruct (String.eqb a k) eqn:E; simpl; rewrite E; [reflexivity|].
  rewrite IH. reflexivity.
Qed.

Lemma modify_const (m : JsMap.t V) (k : string) (v : V) (h : V -> V) :
  JsMap.get m k = Some v ->
  JsMap.modify m k (fun _ => h v) = JsMap.modify m k h.
Proof.
  induction m as [|[a w] m IH]; simpl; [reflexivity|].
  destruct (String.eqb a k).
  - intro H. injection H as ->. reflexivity.
  - intro H. rewrite IH by exact H. reflexivity.
Qed.

Lemma modify_id (m : JsMap.t V) (k : string) :
  JsMap.modify m k (fun v => v) = m.
Proof.
  induction m as [|[a w] m IH]; simpl; [reflexivity|].
  destruct (String.eqb a k); [reflexivity|]. rewrite IH. reflexivity.
Qed.

Lemma with_object_update (m : JsMap.t V) (k : string) (v : V) (h : V -> V) :
  JsMap.get m k = Some v ->
  with_object k (update h) m = (JsMap.modify m k h, Normal tt).
Proof.
  intro H. unfold with_object, update. rewrite H.
  rewrite (modify_const _ _ _ _ H). reflexivity.
Qed.

Lemma forEach_with_object {A : Type} (g : A -> V -> V) (k : string)
  (arr : list A) (m : JsMap.t V) (v : V) :
  JsMap.get m k = Some v ->
  forEach arr (fun x => with_object k (update (g x))) m
  = (JsMap.modify m k (fun b => fold_left (fun b x => g x b) arr b),
     Normal tt).
Proof.
  revert m v. induction arr as [|x arr IH]; intros m v H; simpl.
  - unfold ret. rewrite modify_id. reflexivity.
  - unfold bind. rewrite (with_object_update _ _ _ _ H).
    erewrite IH by (rewrite get_modify_same, H; reflexivity).
    rewrite modify_modify. reflexivity.
Qed.

End ObjectFacts.

Lemma with_object_addStatistics (m : JsMap.t MonthData.t) (k : string)
  (v : MonthData.t) (stats : option DayStatistics.t) :
  JsMap.get m k = Some v ->
  fst (with_object k (MonthData.addStatistics stats) m)
  = JsMap.modify m k
      (fun b =>
         match stats with
         | Some st =>
             match DayStatistics.average st with
             | Some t =>
                 MonthData.mk (MonthData.fundsData b)
                              (addTriple t (MonthData.statistics b))
             | None => b
             end
         | None => b
         end).
Proof.
  intro H. unfold with_object, MonthData.addStatistics, bind, deref, update.
  rewrite H.
  destruct stats as [st|]; simpl.
  - destruct (DayStatistics.average st) as [t|]; simpl.
    + rewrite <- (modify_const m k v
                    (fun b => MonthData.mk (MonthData.fundsData b)
                                (addTriple t (MonthData.statistics b))) H).
      reflexivity.
    + rewrite (modify_const m k v (fun b => b) H). reflexivity.
  - rewrite (modify_const m k v (fun b => b) H). reflexivity.
Qed.

Lemma bind_deref_Some {S A B : Type} (a : A) (k : A -> Eff S B) (s : S) :
  bind (deref (Some a)) k s = k a s.
Proof. reflexivity. Qed.

Lemma bind_update {S B : Type} (f : S -> S) (k : unit -> Eff S B) (s : S) :
  bind (update f) k s = k tt (f s).
Proof. reflexivity. Qed.

Lemma bind_Normal {S A B : Type} (c : Eff S A) (k : A -> Eff S B) (s s' : S)
  (a : A) : c s = (s', Normal a) -> bind c k s = k a s'.
Proof. intro H. unfold bind. rewrite H. reflexivity. Qed.

Lemma bind_Throw {S A B : Type} (c : Eff S A) (k : A -> Eff S B) (s : S) :
  snd (c s) = Throw -> snd (bind c k s) = Throw.
Proof.
  unfold bind. destruct (c s) as [s' [a|]]; cbn [snd]; intro H;
    [discriminate H | reflexivity].
Qed.

Lemma day_step (d : DayData.t) (m : JsMap.t MonthData.t) :
  fst (day_body d m) = upsert day_key apply_day MonthData.new m d.
Proof.
  unfold day_body, upsert, day_key, day_date, apply_day, day_triple.
  destruct d as [[[[date|] stats]|] [fs|]];
    cbn [DayData.metadata DayData.funds DayMetadata.date
         DayMetadata.statistics option_map];
    try reflexivity.
  - rewrite bind_deref_Some. cbv beta zeta.
    cbn [DayMetadata.date DayMetadata.statistics].
    rewrite bind_deref_Some. cbv beta zeta.
    rewrite bind_update, bind_deref_Some. cbv beta.
    destruct (get_ensure m (monthYear_of date) MonthData.new) as [v Hv].
    rewrite (bind_Normal _ _ _ _ _
               (forEach_with_object (fun f b => MonthData.addFundData f b)
                  _ fs _ v Hv)).
    erewrite with_object_addStatistics
      by (rewrite get_modify_same, Hv; reflexivity).
    rewrite modify_modify. f_equal.
    destruct stats as [st|]; [|reflexivity].
    destruct (DayStatistics.average st); reflexivity.
  - rewrite bind_deref_Some. cbv beta zeta.
    cbn [DayMetadata.date DayMetadata.statistics].
    rewrite bind_deref_Some. cbv beta zeta.
    rewrite bind_update. unfold bind, deref. simpl.
    symmetry. apply modify_id.
Qed.

(** ** The loop and its [catch] block *)

Lemma try_day_metadata (d : DayData.t) (m : JsMap.t MonthData.t) :
  has_metadata d = true ->
  try_catch (day_body d) (day_handler d) m = (fst (day_body d m), Normal tt).
Proof.
  unfold has_metadata, try_catch, day_handler.
  destruct (day_body d m) as [s' [[]|]]; cbn [fst]; [reflexivity|].
  destruct (DayData.metadata d); [reflexivity | discriminate].
Qed.

Lemma try_day_no_metadata (d : DayData.t) (m : JsMap.t MonthData.t) :
  has_metadata d = false ->
  try_catch (day_body d) (day_handler d) m = (m, Throw).
Proof.
  unfold has_metadata, try_catch, day_handler, day_body.
  destruct (DayData.metadata d); [discriminate | reflexivity].
Qed.

Lemma collect_returns (ds : list DayData.t) (m : JsMap.t MonthData.t) :
  forallb has_metadata ds = true ->
  collect ds m
  = (fold_left (fun monthsMap dayData => fst (day_body dayData monthsMap))
               ds m,
     Normal tt).
Proof.
  revert m. induction ds as [|d ds IH]; intros m H; [reflexivity|].
  simpl in H. apply andb_true_iff in H. destruct H as [Hd Hds].
  unfold collect. cbn [forEach fold_left]. unfold bind.
  rewrite (try_day_metadata d m Hd). apply (IH _ Hds).
Qed.

Lemma collect_throws (ds : list DayData.t) (m : JsMap.t MonthData.t) :
  forallb has_metadata ds = false -> snd (collect ds m) = Throw.
Proof.
  revert m. induction ds as [|d ds IH]; intros m H; [discriminate|].
  simpl in H. unfold collect. cbn [forEach].
  destruct (has_metadata d) eqn:Hd.
  - unfold bind. rewrite (try_day_metadata d m Hd). apply (IH _ H).
  - apply bind_Throw. rewrite (try_day_no_metadata d m Hd). reflexivity.
Qed.

(** The store that the loop leaves, thrown or not, is the one that a loop
    over some input runs to its end with. *)
Lemma collect_store (ds : list DayData.t) (m : JsMap.t MonthData.t) :
  exists ds',
    fst (collect ds m)
    = fold_left (fun monthsMap dayData => fst (day_body dayData monthsMap))
                ds' m.
Proof.
  revert m. induction ds as [|d ds IH]; intro m; [exists []; reflexivity|].
  unfold collect. cbn [forEach]. unfold bind.
  destruct (has_metadata d) eqn:Hd.
  - rewrite (try_day_metadata d m Hd).
    destruct (IH (fst (day_body d m))) as [ds' E].
    exists (d :: ds'). exact E.
  - rewrite (try_day_no_metadata d m Hd). exists []. reflexivity.
Qed.

(** [processMonthlyData] returns exactly when every record has
    [metadata], and throws otherwise. *)
Lemma processMonthlyData_returns (ds : list DayData.t)
  (r : list MonthSummary.t) :
  processMonthlyData ds = Normal r
  <-> forallb has_metadata ds = true /\ r = summaries ds.
Proof.
  unfold processMonthlyData. destruct (forallb has_metadata ds) eqn:H.
  - rewrite (collect_returns ds _ H). fold (collected ds).
    fold (summaries ds). split.
    + intro E. injection E as <-. split; reflexivity.
    + intros [_ ->]. reflexivity.
  - pose proof (collect_throws ds JsMap.empty H) as Ht. revert Ht.
    destruct (collect ds JsMap.empty) as [s [a|]]; cbn [snd];
      [discriminate|].
    intros _. split; [discriminate | intros [E _]; discriminate E].
Qed.

Lemma day_date_has_metadata (d : DayData.t) (date : string) :
  day_date d = Some date -> has_metadata d = true.
Proof.
  unfold day_date, has_metadata.
  destruct (DayData.metadata d); [reflexivity | discriminate].
Qed.

Lemma processMonthlyData_summaries (ds : list DayData.t) :
  forallb has_metadata ds = true ->
  processMonthlyData ds = Normal (summaries ds).
Proof.
  intro H. apply processMonthlyData_returns. split; [exact H | reflexivity].
Qed.

Lemma processMonthlyData_throws (ds : list DayData.t) :
  processMonthlyData ds = Throw <-> forallb has_metadata ds = false.
Proof.
  destruct (forallb has_metadata ds) eqn:H.
  - rewrite (processMonthlyData_summaries ds H).
    split; discriminate.
  - split; [reflexivity|]. intros _.
    destruct (processMonthlyData ds) as [r|] eqn:E; [|reflexivity].
    apply processMonthlyData_returns in E. destruct E as [E _].
    congruence.
Qed.

(** ** The month map and its buckets *)

Lemma fold_left_ext_eq {A B : Type} (f g : A -> B -> A) (l : list B) (a : A) :
  (forall a b, f a b = g a b) -> fold_left f l a = fold_left g l a.
Proof.
  intro H. revert a. induction l as [|b l IH]; intro a; simpl; [reflexivity|].
  rewrite H. apply IH.
Qed.

Lemma collected_grouped (ds : list DayData.t) :
  collected ds = map (fun k => (k, bucket ds k)) (keys_of day_key ds).
Proof.
  unfold collected.
  rewrite (fold_left_ext_eq _ (upsert day_key apply_day MonthData.new))
    by (intros; apply day_step).
  apply group_fold.
Qed.

Lemma addFundData_funds (f : Fund.t) (b : MonthData.t) :
  MonthData.fundsData (MonthData.addFundData f b)
  = upsert fund_key addSample FundMetrics.new (MonthData.fundsData b) f.
Proof. reflexivity. Qed.

Lemma addFundData_fold (fs : list Fund.t) (b : MonthData.t) :
  fold_left (fun b f => MonthData.addFundData f b) fs b
  = MonthData.mk
      (fold_left (upsert fund_key addSample FundMetrics.new) fs
                 (MonthData.fundsData b))
      (MonthData.statistics b).
Proof.
  revert b. induction fs as [|f fs IH]; intro b; simpl.
  - destruct b; reflexivity.
  - rewrite IH. reflexivity.
Qed.

Lemma apply_day_funds (d : DayData.t) (b : MonthData.t) :
  MonthData.fundsData (apply_day d b)
  = fold_left (upsert fund_key addSample FundMetrics.new) (day_funds d)
              (MonthData.fundsData b).
Proof.
  unfold apply_day, day_funds. destruct (DayData.funds d) as [fs|];
    [|reflexivity].
  rewrite addFundData_fold. destruct (day_triple d); reflexivity.
Qed.

Lemma apply_day_statistics (d : DayData.t) (b : MonthData.t) :
  MonthData.statistics (apply_day d b)
  = fold_left (fun s t => addTriple t s) (triple_list d)
              (MonthData.statistics b).
Proof.
  unfold apply_day, triple_list, day_triple.
  destruct (DayData.funds d) as [fs|].
  - rewrite addFundData_fold.
    destruct (DayData.metadata d) as [md|]; [|reflexivity].
    destruct (DayMetadata.statistics md) as [st|]; [|reflexivity].
    destruct (DayStatistics.average st); reflexivity.
  - destruct (DayData.metadata d); reflexivity.
Qed.

Lemma fold_apply_day_funds (days : list DayData.t) (b : MonthData.t) :
  MonthData.fundsData (fold_left (fun b d => apply_day d b) days b)
  = fold_left (upsert fund_key addSample FundMetrics.new)
              (flat_map day_funds days) (MonthData.fundsData b).
Proof.
  revert b. induction days as [|d days IH]; intro b; simpl; [reflexivity|].
  rewrite IH, fold_left_app, apply_day_funds. reflexivity.
Qed.

Lemma fold_apply_day_statistics (days : list DayData.t) (b : MonthData.t) :
  MonthData.statistics (fold_left (fun b d => apply_day d b) days b)
  = fold_left (fun s t => addTriple t s) (flat_map triple_list days)
              (MonthData.statistics b).
Proof.
  revert b. induction days as [|d days IH]; intro b; simpl; [reflexivity|].
  rewrite IH, fold_left_app, apply_day_statistics. reflexivity.
Qed.

Lemma fold_addSample (l : list Fund.t) (v : FundMetrics.t) :
  fold_left (fun v f => addSample f v) l v
  = FundMetrics.mk
      (FundMetrics.nominalRates v ++ map Fund.nominalRate l)
      (FundMetrics.afterTaxReturns v ++ map Fund.afterTaxReturn l)
      (FundMetrics.realReturns v ++ map Fund.realReturn l)
      (FundMetrics.count v + List.length l).
Proof.
  revert v. induction l as [|f l IH]; intro v; simpl.
  - rewrite !app_nil_r, Nat.add_0_r. destruct v; reflexivity.
  - rewrite IH. unfold addSample, FundMetrics.addMetrics. simpl.
    rewrite <- !app_assoc, Nat.add_succ_r. reflexivity.
Qed.

Lemma fold_addTriple (l : list StatsAverage.t) (v : FundMetrics.t) :
  fold_left (fun v t => addTriple t v) l v
  = FundMetrics.mk
      (FundMetrics.nominalRates v ++ map StatsAverage.nominalRate l)
      (FundMetrics.afterTaxReturns v ++ map StatsAverage.afterTaxReturn l)
      (FundMetrics.realReturns v ++ map StatsAverage.realReturn l)
      (FundMetrics.count v + List.length l).
Proof.
  revert v. induction l as [|f l IH]; intro v; simpl.
  - rewrite !app_nil_r, Nat.add_0_r. destruct v; reflexivity.
  - rewrite IH. unfold addTriple, FundMetrics.addMetrics. simpl.
    rewrite <- !app_assoc, Nat.add_succ_r. reflexivity.
Qed.

Lemma keys_of_fund_key (l : list Fund.t) :
  keys_of fund_key l = first_occ (map Fund.name l).
Proof.
  unfold keys_of.
  replace (flat_map (fun d => key_list (fund_key d)) l) with (map Fund.name l);
    [reflexivity|].
  induction l as [|f l IH]; [reflexivity|].
  cbn [map flat_map fund_key key_list app]. rewrite IH. reflexivity.
Qed.

(** The portfolio accumulator of a bucket holds the triples of its
    days. *)
Lemma bucket_statistics (ds : list DayData.t) (k : string) :
  MonthData.statistics (bucket ds k) = metrics_of_triples (month_triples ds k).
Proof.
  unfold bucket. rewrite fold_apply_day_statistics, fold_addTriple.
  reflexivity.
Qed.

(** The fund map of a bucket lists its funds in the order of first
    appearance, each with its samples. *)
Lemma bucket_fundsData (ds : list DayData.t) (k : string) :
  MonthData.fundsData (bucket ds k)
  = map (fun n => (n, metrics_of_samples (fund_samples ds k n)))
        (month_fund_names ds k).
Proof.
  unfold bucket. rewrite fold_apply_day_funds. simpl.
  change (@nil (string * FundMetrics.t)) with (@JsMap.empty FundMetrics.t).
  rewrite group_fold. unfold grouped, month_fund_names.
  rewrite keys_of_fund_key. apply map_ext. intro n. f_equal.
  rewrite fold_addSample. reflexivity.
Qed.

Lemma rankedFunds_bucket (ds : list DayData.t) (k : string) :
  rankedFunds (bucket ds k)
  = mapi (fun fund index => FundSummary.mk fund (index + 1))
         (JsArray.sort compareFunds (fund_entries ds k)).
Proof.
  unfold rankedFunds, JsMap.entries, fund_entries.
  rewrite bucket_fundsData, map_map. reflexivity.
Qed.

(** Every summary of the result is the summary of a bucket. *)
Lemma summaries_In (ds : list DayData.t) (m : MonthSummary.t) :
  In m (summaries ds) <->
  exists k, In k (keys_of day_key ds) /\ m = summarize (k, bucket ds k).
Proof.
  unfold summaries, JsMap.entries.
  rewrite sort_In, collected_grouped, map_map, in_map_iff.
  split; intros [k [H1 H2]]; exists k; auto.
Qed.

(** ** Indexed map *)

Lemma nth_error_mapi_from {A B : Type} (f : A -> nat -> B) (l : list A)
  (i j : nat) :
  nth_error (mapi_from i f l) j
  = option_map (fun x => f x (i + j)) (nth_error l j).
Proof.
  revert i j. induction l as [|x l IH]; intros i j; simpl.
  - destruct j; reflexivity.
  - destruct j as [|j]; simpl.
    + rewrite Nat.add_0_r. reflexivity.
    + rewrite IH. rewrite Nat.add_succ_r. reflexivity.
Qed.

Lemma mapi_from_length {A B : Type} (f : A -> nat -> B) (l : list A) (i : nat) :
  List.length (mapi_from i f l) = List.length l.
Proof.
  revert i. induction l as [|x l IH]; intro i; simpl; [reflexivity|].
  rewrite IH. reflexivity.
Qed.

Lemma map_mapi_from {A B C : Type} (f : A -> nat -> B) (h : B -> C)
  (g : A -> C) (l : list A) (i : nat) :
  (forall x n, h (f x n) = g x) -> map h (mapi_from i f l) = map g l.
Proof.
  intro H. revert i. induction l as [|x l IH]; intro i; simpl; [reflexivity|].
  rewrite H, IH. reflexivity.
Qed.

(** ** The ranked fund list *)

Lemma compareFunds_before (a b : FundEntry.t) :
  JsArray.before compareFunds a b = true
  <-> (FundEntry.nominalRate b < FundEntry.nominalRate a)%Q.
Proof.
  unfold JsArray.before, compareFunds. rewrite Qltb_lt. split; intro H; lra.
Qed.

Lemma compareFunds_not_before (a b : FundEntry.t) :
  JsArray.before compareFunds a b = false
  <-> (FundEntry.nominalRate a <= FundEntry.nominalRate b)%Q.
Proof.
  unfold JsArray.before, compareFunds. rewrite Qltb_ge. split; intro H; lra.
Qed.

Lemma sort_compareFunds_sorted (l : list FundEntry.t) :
  StronglySorted rate_desc (JsArray.sort compareFunds l).
Proof.
  apply (sort_sorted compareFunds (fun _ => True) rate_desc).
  - unfold rate_desc. intros x y z _ _ _ H1 H2. lra.
  - unfold rate_desc. intros x y _ _ H. apply compareFunds_before in H. lra.
  - unfold rate_desc. intros x y _ _ H. apply compareFunds_not_before in H.
    exact H.
  - apply Forall_forall. intros; exact I.
Qed.

Section RankedFacts.
Variable entries : list FundEntry.t.

Let sorted := JsArray.sort compareFunds entries.
Let ranked := mapi (fun fund index => FundSummary.mk fund (index + 1)) sorted.

Lemma ranked_nth (i : nat) (f : FundSummary.t) :
  nth_error ranked i = Some f ->
  nth_error sorted i = Some (FundSummary.entry f)
  /\ FundSummary.rank f = i + 1.
Proof.
  unfold ranked, mapi. rewrite nth_error_mapi_from. simpl.
  destruct (nth_error sorted i) as [x|]; simpl; [|discriminate].
  intro H. injection H as <-. simpl. auto.
Qed.

Lemma ranked_length : List.length ranked = List.length entries.
Proof.
  unfold ranked, mapi, sorted. rewrite mapi_from_length. apply sort_length.
Qed.

Lemma ranked_entries : map FundSummary.entry ranked = sorted.
Proof.
  unfold ranked, mapi.
  rewrite (map_mapi_from _ _ (fun x => x)) by reflexivity.
  apply map_id.
Qed.

Lemma ranked_In (f : FundSummary.t) :
  In f ranked ->
  exists i, nth_error ranked i = Some f /\ FundSummary.rank f = i + 1
            /\ i < List.length entries.
Proof.
  intro H. destruct (In_nth_error _ _ H) as [i Hi]. exists i.
  split; [exact Hi|]. split; [apply (ranked_nth i f Hi)|].
  rewrite <- ranked_length. apply nth_error_Some. congruence.
Qed.

Lemma ranked_same_rank (f g : FundSummary.t) :
  In f ranked -> In g ranked -> FundSummary.rank f = FundSummary.rank g ->
  f = g.
Proof.
  intros Hf Hg E.
  destruct (ranked_In f Hf) as [i [Hi [Ri _]]].
  destruct (ranked_In g Hg) as [j [Hj [Rj _]]].
  assert (i = j) by lia. subst j. congruence.
Qed.

Lemma ranked_precedes (f g : FundSummary.t) :
  In f ranked -> In g ranked -> FundSummary.rank f < FundSummary.rank g ->
  precedes (FundSummary.entry f) (FundSummary.entry g) sorted.
Proof.
  intros Hf Hg E.
  destruct (ranked_In f Hf) as [i [Hi [Ri _]]].
  destruct (ranked_In g Hg) as [j [Hj [Rj _]]].
  apply (precedes_nth sorted i j); [lia | |].
  - apply (ranked_nth i f Hi).
  - apply (ranked_nth j g Hj).
Qed.

Lemma ranked_sorted :
  StronglySorted
    (fun f g => (FundSummary.nominalRate g <= FundSummary.nominalRate f)%Q)
    ranked.
Proof.
  assert (H : StronglySorted rate_desc (map FundSummary.entry ranked)).
  { rewrite ranked_entries. apply sort_compareFunds_sorted. }
  induction ranked as [|f l IH]; [constructor|].
  simpl in H. inversion H as [|? ? Hs Hall]; subst.
  constructor; [apply IH; exact Hs|].
  rewrite Forall_forall in Hall. apply Forall_forall. intros g Hg.
  apply (Hall (FundSummary.entry g)). apply in_map. exact Hg.
Qed.

Lemma ranked_strict (f g : FundSummary.t) :
  In f ranked -> In g ranked ->
  (FundSummary.nominalRate g < FundSummary.nominalRate f)%Q ->
  FundSummary.rank f < FundSummary.rank g.
Proof.
  intros Hf Hg Hlt.
  destruct (Nat.lt_trichotomy (FundSummary.rank f) (FundSummary.rank g))
    as [H | [H | H]]; [exact H | |].
  - rewrite (ranked_same_rank f g Hf Hg H) in Hlt.
    exfalso. apply (Qlt_irrefl _ Hlt).
  - pose proof (ranked_precedes g f Hg Hf H) as Hp.
    apply (StronglySorted_precedes rate_desc) in Hp;
      [|apply sort_compareFunds_sorted].
    unfold rate_desc in Hp. unfold FundSummary.nominalRate in Hlt.
    exfalso. apply (Qlt_not_le _ _ Hlt Hp).
Qed.

Lemma ranked_stable (f g : FundSummary.t) :
  In f ranked -> In g ranked ->
  (FundSummary.nominalRate f == FundSummary.nominalRate g)%Q ->
  FundSummary.rank f < FundSummary.rank g ->
  precedes (FundSummary.entry f) (FundSummary.entry g) entries.
Proof.
  intros Hf Hg E Hlt.
  apply (sort_stable compareFunds).
  - apply ranked_precedes; assumption.
  - apply compareFunds_not_before. unfold FundSummary.nominalRate in E.
    rewrite E. apply Qle_refl.
Qed.

Lemma ranked_top_bottom :
  ranked <> [] ->
  exists t b,
    nth_error ranked 0 = Some t
    /\ nth_error ranked (List.length ranked - 1) = Some b
    /\ In t ranked /\ In b ranked
    /\ FundSummary.rank t = 1
    /\ FundSummary.rank b = List.length ranked.
Proof.
  intro Hne.
  assert (Hpos : 0 < List.length ranked).
  { destruct (List.length ranked) eqn:E; [|lia].
    apply length_zero_iff_nil in E. congruence. }
  destruct (nth_error ranked 0) as [t|] eqn:Ht;
    [|apply nth_error_None in Ht; lia].
  destruct (nth_error ranked (List.length ranked - 1)) as [b|] eqn:Hb;
    [|apply nth_error_None in Hb; lia].
  exists t, b.
  pose proof (ranked_nth _ _ Ht) as [_ Rt].
  pose proof (ranked_nth _ _ Hb) as [_ Rb].
  repeat split.
  - eapply nth_error_In; exact Ht.
  - eapply nth_error_In; exact Hb.
  - exact Rt.
  - rewrite Rb. lia.
Qed.

End RankedFacts.

(** ** Summaries of buckets *)

Lemma summarize_funds (k : string) (b : MonthData.t) :
  MonthSummary.funds (summarize (k, b)) = rankedFunds b.
Proof. reflexivity. Qed.

Lemma summarize_month (k : string) (b : MonthData.t) :
  MonthSummary.month (summarize (k, b)) = k.
Proof. reflexivity. Qed.

Lemma summarize_totalFunds (k : string) (b : MonthData.t) :
  MonthSummary.totalFunds (summarize (k, b)) = List.length (rankedFunds b).
Proof. reflexivity. Qed.

Lemma at_index_0 {A : Type} (l : list A) :
  JsArray.at_index l 0 = nth_error l 0.
Proof. reflexivity. Qed.

Lemma at_index_last {A : Type} (l : list A) :
  l <> [] ->
  JsArray.at_index l (Z.of_nat (List.length l) - 1)
  = nth_error l (List.length l - 1).
Proof.
  intro H. unfold JsArray.at_index. destruct l as [|x l]; [congruence|].
  destruct (Z.ltb_spec (Z.of_nat (List.length (x :: l)) - 1) 0) as [H0 | H0].
  - simpl List.length in H0. lia.
  - f_equal. lia.
Qed.

(* ------------------------------------------------------------------ *)
(** ** The statistics functions *)

(** C7: the statistics functions do not fail on an empty sequence; each of
    [average], [median] and [stdDev] returns the number 0 for [[]]. *)
Theorem C7_statistics_of_empty :
  statistics.average [] = 0%Q
  /\ statistics.median [] = 0%Q
  /\ statistics.stdDev [] = 0%Q.
Proof. repeat split. Qed.

(** C3: [stdDev] does not compute the standard deviation about the
    unrounded mean.  The mean it subtracts is [statistics.average arr], which
    is already rounded to two decimals, so for the single sample 0.125 (mean
    rounded to 0.13) it returns 0.01 where the population standard deviation
    is 0, and for the samples 31/256 and 33/256 (mean 0.125, deviation
    1/256) it returns 0.01 where the rounded deviation is 0.00.  The value
    reaches the output: a month whose only day has the portfolio nominal
    rate 0.125 reports the standard deviation 0.01 for it.  The samples are
    binary fractions, exact in binary64, and the results are far enough from
    a rounding boundary for binary64 arithmetic to give the same digits. *)
Theorem C3_stdDev_about_rounded_mean :
  (statistics.average [1 # 8] == 13 # 100)%Q
  /\ (statistics.stdDev [1 # 8] == 1 # 100)%Q
  /\ (stdDev_spec [1 # 8] == 0)%Q
  /\ (statistics.stdDev [31 # 256; 33 # 256] == 1 # 100)%Q
  /\ (stdDev_spec [31 # 256; 33 # 256] == 0)%Q
  /\ (exists r,
        processMonthlyData [day_eighth] = Normal r
        /\ map (fun m =>
                  MetricStats.stdDev
                    (DetailedStats.nominalRate
                       (MonthStatistics.detailed
                          (MonthSummary.statistics m))))
               r
           = [(1 # 100)%Q]).
Proof.
  do 5 (split; [vm_compute; reflexivity|]).
  exists (summaries [day_eighth]). split; vm_compute; reflexivity.
Qed.

(* ------------------------------------------------------------------ *)
(** ** Ranking *)

Lemma processMonthlyData_In (ds : list DayData.t) (r : list MonthSummary.t)
  (m : MonthSummary.t) :
  processMonthlyData ds = Normal r -> In m r -> In m (summaries ds).
Proof.
  intros Hr Hm. apply processMonthlyData_returns in Hr.
  destruct Hr as [_ ->]. exact Hm.
Qed.

(** C4: in every month summary of the result the fund list holds the funds
    of the month, each name once, sorted descending by average nominal rate;
    ranks are position + 1, hence distinct integers from 1 to [totalFunds];
    a strictly higher rate has a strictly smaller rank; and among funds of
    equal rate the one whose name appeared first in the month's records
    ranks first.  With A and C both at rate 5, A seen first, and B at rate
    7, the list is B, A, C. *)
Theorem C4_funds_sorted_and_ranked :
  (forall (ds : list DayData.t) (r : list MonthSummary.t)
          (m : MonthSummary.t),
      processMonthlyData ds = Normal r -> In m r ->
      let fs := MonthSummary.funds m in
      Permutation (map FundSummary.entry fs)
                  (fund_entries ds (MonthSummary.month m))
      /\ NoDup (map FundSummary.name fs)
      /\ StronglySorted
           (fun f g =>
              (FundSummary.nominalRate g <= FundSummary.nominalRate f)%Q)
           fs
      /\ (forall i f, nth_error fs i = Some f -> FundSummary.rank f = i + 1)
      /\ (forall f, In f fs ->
            1 <= FundSummary.rank f <= MonthSummary.totalFunds m)
      /\ (forall f g, In f fs -> In g fs ->
            FundSummary.rank f = FundSummary.rank g -> f = g)
      /\ (forall f g, In f fs -> In g fs ->
            (FundSummary.nominalRate g < FundSummary.nominalRate f)%Q ->
            FundSummary.rank f < FundSummary.rank g)
      /\ (forall f g, In f fs -> In g fs ->
            (FundSummary.nominalRate f == FundSummary.nominalRate g)%Q ->
            FundSummary.rank f < FundSummary.rank g ->
            precedes (FundSummary.name f) (FundSummary.name g)
                     (month_fund_names ds (MonthSummary.month m))))
  /\ (exists r,
        processMonthlyData [day_tie] = Normal r
        /\ map (fun m =>
                  map (fun f => (FundSummary.name f, FundSummary.rank f))
                      (MonthSummary.funds m))
               r
           = [[("B", 1); ("A", 2); ("C", 3)]]).
Proof.
  split;
    [|exists (summaries [day_tie]); split; vm_compute; reflexivity].
  intros ds r m Hret Hm. apply (processMonthlyData_In ds r m Hret) in Hm.
  clear Hret.
  apply summaries_In in Hm. destruct Hm as [k [_ ->]].
  rewrite summarize_funds, summarize_month, summarize_totalFunds.
  rewrite rankedFunds_bucket. cbv zeta.
  assert (Hperm : Permutation
                    (map FundSummary.entry
                       (mapi (fun fund index => FundSummary.mk fund (index + 1))
                          (JsArray.sort compareFunds (fund_entries ds k))))
                    (fund_entries ds k))
    by (rewrite ranked_entries; apply sort_perm).
  split; [exact Hperm|].
  split; [|split; [|split; [|split; [|split; [|split]]]]].
  - apply (Permutation_map FundEntry.name) in Hperm.
    rewrite map_map in Hperm.
    apply (Permutation_NoDup (Permutation_sym Hperm)).
    unfold fund_entries. rewrite map_map. simpl. rewrite map_id.
    apply first_occ_NoDup.
  - apply ranked_sorted.
  - intros i f H. apply (ranked_nth _ _ _ H).
  - intros f H. destruct (ranked_In _ _ H) as [i [_ [Hr Hi]]].
    rewrite ranked_length. lia.
  - apply ranked_same_rank.
  - apply ranked_strict.
  - intros f g Hf Hg E Hlt.
    pose proof (ranked_stable _ f g Hf Hg E Hlt) as Hp.
    apply (precedes_map FundEntry.name) in Hp.
    unfold fund_entries in Hp. rewrite map_map in Hp. simpl in Hp.
    rewrite map_id in Hp. exact Hp.
Qed.

Lemma C4_funds_sorted_and_ranked_witness :
  processMonthlyData [day_A5_B7] = Normal [month_A5_B7]
  /\ (forall f, In f (MonthSummary.funds month_A5_B7) ->
        1 <= FundSummary.rank f <= MonthSummary.totalFunds month_A5_B7).
Proof.
  assert (H : processMonthlyData [day_A5_B7] = Normal [month_A5_B7])
    by (vm_compute; reflexivity).
  split; [exact H|].
  apply (proj1 C4_funds_sorted_and_ranked [day_A5_B7] [month_A5_B7]
           month_A5_B7 H (or_introl eq_refl)).
Defined.

(* ------------------------------------------------------------------ *)
(** ** Top and bottom performer *)

(** C8: in every month summary that has funds, [topPerformer] is the fund
    summary of rank 1 and [bottomPerformer] the one of rank [totalFunds]
    (each the only one of its rank); with exactly one fund they are the same
    entry.  For the funds A (rate 5) and B (rate 7) the top performer is B
    with rank 1 and the bottom performer is A with rank 2. *)
Theorem C8_top_and_bottom_performer :
  (forall (ds : list DayData.t) (r : list MonthSummary.t)
          (m : MonthSummary.t),
      processMonthlyData ds = Normal r -> In m r ->
      MonthSummary.funds m <> [] ->
      exists t b,
        MonthSummary.topPerformer m = Some t
        /\ MonthSummary.bottomPerformer m = Some b
        /\ In t (MonthSummary.funds m) /\ In b (MonthSummary.funds m)
        /\ FundSummary.rank t = 1
        /\ FundSummary.rank b = MonthSummary.totalFunds m
        /\ (forall f, In f (MonthSummary.funds m) ->
              FundSummary.rank f = 1 -> f = t)
        /\ (forall f, In f (MonthSummary.funds m) ->
              FundSummary.rank f = MonthSummary.totalFunds m -> f = b)
        /\ (MonthSummary.totalFunds m = 1 -> t = b))
  /\ (exists t b,
        processMonthlyData [day_A5_B7] = Normal [month_A5_B7]
        /\ MonthSummary.topPerformer month_A5_B7 = Some t
        /\ MonthSummary.bottomPerformer month_A5_B7 = Some b
        /\ FundSummary.name t = "B" /\ FundSummary.rank t = 1
        /\ FundSummary.name b = "A" /\ FundSummary.rank b = 2).
Proof.
  split.
  - intros ds r m Hret Hm Hne. apply (processMonthlyData_In ds r m Hret) in Hm.
  clear Hret.
    apply summaries_In in Hm. destruct Hm as [k [_ ->]].
    unfold MonthSummary.topPerformer, MonthSummary.bottomPerformer.
    rewrite summarize_funds in *. rewrite summarize_totalFunds.
    cbn [summarize MonthSummary.metadata MonthMetadata.summary
         MonthSummaryBlock.topPerformer MonthSummaryBlock.bottomPerformer].
    rewrite at_index_0, (at_index_last _ Hne).
    rewrite rankedFunds_bucket in *.
    destruct (ranked_top_bottom _ Hne)
      as [t [b [Ht [Hb [Int [Inb [Rt Rb]]]]]]].
    exists t, b. repeat split; auto.
    + intros f Hf Hr. apply (ranked_same_rank _ f t Hf Int). lia.
    + intros f Hf Hr. apply (ranked_same_rank _ f b Hf Inb). lia.
    + intro H1. apply (ranked_same_rank _ t b Int Inb). lia.
  - eexists. eexists. vm_compute. repeat split.
Qed.

Lemma C8_top_and_bottom_performer_witness :
  processMonthlyData [day_A5_B7] = Normal [month_A5_B7]
  /\ MonthSummary.funds month_A5_B7 <> []
  /\ exists t b,
       MonthSummary.topPerformer month_A5_B7 = Some t
       /\ MonthSummary.bottomPerformer month_A5_B7 = Some b
       /\ FundSummary.rank t = 1
       /\ FundSummary.rank b = MonthSummary.totalFunds month_A5_B7.
Proof.
  assert (H1 : processMonthlyData [day_A5_B7] = Normal [month_A5_B7])
    by (vm_compute; reflexivity).
  assert (H2 : MonthSummary.funds month_A5_B7 <> [])
    by (vm_compute; discriminate).
  split; [exact H1|]. split; [exact H2|].
  destruct (proj1 C8_top_and_bottom_performer [day_A5_B7] [month_A5_B7]
              month_A5_B7 H1 (or_introl eq_refl) H2)
    as [t [b [Ht [Hb [_ [_ [Rt [Rb _]]]]]]]].
  exists t, b. auto.
Defined.

(** C10: a month of the result whose fund list is empty (its records, of
    which there is at least one, brought no fund) is returned all the same,
    with [totalFunds] 0 and with both performers the empty object; no
    month makes the function fail, which returns whenever every record has
    [metadata]; the record [day_no_funds] alone gives such a month. *)
Theorem C10_month_without_funds :
  (forall (ds : list DayData.t) (r : list MonthSummary.t)
          (m : MonthSummary.t),
      processMonthlyData ds = Normal r -> In m r ->
      MonthSummary.funds m = [] ->
      (exists d, In d ds /\ day_key d = Some (MonthSummary.month m))
      /\ MonthSummary.totalFunds m = 0
      /\ MonthSummary.topPerformer m = None
      /\ MonthSummary.bottomPerformer m = None)
  /\ (forall ds : list DayData.t,
        forallb has_metadata ds = true ->
        exists r, processMonthlyData ds = Normal r)
  /\ processMonthlyData [day_no_funds] = Normal [month_no_funds]
  /\ MonthSummary.funds month_no_funds = []
  /\ MonthSummary.totalFunds month_no_funds = 0
  /\ MonthSummary.topPerformer month_no_funds = None
  /\ MonthSummary.bottomPerformer month_no_funds = None.
Proof.
  split;
    [|split;
      [intros ds H; exists (summaries ds);
       apply processMonthlyData_summaries, H
      |vm_compute; repeat split]].
  intros ds r m Hret Hm He. apply (processMonthlyData_In ds r m Hret) in Hm.
  clear Hret.
  apply summaries_In in Hm. destruct Hm as [k [Hk ->]].
  rewrite summarize_month.
  split; [apply keys_of_In; exact Hk|].
  unfold MonthSummary.topPerformer, MonthSummary.bottomPerformer.
  rewrite summarize_totalFunds. rewrite summarize_funds in He.
  cbn [summarize MonthSummary.metadata MonthMetadata.summary
       MonthSummaryBlock.topPerformer MonthSummaryBlock.bottomPerformer].
  rewrite He. repeat split.
Qed.

Lemma C10_month_without_funds_witness :
  processMonthlyData [day_no_funds] = Normal [month_no_funds]
  /\ MonthSummary.funds month_no_funds = []
  /\ MonthSummary.totalFunds month_no_funds = 0
  /\ MonthSummary.topPerformer month_no_funds = None
  /\ MonthSummary.bottomPerformer month_no_funds = None.
Proof.
  assert (H1 : processMonthlyData [day_no_funds] = Normal [month_no_funds])
    by (vm_compute; reflexivity).
  assert (H2 : MonthSummary.funds month_no_funds = [])
    by (vm_compute; reflexivity).
  split; [exact H1|]. split; [exact H2|].
  apply (proj1 C10_month_without_funds [day_no_funds] [month_no_funds]
           month_no_funds H1 (or_introl eq_refl) H2).
Defined.

(* ------------------------------------------------------------------ *)
(** ** Portfolio statistics *)

(** C9: the portfolio-level averages of a month are the averages of the
    portfolio triples that the month's days brought along, one triple for
    each day whose processing ran to its end; they are not the averages of
    the month's fund samples: for [days_mean_of_means] the portfolio
    average nominal rate is 2.5, the mean of the daily means 1 and 4, while
    the mean of the three fund samples 1, 3, 5 is 3. *)
Theorem C9_portfolio_average_of_daily_averages :
  (forall (ds : list DayData.t) (r : list MonthSummary.t)
          (m : MonthSummary.t),
      processMonthlyData ds = Normal r -> In m r ->
      let ts := month_triples ds (MonthSummary.month m) in
      MonthStatistics.average (MonthSummary.statistics m)
      = Averages.mk
          (statistics.average (map StatsAverage.nominalRate ts))
          (statistics.average (map StatsAverage.afterTaxReturn ts))
          (statistics.average (map StatsAverage.realReturn ts))
          (List.length ts))
  /\ processMonthlyData days_mean_of_means = Normal [month_mean_of_means]
  /\ (Averages.nominalRate
        (MonthStatistics.average (MonthSummary.statistics month_mean_of_means))
      == 5 # 2)%Q
  /\ (statistics.average
        (map Fund.nominalRate
           (month_samples days_mean_of_means "JANUARY 2024"))
      == 3)%Q.
Proof.
  split; [|vm_compute; repeat split].
  intros ds r m Hret Hm. apply (processMonthlyData_In ds r m Hret) in Hm.
  clear Hret.
  apply summaries_In in Hm. destruct Hm as [k [_ ->]].
  rewrite summarize_month. cbv zeta.
  unfold MonthSummary.statistics.
  cbn [summarize MonthSummary.metadata MonthMetadata.statistics
       MonthStatistics.average].
  rewrite bucket_statistics. reflexivity.
Qed.

Lemma C9_portfolio_average_of_daily_averages_witness :
  processMonthlyData days_mean_of_means = Normal [month_mean_of_means]
  /\ Averages.dataPoints
       (MonthStatistics.average (MonthSummary.statistics month_mean_of_means))
     = List.length (month_triples days_mean_of_means "JANUARY 2024").
Proof.
  assert (H1 : processMonthlyData days_mean_of_means
               = Normal [month_mean_of_means])
    by (vm_compute; reflexivity).
  split; [exact H1|].
  rewrite (proj1 C9_portfolio_average_of_daily_averages
             days_mean_of_means [month_mean_of_means] month_mean_of_means
             H1 (or_introl eq_refl)).
  reflexivity.
Defined.

(* ------------------------------------------------------------------ *)
(** ** Records that are skipped *)

Lemma collected_app (ds1 ds2 : list DayData.t) :
  collected (ds1 ++ ds2)
  = fold_left (fun monthsMap dayData => fst (day_body dayData monthsMap))
              ds2 (collected ds1).
Proof. unfold collected. apply fold_left_app. Qed.

Lemma day_step_unreadable (d : DayData.t) (m : JsMap.t MonthData.t) :
  day_date d = None -> fst (day_body d m) = m.
Proof.
  intro H. rewrite day_step. unfold upsert, day_key. rewrite H. reflexivity.
Qed.

Lemma summaries_months (ds : list DayData.t) :
  Permutation (map MonthSummary.month (summaries ds))
              (keys_of day_key ds).
Proof.
  unfold summaries, JsMap.entries.
  rewrite (Permutation_map MonthSummary.month (sort_perm compareMonths _)).
  rewrite collected_grouped, !map_map. simpl. rewrite map_id. reflexivity.
Qed.

Lemma summaries_length (ds : list DayData.t) :
  List.length (summaries ds) = List.length (keys_of day_key ds).
Proof.
  rewrite <- (Permutation_length (summaries_months ds)).
  rewrite length_map. reflexivity.
Qed.

Lemma forallb_has_metadata_skip (ds1 ds2 : list DayData.t) (d : DayData.t) :
  has_metadata d = true ->
  forallb has_metadata (ds1 ++ d :: ds2) = forallb has_metadata (ds1 ++ ds2).
Proof.
  intro H. rewrite !forallb_app. cbn [forallb]. rewrite H. reflexivity.
Qed.

(** Leaving out a record that has [metadata] and that changes nothing in
    the month map leaves the outcome as it is. *)
Lemma processMonthlyData_skip (ds1 ds2 : list DayData.t) (d : DayData.t) :
  has_metadata d = true ->
  summaries (ds1 ++ d :: ds2) = summaries (ds1 ++ ds2) ->
  processMonthlyData (ds1 ++ d :: ds2) = processMonthlyData (ds1 ++ ds2).
Proof.
  intros Hd E.
  pose proof (forallb_has_metadata_skip ds1 ds2 d Hd) as Hm.
  destruct (forallb has_metadata (ds1 ++ ds2)) eqn:H.
  - rewrite (processMonthlyData_summaries _ H).
    rewrite (processMonthlyData_summaries _ Hm), E. reflexivity.
  - rewrite (proj2 (processMonthlyData_throws _) H).
    apply processMonthlyData_throws. exact Hm.
Qed.

(** C1, as the code has it: a record that has [metadata] but no [date] in
    it is skipped entirely: the [TypeError] is caught for that record, and
    the outcome is that of the input without the record.  A date that is
    present, however it is written, is not refused: whenever the function
    returns, the bucket of the key made from that date is in the result,
    and the empty date makes the key [UNDEFINED UNDEFINED]. *)
Theorem C1_unreadable_date_is_skipped :
  (forall (ds1 ds2 : list DayData.t) (bad : DayData.t) (md : DayMetadata.t),
      DayData.metadata bad = Some md -> DayMetadata.date md = None ->
      processMonthlyData (ds1 ++ bad :: ds2)
      = processMonthlyData (ds1 ++ ds2))
  /\ (forall (ds : list DayData.t) (r : list MonthSummary.t)
             (d : DayData.t) (date : string),
        processMonthlyData ds = Normal r ->
        In d ds -> day_date d = Some date ->
        In (monthYear_of date) (map MonthSummary.month r))
  /\ monthYear_of EmptyString = "UNDEFINED UNDEFINED".
Proof.
  split; [|split; [|reflexivity]].
  - intros ds1 ds2 bad md Hmd Hdate.
    assert (H : day_date bad = None)
      by (unfold day_date; rewrite Hmd; exact Hdate).
    apply processMonthlyData_skip;
      [unfold has_metadata; rewrite Hmd; reflexivity|].
    unfold summaries. do 2 f_equal.
    rewrite !collected_app. simpl.
    rewrite (day_step_unreadable bad _ H). reflexivity.
  - intros ds r d date Hret Hd Hdate.
    apply processMonthlyData_returns in Hret. destruct Hret as [_ ->].
    apply (Permutation_in _ (Permutation_sym (summaries_months ds))).
    apply keys_of_In. exists d. split; [exact Hd|].
    unfold day_key. rewrite Hdate. reflexivity.
Qed.

Lemma C1_unreadable_date_is_skipped_witness :
  has_metadata day_no_date = true
  /\ day_date day_no_date = None
  /\ processMonthlyData ([day_january] ++ day_no_date :: [day_A5_B7])
     = processMonthlyData ([day_january] ++ [day_A5_B7]).
Proof.
  split; [reflexivity|]. split; [reflexivity|].
  apply (proj1 C1_unreadable_date_is_skipped [day_january] [day_A5_B7]
           day_no_date _ eq_refl eq_refl).
Defined.

(** The record with the empty date is not excluded: it makes a bucket of its own
    and its fund is in it, so the result is not that of the input without
    the record. *)
Lemma C1_empty_date_counterexample :
  day_date day_empty_date = Some EmptyString
  /\ processMonthlyData [day_january; day_empty_date]
     <> processMonthlyData [day_january]
  /\ (exists r,
        processMonthlyData [day_january; day_empty_date] = Normal r
        /\ map MonthSummary.month r
           = ["JANUARY 2024"; "UNDEFINED UNDEFINED"])
  /\ (exists r,
        processMonthlyData [day_empty_date] = Normal r
        /\ map (fun m => map FundSummary.name (MonthSummary.funds m)) r
           = [["X"]]).
Proof.
  split; [reflexivity|]. split; [|split].
  - intro H. rewrite !processMonthlyData_summaries in H by reflexivity.
    injection H as H.
    apply (f_equal (@List.length MonthSummary.t)) in H.
    vm_compute in H. discriminate.
  - exists (summaries [day_january; day_empty_date]).
    split; vm_compute; reflexivity.
  - exists (summaries [day_empty_date]). split; vm_compute; reflexivity.
Qed.

(* ------------------------------------------------------------------ *)
(** ** Errors of the summary step *)


Lemma indexOf_absent (l : list string) (x : string) :
  ~ In x l -> JsArray.indexOf l x = (-1)%Z.
Proof.
  induction l as [|y l IH]; simpl; intro H; [reflexivity|].
  destruct (String.eqb_spec y x) as [-> | _]; [tauto|].
  rewrite IH by tauto. reflexivity.
Qed.







(* ------------------------------------------------------------------ *)
(** ** Strings: tokens, upper case, numerals *)

Lemma upper_char_space (c : ascii) :
  Ascii.eqb (JsString.upper_char c) " " = Ascii.eqb c " ".
Proof.
  destruct c as [b0 b1 b2 b3 b4 b5 b6 b7].
  destruct b0, b1, b2, b3, b4, b5, b6, b7; reflexivity.
Qed.

Lemma upper_char_digit (c : ascii) :
  JsString.is_digit c = true -> JsString.upper_char c = c.
Proof.
  destruct c as [b0 b1 b2 b3 b4 b5 b6 b7].
  destruct b0, b1, b2, b3, b4, b5, b6, b7;
    intro H; try reflexivity; vm_compute in H; discriminate.
Qed.

Lemma digit_not_space (c : ascii) :
  JsString.is_digit c = true -> Ascii.eqb c " " = false.
Proof.
  destruct c as [b0 b1 b2 b3 b4 b5 b6 b7].
  destruct b0, b1, b2, b3, b4, b5, b6, b7;
    intro H; try reflexivity; vm_compute in H; discriminate.
Qed.

Lemma toUpperCase_app (a b : string) :
  JsString.toUpperCase (a ++ b)
  = (JsString.toUpperCase a ++ JsString.toUpperCase b)%string.
Proof.
  induction a as [|c a IH]; simpl; [reflexivity|]. rewrite IH. reflexivity.
Qed.

Lemma toUpperCase_has_space (s : string) :
  has_space (JsString.toUpperCase s) = has_space s.
Proof.
  induction s as [|c s IH]; simpl; [reflexivity|].
  rewrite upper_char_space, IH. reflexivity.
Qed.

Lemma toUpperCase_digits (s : string) :
  JsString.all_digits s = true -> JsString.toUpperCase s = s.
Proof.
  induction s as [|c s IH]; simpl; [reflexivity|].
  intro H. apply andb_true_iff in H. destruct H as [Hc Hs].
  rewrite (upper_char_digit c Hc), (IH Hs). reflexivity.
Qed.

Lemma digits_no_space (s : string) :
  JsString.all_digits s = true -> has_space s = false.
Proof.
  induction s as [|c s IH]; simpl; [reflexivity|].
  intro H. apply andb_true_iff in H. destruct H as [Hc Hs].
  rewrite (digit_not_space c Hc), (IH Hs). reflexivity.
Qed.


Lemma split_no_space (s : string) :
  has_space s = false -> JsString.split " " s = [s].
Proof.
  induction s as [|c s IH]; simpl; [reflexivity|].
  intro H. apply orb_false_iff in H. destruct H as [Hc Hs].
  rewrite Hc, (IH Hs). reflexivity.
Qed.

Lemma split_token (a r : string) :
  has_space a = false ->
  JsString.split " " (a ++ String " " r)%string = a :: JsString.split " " r.
Proof.
  induction a as [|c a IH]; simpl; [reflexivity|].
  intro H. apply orb_false_iff in H. destruct H as [Hc Ha].
  rewrite Hc, (IH Ha). reflexivity.
Qed.

Lemma split_tokens_no_space (s : string) :
  Forall (fun t => has_space t = false) (JsString.split " " s).
Proof.
  induction s as [|c s IH]; simpl.
  - repeat constructor.
  - destruct (Ascii.eqb c " ") eqn:Ec.
    + constructor; [reflexivity | exact IH].
    + destruct (JsString.split " " s) as [|t ts].
      * repeat constructor. simpl. rewrite Ec. reflexivity.
      * inversion IH; subst. constructor; [|assumption].
        simpl. rewrite Ec. assumption.
Qed.

Lemma split_key (mo y : string) :
  has_space mo = false -> has_space y = false ->
  JsString.split " " (mo ++ " " ++ y)%string = [mo; y].
Proof.
  intros Hm Hy. simpl. rewrite (split_token mo y Hm), (split_no_space y Hy).
  reflexivity.
Qed.

(** *** Decimal numerals *)

Lemma digit_range (c : ascii) :
  JsString.is_digit c = true -> (0 <= digit c <= 9)%Z.
Proof.
  unfold JsString.is_digit, digit. intro H.
  apply andb_true_iff in H. destruct H as [H1 H2].
  apply Nat.leb_le in H1, H2. lia.
Qed.

Lemma digit_inj (c1 c2 : ascii) : digit c1 = digit c2 -> c1 = c2.
Proof.
  unfold digit. intro H.
  assert (E : nat_of_ascii c1 = nat_of_ascii c2) by lia.
  rewrite <- (ascii_nat_embedding c1), <- (ascii_nat_embedding c2), E.
  reflexivity.
Qed.

Lemma digit_zero (c : ascii) : digit c = 0%Z -> c = "0"%char.
Proof. intro H. apply digit_inj. rewrite H. reflexivity. Qed.

Lemma slen_cons (c : ascii) (s : string) : slen (String c s) = (slen s + 1)%Z.
Proof. unfold slen. simpl String.length. lia. Qed.

Lemma slen_nonneg (s : string) : (0 <= slen s)%Z.
Proof. unfold slen. lia. Qed.

Lemma digits_value_acc (s : string) (acc : Z) :
  JsString.digits_value acc s
  = (acc * 10 ^ slen s + JsString.digits_value 0 s)%Z.
Proof.
  revert acc. induction s as [|c s IH]; intro acc.
  - simpl. unfold slen. simpl. lia.
  - cbn [JsString.digits_value]. fold (digit c).
    rewrite (IH (10 * acc + digit c)%Z), (IH (10 * 0 + digit c)%Z).
    rewrite slen_cons, Z.pow_add_r by (try apply slen_nonneg; lia).
    lia.
Qed.

Lemma digits_value_cons (c : ascii) (s : string) :
  JsString.digits_value 0 (String c s)
  = (digit c * 10 ^ slen s + JsString.digits_value 0 s)%Z.
Proof.
  cbn [JsString.digits_value]. fold (digit c).
  rewrite digits_value_acc. lia.
Qed.

Lemma pow10_pos (n : Z) : (0 <= n -> 0 < 10 ^ n)%Z.
Proof. intro H. apply Z.pow_pos_nonneg; lia. Qed.

Lemma digits_value_bound (s : string) :
  JsString.all_digits s = true ->
  (0 <= JsString.digits_value 0 s < 10 ^ slen s)%Z.
Proof.
  induction s as [|c s IH]; intro H.
  - simpl. unfold slen. simpl. lia.
  - simpl in H. apply andb_true_iff in H. destruct H as [Hc Hs].
    specialize (IH Hs). pose proof (digit_range c Hc) as Hd.
    pose proof (pow10_pos (slen s) (slen_nonneg s)) as Hp.
    rewrite digits_value_cons, slen_cons,
      Z.pow_add_r by (try apply slen_nonneg; lia).
    nia.
Qed.

Lemma digits_value_inj_same_length (s1 s2 : string) :
  String.length s1 = String.length s2 ->
  JsString.all_digits s1 = true -> JsString.all_digits s2 = true ->
  JsString.digits_value 0 s1 = JsString.digits_value 0 s2 -> s1 = s2.
Proof.
  revert s2. induction s1 as [|c1 s1 IH]; intros [|c2 s2] Hl H1 H2 Hv;
    try discriminate; [reflexivity|].
  simpl in Hl. injection Hl as Hl.
  simpl in H1, H2. apply andb_true_iff in H1, H2.
  destruct H1 as [Hc1 Hs1], H2 as [Hc2 Hs2].
  rewrite !digits_value_cons in Hv.
  assert (El : slen s1 = slen s2) by (unfold slen; congruence).
  rewrite El in Hv.
  pose proof (digits_value_bound s1 Hs1) as B1.
  pose proof (digits_value_bound s2 Hs2) as B2.
  rewrite El in B1.
  pose proof (digit_range c1 Hc1). pose proof (digit_range c2 Hc2).
  assert (Ed : digit c1 = digit c2) by nia.
  rewrite Ed in Hv.
  rewrite (digit_inj c1 c2 Ed). f_equal. apply IH; auto. lia.
Qed.

Lemma canonical_year_digits (y : string) :
  canonical_year y = true -> JsString.all_digits y = true.
Proof.
  destruct y as [|c r]; [discriminate|]. unfold canonical_year.
  intro H. apply andb_true_iff in H. tauto.
Qed.

(** A numeral other than ["0"] is at least 10 to the number of digits
    after its first. *)
Lemma canonical_year_lower (c : ascii) (r : string) :
  canonical_year (String c r) = true ->
  (r = EmptyString /\ c = "0"%char)
  \/ (10 ^ slen r <= JsString.digits_value 0 (String c r))%Z.
Proof.
  unfold canonical_year. intro H. apply andb_true_iff in H.
  destruct H as [Hd Hz]. apply orb_true_iff in Hz.
  destruct (Ascii.eqb_spec c "0") as [-> | Hc].
  - destruct Hz as [Hz | Hz]; [discriminate|].
    apply String.eqb_eq in Hz. auto.
  - right. simpl in Hd. apply andb_true_iff in Hd. destruct Hd as [Hc' Hr].
    pose proof (digit_range c Hc') as Hrange.
    assert (digit c <> 0%Z) by (intro E; apply Hc, digit_zero, E).
    pose proof (digits_value_bound r Hr).
    pose proof (pow10_pos (slen r) (slen_nonneg r)).
    rewrite digits_value_cons. nia.
Qed.

Lemma canonical_year_inj (y1 y2 : string) :
  canonical_year y1 = true -> canonical_year y2 = true ->
  JsString.digits_value 0 y1 = JsString.digits_value 0 y2 -> y1 = y2.
Proof.
  intros H1 H2 Hv.
  pose proof (canonical_year_digits y1 H1) as D1.
  pose proof (canonical_year_digits y2 H2) as D2.
  pose proof (digits_value_bound y1 D1) as B1.
  pose proof (digits_value_bound y2 D2) as B2.
  destruct y1 as [|c1 r1]; [discriminate|].
  destruct y2 as [|c2 r2]; [discriminate|].
  rewrite slen_cons in B1, B2.
  pose proof (pow10_pos (slen r1) (slen_nonneg r1)) as P1.
  pose proof (pow10_pos (slen r2) (slen_nonneg r2)) as P2.
  destruct (canonical_year_lower c1 r1 H1) as [[-> ->] | L1];
    destruct (canonical_year_lower c2 r2 H2) as [[-> ->] | L2].
  - reflexivity.
  - exfalso. rewrite <- Hv in L2. simpl in L2. lia.
  - exfalso. rewrite Hv in L1. simpl in L1. lia.
  - apply digits_value_inj_same_length; auto.
    simpl. f_equal.
    assert (E : slen r1 = slen r2).
    { destruct (Z.lt_trichotomy (slen r1) (slen r2)) as [Hlt | [E | Hgt]];
        [exfalso | exact E | exfalso].
      - assert (10 ^ (slen r1 + 1) <= 10 ^ slen r2)%Z
          by (apply Z.pow_le_mono_r; lia).
        lia.
      - assert (10 ^ (slen r2 + 1) <= 10 ^ slen r1)%Z
          by (apply Z.pow_le_mono_r; lia).
        lia. }
    unfold slen in E. lia.
Qed.

(* ------------------------------------------------------------------ *)
(** ** Month keys *)

Lemma parseable_date_key (date : string) :
  parseable_date date = true ->
  exists mo y,
    has_space mo = false /\ canonical_year y = true
    /\ monthYear_of date = (JsString.toUpperCase mo ++ " " ++ y)%string
    /\ MonthKey date = Some (JsString.toUpperCase mo, y).
Proof.
  unfold parseable_date, monthYear_of, MonthKey.
  pose proof (split_tokens_no_space date) as Hns.
  destruct (JsString.split " " date) as [|d [|mo [|y rest]]]; try discriminate.
  intro Hy. exists mo, y.
  inversion Hns as [|? ? _ Hns']; subst.
  inversion Hns' as [|? ? Hmo _]; subst.
  repeat split; auto.
  cbn [nth_error JsString.template].
  rewrite toUpperCase_app. f_equal.
  change (" " ++ y)%string with (String " " y).
  cbn [JsString.toUpperCase]. f_equal.
  apply toUpperCase_digits, canonical_year_digits, Hy.
Qed.

Lemma orderable_date_parseable (date : string) :
  orderable_date date = true -> parseable_date date = true.
Proof.
  unfold orderable_date, parseable_date.
  destruct (JsString.split " " date) as [|d [|mo [|y rest]]];
    try discriminate.
  intro H. apply andb_true_iff in H. apply H.
Qed.

Lemma orderable_date_wf_key (date : string) :
  orderable_date date = true -> wf_key (monthYear_of date).
Proof.
  intro H. pose proof (orderable_date_parseable date H) as Hp.
  destruct (parseable_date_key date Hp) as [mo [y [Hm [Hy [E Hk]]]]].
  exists (JsString.toUpperCase mo), y.
  rewrite toUpperCase_has_space. repeat split; auto.
  unfold orderable_date in H. unfold MonthKey in Hk.
  destruct (JsString.split " " date) as [|d [|mo' [|y' rest]]];
    try discriminate.
  injection Hk as _ ->. apply andb_true_iff in H. apply H.
Qed.

Lemma wf_key_split (mo y : string) :
  has_space mo = false -> canonical_year y = true ->
  JsString.split " " (mo ++ " " ++ y)%string = [mo; y].
Proof.
  intros Hm Hy. apply split_key; [exact Hm|].
  apply digits_no_space, canonical_year_digits, Hy.
Qed.



(* ------------------------------------------------------------------ *)
(** ** Chronological order *)

Lemma Qltb_inject_Z (z : Z) : JsNumber.Qltb (inject_Z z) 0 = (z <? 0)%Z.
Proof.
  apply eq_true_iff_eq. rewrite Qltb_lt, Z.ltb_lt.
  unfold Qlt, inject_Z. simpl. lia.
Qed.

(** Integers of at most 53 bits are held exactly. *)
Lemma round_exact (n : Z) :
  (0 <= n <= 2 ^ 53)%Z -> Binary64.round n = n.
Proof.
  intro H. unfold Binary64.round.
  destruct (Z.eq_dec n (2 ^ 53)) as [-> | Hne]; [vm_compute; reflexivity|].
  assert (Hlog : (Z.log2 n - 52 <=? 0)%Z = true).
  { apply Z.leb_le.
    destruct (Z.eq_dec n 0) as [-> | Hn0]; [vm_compute; discriminate|].
    assert (Z.log2 n < 53)%Z by (apply Z.log2_lt_pow2; lia). lia. }
  cbv zeta. rewrite Hlog. reflexivity.
Qed.

Lemma round_signed_exact (z : Z) :
  (- 2 ^ 53 <= z <= 2 ^ 53)%Z -> Binary64.round_signed z = z.
Proof.
  intro H. unfold Binary64.round_signed.
  destruct (z <? 0)%Z eqn:E.
  - apply Z.ltb_lt in E. rewrite round_exact by lia. lia.
  - apply Z.ltb_ge in E. apply round_exact. lia.
Qed.

Lemma exact_year_bound (y : string) :
  JsString.all_digits y = true -> exact_year y = true ->
  (0 <= JsString.digits_value 0 y <= 2 ^ 53)%Z.
Proof.
  intros Hd He. unfold exact_year in He. apply Z.leb_le in He.
  pose proof (digits_value_bound y Hd). lia.
Qed.

Lemma toNumber_digits (y : string) :
  JsString.all_digits y = true -> exact_year y = true ->
  JsString.toNumber y = Binary64.Finite (JsString.digits_value 0 y).
Proof.
  intros Hd He. unfold JsString.toNumber. rewrite Hd. cbv zeta.
  pose proof (exact_year_bound y Hd He) as Hb.
  rewrite (round_exact _ Hb).
  assert (Hlt : (JsString.digits_value 0 y <? Binary64.overflow)%Z = true).
  { apply Z.ltb_lt. apply Z.le_lt_trans with (2 ^ 53)%Z; [apply Hb|].
    vm_compute. reflexivity. }
  rewrite Hlt. reflexivity.
Qed.

Section WfKeys.
Variables ma ya mb yb : string.
Hypothesis Hma : has_space ma = false.
Hypothesis Hmb : has_space mb = false.
Hypothesis Hya : canonical_year ya = true.
Hypothesis Hyb : canonical_year yb = true.
Hypothesis Hea : exact_year ya = true.
Hypothesis Heb : exact_year yb = true.

Let a : string := (ma ++ " " ++ ya)%string.
Let b : string := (mb ++ " " ++ yb)%string.

Lemma wf_key_year : key_year a = JsString.digits_value 0 ya.
Proof.
  unfold key_year, a. rewrite (wf_key_split ma ya Hma Hya). reflexivity.
Qed.

Lemma wf_key_index : key_index a = JsArray.indexOf months ma.
Proof.
  unfold key_index, a. rewrite (wf_key_split ma ya Hma Hya). reflexivity.
Qed.

Lemma wf_key_before :
  JsArray.before compareMonthKeys a b
  = if negb (String.eqb ya yb)
    then (JsString.digits_value 0 ya - JsString.digits_value 0 yb <? 0)%Z
    else (JsArray.indexOf months ma - JsArray.indexOf months mb <? 0)%Z.
Proof.
  unfold JsArray.before, compareMonthKeys, a, b.
  rewrite (wf_key_split ma ya Hma Hya), (wf_key_split mb yb Hmb Hyb).
  cbn [nth_error yearNumber option_string_eqb monthIndex].
  pose proof (canonical_year_digits ya Hya) as Hda.
  pose proof (canonical_year_digits yb Hyb) as Hdb.
  rewrite (toNumber_digits ya Hda Hea), (toNumber_digits yb Hdb Heb).
  cbn [subtract].
  pose proof (exact_year_bound ya Hda Hea).
  pose proof (exact_year_bound yb Hdb Heb).
  rewrite round_signed_exact by lia.
  destruct (negb (String.eqb ya yb)); apply Qltb_inject_Z.
Qed.

End WfKeys.

Lemma wf_key_before_le (a b : string) :
  wf_key a -> wf_key b ->
  JsArray.before compareMonthKeys a b = true -> chron_le a b.
Proof.
  intros [ma [ya [-> [Hma [Hya Hea]]]]] [mb [yb [-> [Hmb [Hyb Heb]]]]].
  rewrite (wf_key_before ma ya mb yb Hma Hmb Hya Hyb Hea Heb).
  unfold chron_le.
  rewrite (wf_key_year ma ya Hma Hya), (wf_key_year mb yb Hmb Hyb).
  rewrite (wf_key_index ma ya Hma Hya), (wf_key_index mb yb Hmb Hyb).
  destruct (String.eqb_spec ya yb) as [-> | Hne]; cbn [negb]; intro H;
    apply Z.ltb_lt in H; lia.
Qed.

Lemma wf_key_not_before_le (a b : string) :
  wf_key a -> wf_key b ->
  JsArray.before compareMonthKeys a b = false -> chron_le b a.
Proof.
  intros [ma [ya [-> [Hma [Hya Hea]]]]] [mb [yb [-> [Hmb [Hyb Heb]]]]].
  rewrite (wf_key_before ma ya mb yb Hma Hmb Hya Hyb Hea Heb).
  unfold chron_le.
  rewrite (wf_key_year ma ya Hma Hya), (wf_key_year mb yb Hmb Hyb).
  rewrite (wf_key_index ma ya Hma Hya), (wf_key_index mb yb Hmb Hyb).
  destruct (String.eqb_spec ya yb) as [-> | Hne]; cbn [negb]; intro H;
    apply Z.ltb_ge in H.
  - right. lia.
  - left.
    assert (JsString.digits_value 0 ya <> JsString.digits_value 0 yb)
      by (intro E; apply Hne, canonical_year_inj; assumption).
    lia.
Qed.

Lemma chron_le_trans (a b c : string) :
  chron_le a b -> chron_le b c -> chron_le a c.
Proof. unfold chron_le. lia. Qed.

Lemma summaries_sorted (ds : list DayData.t) :
  (forall d date, In d ds -> day_date d = Some date ->
                  orderable_date date = true) ->
  StronglySorted
    (fun x y => chron_le (MonthSummary.month x) (MonthSummary.month y))
    (summaries ds).
Proof.
  intro Hds. unfold summaries.
  apply (sort_sorted compareMonths
           (fun x => wf_key (MonthSummary.month x))
           (fun x y => chron_le (MonthSummary.month x) (MonthSummary.month y))).
  - intros x y z _ _ _. apply chron_le_trans.
  - intros x y Hx Hy. apply wf_key_before_le; assumption.
  - intros x y Hx Hy. apply wf_key_not_before_le; assumption.
  - unfold JsMap.entries. rewrite collected_grouped, map_map.
    apply Forall_forall. intros x Hx. apply in_map_iff in Hx.
    destruct Hx as [k [<- Hk]]. rewrite summarize_month.
    apply keys_of_In in Hk. destruct Hk as [d [Hd Hkey]].
    unfold day_key in Hkey.
    destruct (day_date d) as [date|] eqn:Ed; [|discriminate].
    simpl in Hkey. injection Hkey as <-.
    apply orderable_date_wf_key. apply (Hds d date Hd Ed).
Qed.

(** C6, as the code has it: when every date of the input that can be read
    has three tokens and for its year a numeral without leading zero of at
    most 2^53, the month summaries that are returned stand in ascending
    order of the pair (year as an integer, calendar index of the month
    name, January being 0 and a name outside the table -1), one summary
    for each month key of the input; the months March 2023, January 2024,
    December 2023 come out as March 2023, December 2023, January 2024. *)
Theorem C6_months_in_chronological_order :
  (forall (ds : list DayData.t) (r : list MonthSummary.t),
      (forall d date, In d ds -> day_date d = Some date ->
                      orderable_date date = true) ->
      processMonthlyData ds = Normal r ->
      StronglySorted
        (fun x y => chron_le (MonthSummary.month x) (MonthSummary.month y))
        r
      /\ Permutation (map MonthSummary.month r) (keys_of day_key ds))
  /\ key_index "JANUARY 2024" = 0%Z
  /\ key_index "DECEMBER 2023" = 11%Z
  /\ key_year "DECEMBER 2023" = 2023%Z
  /\ (exists r,
        processMonthlyData days_three_months = Normal r
        /\ map MonthSummary.month r
           = ["MARCH 2023"; "DECEMBER 2023"; "JANUARY 2024"]).
Proof.
  split;
    [|split; [reflexivity|split; [reflexivity|split; [reflexivity|]]]].
  - intros ds r Hds Hret.
    apply processMonthlyData_returns in Hret. destruct Hret as [_ ->].
    split; [apply summaries_sorted, Hds | apply summaries_months].
  - exists (summaries days_three_months). split; vm_compute; reflexivity.
Qed.

Lemma C6_months_in_chronological_order_witness :
  (forall d date, In d days_three_months -> day_date d = Some date ->
                  orderable_date date = true)
  /\ processMonthlyData days_three_months
     = Normal (summaries days_three_months)
  /\ StronglySorted
       (fun x y => chron_le (MonthSummary.month x) (MonthSummary.month y))
       (summaries days_three_months).
Proof.
  assert (H : forall d date, In d days_three_months ->
                day_date d = Some date -> orderable_date date = true).
  { intros d date [<- | [<- | [<- | []]]] E; injection E as <-; reflexivity. }
  assert (Hret : processMonthlyData days_three_months
                 = Normal (summaries days_three_months))
    by (apply processMonthlyData_summaries; reflexivity).
  split; [exact H|]. split; [exact Hret|].
  apply (proj1 C6_months_in_chronological_order days_three_months _ H Hret).
Defined.

(** The comparator compares the year tokens as texts before it subtracts
    them as numbers: [02024] and [2024] are different texts and the same
    number, the difference is 0, and March stays in front of January of
    the same year. *)
Lemma C6_leading_zero_counterexample :
  (exists r,
      processMonthlyData days_leading_zero = Normal r
      /\ map MonthSummary.month r = ["MARCH 02024"; "JANUARY 2024"])
  /\ compareMonthKeys "MARCH 02024" "JANUARY 2024" = Some (inject_Z 0)
  /\ compareMonthKeys "JANUARY 2024" "MARCH 02024" = Some (inject_Z 0)
  /\ key_year "MARCH 02024" = key_year "JANUARY 2024"
  /\ (key_index "JANUARY 2024" < key_index "MARCH 02024")%Z
  /\ ~ chron_le "MARCH 02024" "JANUARY 2024".
Proof.
  split; [exists (summaries days_leading_zero); split;
          vm_compute; reflexivity|].
  split; [vm_compute; reflexivity|]. split; [vm_compute; reflexivity|].
  split; [reflexivity|]. split; [reflexivity|].
  unfold chron_le.
  change (key_year "MARCH 02024") with 2024%Z.
  change (key_year "JANUARY 2024") with 2024%Z.
  change (key_index "MARCH 02024") with 2%Z.
  change (key_index "JANUARY 2024") with 0%Z.
  lia.
Qed.

(* ================================================================== *)
(** * Further properties of the program *)

(** ** Records without [metadata] *)



(** ** One summary for each month *)

(** A result that is returned has exactly one summary for each month key
    that a readable date of the input gives, and none for any other
    key. *)
Theorem months_distinct_and_exact (ds : list DayData.t)
  (r : list MonthSummary.t) :
  processMonthlyData ds = Normal r ->
  NoDup (map MonthSummary.month r)
  /\ (forall k : string,
        In k (map MonthSummary.month r)
        <-> exists d date,
              In d ds /\ day_date d = Some date /\ monthYear_of date = k).
Proof.
  intro Hret. apply processMonthlyData_returns in Hret.
  destruct Hret as [_ ->].
  pose proof (summaries_months ds) as Hp. split.
  - apply (Permutation_NoDup (Permutation_sym Hp)). apply first_occ_NoDup.
  - intro k. split.
    + intro H. apply (Permutation_in _ Hp) in H. apply keys_of_In in H.
      destruct H as [d [Hd Hk]]. unfold day_key in Hk.
      destruct (day_date d) as [date|] eqn:E; [|discriminate].
      injection Hk as Hk. exists d, date. auto.
    + intros [d [date [Hd [E Hk]]]].
      apply (Permutation_in _ (Permutation_sym Hp)). apply keys_of_In.
      exists d. split; [exact Hd|]. unfold day_key. rewrite E, <- Hk.
      reflexivity.
Qed.

Lemma months_distinct_and_exact_witness :
  processMonthlyData days_X4_X6 = Normal [month_X4_X6]
  /\ NoDup (map MonthSummary.month [month_X4_X6]).
Proof.
  assert (H : processMonthlyData days_X4_X6 = Normal [month_X4_X6])
    by (vm_compute; reflexivity).
  split; [exact H|].
  apply (proj1 (months_distinct_and_exact days_X4_X6 [month_X4_X6] H)).
Defined.

(** ** The figures of a fund *)

Lemma fund_samples_named (ds : list DayData.t) (k n : string) :
  fund_samples ds k n = samples_named n (month_samples ds k).
Proof. reflexivity. Qed.

Lemma samples_named_nonempty (n : string) (l : list Fund.t) :
  In n (map Fund.name l) -> samples_named n l <> [].
Proof.
  intro H. apply in_map_iff in H. destruct H as [s [Hn Hs]].
  intro E. assert (Hin : In s (samples_named n l)).
  { apply filter_In. split; [exact Hs|]. rewrite Hn. apply String.eqb_refl. }
  rewrite E in Hin. destruct Hin.
Qed.

Lemma funds_In_entries (ds : list DayData.t) (k : string) (f : FundSummary.t) :
  In f (rankedFunds (bucket ds k)) ->
  In (FundSummary.name f) (month_fund_names ds k)
  /\ FundSummary.entry f
     = FundEntry.mk (FundSummary.name f)
         (FundMetrics.getAverages
            (metrics_of_samples (fund_samples ds k (FundSummary.name f)))).
Proof.
  rewrite rankedFunds_bucket. intro Hf.
  apply (in_map FundSummary.entry) in Hf. rewrite ranked_entries in Hf.
  apply (proj1 (sort_In compareFunds _ _)) in Hf.
  unfold fund_entries in Hf. apply in_map_iff in Hf.
  destruct Hf as [n [E Hn]]. unfold FundSummary.name. rewrite <- E.
  simpl. auto.
Qed.

(** Every fund summary of a month reports the figures of the samples that
    carry its name in the records of that month: the three averages are the
    averages of those samples, in input order, [dataPoints] is their number,
    and there is at least one. *)
Theorem fund_summary_of_its_samples (ds : list DayData.t)
  (r : list MonthSummary.t) (m : MonthSummary.t) (f : FundSummary.t) :
  processMonthlyData ds = Normal r -> In m r ->
  In f (MonthSummary.funds m) ->
  let samples :=
    samples_named (FundSummary.name f)
                  (month_samples ds (MonthSummary.month m)) in
  samples <> []
  /\ FundEntry.averages (FundSummary.entry f)
     = Averages.mk (statistics.average (map Fund.nominalRate samples))
                   (statistics.average (map Fund.afterTaxReturn samples))
                   (statistics.average (map Fund.realReturn samples))
                   (List.length samples).
Proof.
  intros Hret Hm Hf. apply (processMonthlyData_In ds r m Hret) in Hm.
  apply summaries_In in Hm. destruct Hm as [k [_ ->]].
  rewrite summarize_funds in Hf. rewrite summarize_month. cbv zeta.
  destruct (funds_In_entries ds k f Hf) as [Hn E].
  split.
  - apply samples_named_nonempty. unfold month_fund_names in Hn.
    apply (proj1 (first_occ_In _ _)) in Hn. exact Hn.
  - rewrite E. reflexivity.
Qed.

Lemma fund_summary_of_its_samples_witness :
  processMonthlyData days_X4_X6 = Normal [month_X4_X6]
  /\ (forall f, In f (MonthSummary.funds month_X4_X6) ->
        samples_named (FundSummary.name f)
          (month_samples days_X4_X6 (MonthSummary.month month_X4_X6)) <> []).
Proof.
  assert (H : processMonthlyData days_X4_X6 = Normal [month_X4_X6])
    by (vm_compute; reflexivity).
  split; [exact H|]. intros f Hf.
  apply (fund_summary_of_its_samples days_X4_X6 [month_X4_X6] month_X4_X6 f
           H (or_introl eq_refl) Hf).
Defined.

(** [totalFunds] is the number of distinct fund names among the samples of
    the month, and the fund list has each of these names. *)
Theorem totalFunds_counts_names (ds : list DayData.t)
  (r : list MonthSummary.t) (m : MonthSummary.t) :
  processMonthlyData ds = Normal r -> In m r ->
  MonthSummary.totalFunds m
  = List.length (month_fund_names ds (MonthSummary.month m))
  /\ Permutation (map FundSummary.name (MonthSummary.funds m))
                 (month_fund_names ds (MonthSummary.month m)).
Proof.
  intros Hret Hm. apply (processMonthlyData_In ds r m Hret) in Hm.
  apply summaries_In in Hm. destruct Hm as [k [_ ->]].
  rewrite summarize_funds, summarize_month, summarize_totalFunds.
  rewrite rankedFunds_bucket.
  assert (Hp : Permutation
                 (map FundSummary.name
                    (mapi (fun fund index => FundSummary.mk fund (index + 1))
                       (JsArray.sort compareFunds (fund_entries ds k))))
                 (month_fund_names ds k)).
  { change (map FundSummary.name ?l)
      with (map (fun f => FundEntry.name (FundSummary.entry f)) l).
    rewrite <- (map_map FundSummary.entry FundEntry.name), ranked_entries.
    rewrite (Permutation_map FundEntry.name (sort_perm compareFunds _)).
    unfold fund_entries. rewrite map_map. simpl. rewrite map_id.
    reflexivity. }
  split; [|exact Hp].
  rewrite <- (Permutation_length Hp), length_map. reflexivity.
Qed.

Lemma totalFunds_counts_names_witness :
  processMonthlyData [day_A5_B7] = Normal [month_A5_B7]
  /\ MonthSummary.totalFunds month_A5_B7
     = List.length (month_fund_names [day_A5_B7]
                      (MonthSummary.month month_A5_B7)).
Proof.
  assert (H : processMonthlyData [day_A5_B7] = Normal [month_A5_B7])
    by (vm_compute; reflexivity).
  split; [exact H|].
  apply (totalFunds_counts_names [day_A5_B7] [month_A5_B7] month_A5_B7 H
           (or_introl eq_refl)).
Defined.

(** ** The detailed view *)

(** The detailed statistics of a month are the average, median and standard
    deviation of the same daily portfolio triples that the average view is
    taken of; its averages and its [dataPoints] are those of the average
    view. *)
Theorem detailed_statistics_of_daily_triples (ds : list DayData.t)
  (r : list MonthSummary.t) (m : MonthSummary.t) :
  processMonthlyData ds = Normal r -> In m r ->
  let ts := month_triples ds (MonthSummary.month m) in
  let avg := MonthStatistics.average (MonthSummary.statistics m) in
  let det := MonthStatistics.detailed (MonthSummary.statistics m) in
  det = DetailedStats.mk
          (FundMetrics.detail (map StatsAverage.nominalRate ts))
          (FundMetrics.detail (map StatsAverage.afterTaxReturn ts))
          (FundMetrics.detail (map StatsAverage.realReturn ts))
          (List.length ts)
  /\ MetricStats.average (DetailedStats.nominalRate det)
     = Averages.nominalRate avg
  /\ MetricStats.average (DetailedStats.afterTaxReturn det)
     = Averages.afterTaxReturn avg
  /\ MetricStats.average (DetailedStats.realReturn det)
     = Averages.realReturn avg
  /\ DetailedStats.dataPoints det = Averages.dataPoints avg.
Proof.
  intros Hret Hm. apply (processMonthlyData_In ds r m Hret) in Hm.
  apply summaries_In in Hm. destruct Hm as [k [_ ->]].
  rewrite summarize_month. cbv zeta. unfold MonthSummary.statistics.
  cbn [summarize MonthSummary.metadata MonthMetadata.statistics
       MonthStatistics.average MonthStatistics.detailed].
  rewrite bucket_statistics. repeat split.
Qed.

Lemma detailed_statistics_of_daily_triples_witness :
  processMonthlyData days_X4_X6 = Normal [month_X4_X6]
  /\ DetailedStats.dataPoints
       (MonthStatistics.detailed (MonthSummary.statistics month_X4_X6))
     = Averages.dataPoints
         (MonthStatistics.average (MonthSummary.statistics month_X4_X6)).
Proof.
  assert (H : processMonthlyData days_X4_X6 = Normal [month_X4_X6])
    by (vm_compute; reflexivity).
  split; [exact H|].
  apply (detailed_statistics_of_daily_triples days_X4_X6 [month_X4_X6]
           month_X4_X6 H (or_introl eq_refl)).
Defined.

(** ** Extremes *)

Lemma summarize_topPerformer (k : string) (b : MonthData.t) :
  MonthSummary.topPerformer (summarize (k, b))
  = nth_error (rankedFunds b) 0.
Proof. reflexivity. Qed.

Lemma summarize_bottomPerformer (k : string) (b : MonthData.t) :
  MonthSummary.bottomPerformer (summarize (k, b))
  = JsArray.at_index (rankedFunds b)
      (Z.of_nat (List.length (rankedFunds b)) - 1).
Proof. reflexivity. Qed.

Lemma sorted_first_last {A : Type} (R : A -> A -> Prop) (l : list A) :
  StronglySorted R l ->
  forall (i j : nat) (x y : A),
    nth_error l i = Some x -> nth_error l j = Some y -> i < j -> R x y.
Proof.
  intros Hs i j x y Hi Hj Hij.
  apply (StronglySorted_precedes R l x y Hs).
  apply (precedes_nth l i j); assumption.
Qed.

(** The top performer of a month has the highest average nominal rate of
    its fund list and the bottom performer the lowest. *)
Theorem performers_are_extremes (ds : list DayData.t)
  (r : list MonthSummary.t) (m : MonthSummary.t) :
  processMonthlyData ds = Normal r -> In m r ->
  (forall t, MonthSummary.topPerformer m = Some t ->
     forall f, In f (MonthSummary.funds m) ->
       (FundSummary.nominalRate f <= FundSummary.nominalRate t)%Q)
  /\ (forall b, MonthSummary.bottomPerformer m = Some b ->
        forall f, In f (MonthSummary.funds m) ->
          (FundSummary.nominalRate b <= FundSummary.nominalRate f)%Q).
Proof.
  intros Hret Hm. apply (processMonthlyData_In ds r m Hret) in Hm.
  apply summaries_In in Hm. destruct Hm as [k [_ ->]].
  rewrite summarize_funds, summarize_topPerformer, summarize_bottomPerformer.
  rewrite rankedFunds_bucket.
  pose proof (ranked_sorted (fund_entries ds k)) as Hs.
  set (fs := mapi _ _) in *.
  split.
  - intros t Ht f Hf. destruct (In_nth_error _ _ Hf) as [i Hi].
    destruct i as [|i]; [rewrite Ht in Hi; injection Hi as ->; apply Qle_refl|].
    apply (sorted_first_last _ fs Hs 0 (S i) t f Ht Hi). lia.
  - intros b Hb f Hf.
    assert (Hne : fs <> []) by (intro E; rewrite E in Hf; destruct Hf).
    rewrite (at_index_last fs Hne) in Hb.
    destruct (In_nth_error _ _ Hf) as [i Hi].
    assert (Hlt : i < List.length fs)
      by (apply nth_error_Some; congruence).
    destruct (Nat.eq_dec i (List.length fs - 1)) as [-> | Hneq].
    + rewrite Hb in Hi. injection Hi as ->. apply Qle_refl.
    + apply (sorted_first_last _ fs Hs i (List.length fs - 1) f b Hi Hb).
      lia.
Qed.

Lemma performers_are_extremes_witness :
  processMonthlyData [day_A5_B7] = Normal [month_A5_B7]
  /\ (forall t, MonthSummary.topPerformer month_A5_B7 = Some t ->
        forall f, In f (MonthSummary.funds month_A5_B7) ->
          (FundSummary.nominalRate f <= FundSummary.nominalRate t)%Q).
Proof.
  assert (H : processMonthlyData [day_A5_B7] = Normal [month_A5_B7])
    by (vm_compute; reflexivity).
  split; [exact H|].
  apply (performers_are_extremes [day_A5_B7] [month_A5_B7] month_A5_B7 H
           (or_introl eq_refl)).
Defined.

(** ** The accumulators *)

(** In the month map that the first loop leaves, run to its end or left by
    a throw, every accumulator counts what it holds: [count] is the length
    of each of the three sample lists, for the fund accumulators, which
    are never empty, and for the portfolio accumulator. *)
Theorem accumulators_count_their_samples (ds : list DayData.t)
  (monthsMap : JsMap.t MonthData.t) (c : completion unit) (k : string)
  (b : MonthData.t) :
  collect ds JsMap.empty = (monthsMap, c) ->
  In (k, b) monthsMap ->
  (forall n fm, In (n, fm) (MonthData.fundsData b) ->
     List.length (FundMetrics.nominalRates fm) = FundMetrics.count fm
     /\ List.length (FundMetrics.afterTaxReturns fm) = FundMetrics.count fm
     /\ List.length (FundMetrics.realReturns fm) = FundMetrics.count fm
     /\ 1 <= FundMetrics.count fm)
  /\ List.length (FundMetrics.nominalRates (MonthData.statistics b))
     = FundMetrics.count (MonthData.statistics b)
  /\ List.length (FundMetrics.afterTaxReturns (MonthData.statistics b))
     = FundMetrics.count (MonthData.statistics b)
  /\ List.length (FundMetrics.realReturns (MonthData.statistics b))
     = FundMetrics.count (MonthData.statistics b).
Proof.
  intro Hc. destruct (collect_store ds JsMap.empty) as [ds' E].
  rewrite Hc in E. cbn [fst] in E. fold (collected ds') in E.
  subst monthsMap. clear Hc ds. rename ds' into ds.
  rewrite collected_grouped. intro H. apply in_map_iff in H.
  destruct H as [k' [E _]]. injection E as -> <-.
  split.
  - intros n fm Hfm. rewrite bucket_fundsData in Hfm.
    apply in_map_iff in Hfm. destruct Hfm as [n' [E Hn]].
    injection E as -> <-. simpl. rewrite !length_map.
    repeat split.
    assert (Hne : fund_samples ds k n <> []).
    { apply samples_named_nonempty. unfold month_fund_names in Hn.
      apply (proj1 (first_occ_In _ _)) in Hn. exact Hn. }
    destruct (fund_samples ds k n); [congruence | simpl; lia].
  - rewrite bucket_statistics. simpl. rewrite !length_map. repeat split.
Qed.

Lemma accumulators_count_their_samples_witness :
  collect days_X4_X6 JsMap.empty
  = ([("JANUARY 2024", bucket days_X4_X6 "JANUARY 2024")], Normal tt)
  /\ List.length
       (FundMetrics.nominalRates
          (MonthData.statistics (bucket days_X4_X6 "JANUARY 2024")))
     = FundMetrics.count
         (MonthData.statistics (bucket days_X4_X6 "JANUARY 2024")).
Proof.
  assert (H : collect days_X4_X6 JsMap.empty
              = ([("JANUARY 2024", bucket days_X4_X6 "JANUARY 2024")],
                 Normal tt))
    by (vm_compute; reflexivity).
  split; [exact H|].
  apply (accumulators_count_their_samples days_X4_X6 _ _ _ _ H
           (or_introl eq_refl)).
Defined.

(** ** Months do not influence each other *)

Lemma keys_of_select {D : Type} (key : D -> option string) (ds : list D)
  (k : string) : In k (keys_of key ds) <-> select key k ds <> [].
Proof.
  split.
  - intros H E. apply keys_of_In in H. destruct H as [d [Hd Hk]].
    assert (Hin : In d (select key k ds)).
    { apply filter_In. split; [exact Hd|]. rewrite Hk. simpl.
      apply String.eqb_refl. }
    rewrite E in Hin. destruct Hin.
  - intro H. destruct (select key k ds) as [|d l] eqn:E; [congruence|].
    assert (Hin : In d (select key k ds)) by (rewrite E; left; reflexivity).
    apply filter_In in Hin. destruct Hin as [Hd Hk].
    apply keys_of_In. exists d. split; [exact Hd|].
    destruct (key d) as [k'|]; [|discriminate]. simpl in Hk.
    apply String.eqb_eq in Hk. congruence.
Qed.

(** The summary of a month is made of the records of that month alone: of
    two inputs for which the function returns and that have the same
    records for the month, in the same order, one has the summary that
    the other has for it. *)
Theorem month_summary_is_local (ds ds' : list DayData.t)
  (r r' : list MonthSummary.t) (m : MonthSummary.t) :
  processMonthlyData ds = Normal r ->
  processMonthlyData ds' = Normal r' ->
  In m r ->
  month_days ds' (MonthSummary.month m)
  = month_days ds (MonthSummary.month m) ->
  In m r'.
Proof.
  intros Hret Hret' Hm E. apply (processMonthlyData_In ds r m Hret) in Hm.
  apply processMonthlyData_returns in Hret'. destruct Hret' as [_ ->].
  clear Hret.
  apply summaries_In in Hm. destruct Hm as [k [Hk ->]].
  rewrite summarize_month in E. apply summaries_In. exists k.
  split.
  - apply keys_of_select. apply keys_of_select in Hk.
    unfold month_days in E. rewrite E. exact Hk.
  - unfold bucket. rewrite E. reflexivity.
Qed.

Lemma month_summary_is_local_witness :
  processMonthlyData [day_A5_B7] = Normal [month_A5_B7]
  /\ processMonthlyData [day_unknown_month; day_A5_B7]
     = Normal (summaries [day_unknown_month; day_A5_B7])
  /\ month_days [day_unknown_month; day_A5_B7]
       (MonthSummary.month month_A5_B7)
     = month_days [day_A5_B7] (MonthSummary.month month_A5_B7)
  /\ In month_A5_B7 (summaries [day_unknown_month; day_A5_B7]).
Proof.
  assert (H : processMonthlyData [day_A5_B7] = Normal [month_A5_B7])
    by (vm_compute; reflexivity).
  assert (H' : processMonthlyData [day_unknown_month; day_A5_B7]
               = Normal (summaries [day_unknown_month; day_A5_B7]))
    by (apply processMonthlyData_summaries; reflexivity).
  assert (E : month_days [day_unknown_month; day_A5_B7]
                (MonthSummary.month month_A5_B7)
              = month_days [day_A5_B7] (MonthSummary.month month_A5_B7))
    by reflexivity.
  split; [exact H|]. split; [exact H'|]. split; [exact E|].
  apply (month_summary_is_local [day_A5_B7] [day_unknown_month; day_A5_B7]
           [month_A5_B7] _ month_A5_B7 H H' (or_introl eq_refl) E).
Defined.

(** ** Records that fail after their bucket was made *)

Lemma modify_ext {V : Type} (m : JsMap.t V) (k : string) (h1 h2 : V -> V) :
  (forall v, h1 v = h2 v) -> JsMap.modify m k h1 = JsMap.modify m k h2.
Proof.
  intro H. induction m as [|[a w] m IH]; simpl; [reflexivity|].
  destruct (String.eqb a k); [rewrite H | rewrite IH]; reflexivity.
Qed.

Lemma collected_has (ds : list DayData.t) (k : string) :
  JsMap.has (collected ds) k = true <-> In k (keys_of day_key ds).
Proof.
  rewrite collected_grouped, has_map. apply existsb_eqb_In.
Qed.

Lemma apply_day_no_funds (d : DayData.t) (b : MonthData.t) :
  DayData.funds d = None -> apply_day d b = b.
Proof. unfold apply_day. intros ->. reflexivity. Qed.

Lemma no_funds_no_samples (days : list DayData.t) :
  (forall d, In d days -> DayData.funds d = None) ->
  flat_map day_funds days = [] /\ flat_map triple_list days = [].
Proof.
  induction days as [|d days IH]; intro H; simpl; [auto|].
  destruct IH as [IH1 IH2]; [intros; apply H; right; assumption|].
  rewrite IH1, IH2. unfold day_funds, triple_list, day_triple.
  rewrite (H d (or_introl eq_refl)).
  destruct (DayData.metadata d); auto.
Qed.

(** A record whose date can be read and whose [funds] are absent throws
    after its bucket has been looked up or made.  It changes nothing when an
    earlier record has already made the bucket; a month that has only such
    records is still in the result, with no funds, [totalFunds] 0 and the
    portfolio averages of no sample (all 0, with 0 data points). *)
Theorem record_without_funds :
  (forall (ds1 ds2 : list DayData.t) (d : DayData.t) (k : string),
      day_key d = Some k -> DayData.funds d = None ->
      In k (keys_of day_key ds1) ->
      processMonthlyData (ds1 ++ d :: ds2)
      = processMonthlyData (ds1 ++ ds2))
  /\ (forall (ds : list DayData.t) (r : list MonthSummary.t)
             (m : MonthSummary.t),
        processMonthlyData ds = Normal r -> In m r ->
        (forall d, In d (month_days ds (MonthSummary.month m)) ->
                   DayData.funds d = None) ->
        MonthSummary.funds m = []
        /\ MonthSummary.totalFunds m = 0
        /\ MonthStatistics.average (MonthSummary.statistics m)
           = Averages.mk 0 0 0 0).
Proof.
  split.
  - intros ds1 ds2 d k Hk Hf Hin. apply processMonthlyData_skip.
    { unfold day_key in Hk.
      destruct (day_date d) as [date|] eqn:Ed; [|discriminate].
      apply (day_date_has_metadata d date Ed). }
    unfold summaries. do 2 f_equal.
    rewrite !collected_app. simpl.
    rewrite day_step. unfold upsert. rewrite Hk.
    apply collected_has in Hin. rewrite Hin. simpl.
    rewrite (modify_ext _ _ _ (fun b => b)
               (fun b => apply_day_no_funds d b Hf)).
    rewrite modify_id. reflexivity.
  - intros ds r m Hret Hm Hall.
    apply (processMonthlyData_In ds r m Hret) in Hm.
    apply summaries_In in Hm. destruct Hm as [k [_ ->]].
    rewrite summarize_month in Hall.
    destruct (no_funds_no_samples _ Hall) as [E1 E2].
    rewrite summarize_funds, summarize_totalFunds, rankedFunds_bucket.
    unfold MonthSummary.statistics.
    cbn [summarize MonthSummary.metadata MonthMetadata.statistics
         MonthStatistics.average].
    rewrite bucket_statistics.
    unfold fund_entries, month_fund_names, month_samples, month_triples.
    rewrite E1, E2. repeat split.
Qed.

Lemma record_without_funds_witness :
  processMonthlyData [day_without_funds] = Normal [month_without_funds]
  /\ (forall d,
        In d (month_days [day_without_funds]
                (MonthSummary.month month_without_funds)) ->
        DayData.funds d = None)
  /\ MonthSummary.funds month_without_funds = [].
Proof.
  assert (H : processMonthlyData [day_without_funds]
              = Normal [month_without_funds])
    by (vm_compute; reflexivity).
  assert (Hall : forall d,
             In d (month_days [day_without_funds]
                     (MonthSummary.month month_without_funds)) ->
             DayData.funds d = None).
  { intros d [<- | []]. reflexivity. }
  split; [exact H|]. split; [exact Hall|].
  apply (proj2 record_without_funds [day_without_funds]
           [month_without_funds] month_without_funds H
           (or_introl eq_refl) Hall).
Defined.

(** ** Nothing is counted twice, nothing is lost *)

Lemma list_sum_map_add {A : Type} (f g : A -> nat) (l : list A) :
  list_sum (map (fun x => f x + g x) l)
  = list_sum (map f l) + list_sum (map g l).
Proof.
  induction l as [|x l IH]; simpl; [reflexivity|]. rewrite IH. lia.
Qed.

Lemma list_sum_indicator (k0 : string) (c : nat) (l : list string) :
  NoDup l ->
  list_sum (map (fun k => if String.eqb k0 k then c else 0) l)
  = if existsb (fun k => String.eqb k k0) l then c else 0.
Proof.
  induction 1 as [|a l Ha Hl IH]; simpl; [reflexivity|].
  rewrite IH, (String.eqb_sym k0 a).
  destruct (String.eqb_spec a k0) as [-> | Hne]; simpl; [|reflexivity].
  destruct (existsb (fun k => String.eqb k k0) l) eqn:E; [|lia].
  apply existsb_eqb_In in E. tauto.
Qed.

Lemma length_flat_map {A B : Type} (g : A -> list B) (l : list A) :
  List.length (flat_map g l) = list_sum (map (fun x => List.length (g x)) l).
Proof.
  induction l as [|x l IH]; simpl; [reflexivity|].
  rewrite length_app, IH. reflexivity.
Qed.

Section Partition.
Context {D : Type}.
Variable key : D -> option string.
Variable w : D -> nat.

(** The groups of the keys partition the keyed items. *)
Lemma select_partition (ds : list D) :
  list_sum (map (fun k => list_sum (map w (select key k ds))) (keys_of key ds))
  = list_sum (map w (filter (keyed key) ds)).
Proof.
  induction ds as [|d ds IH] using rev_ind; [reflexivity|].
  rewrite keys_of_snoc, filter_app, map_app, list_sum_app, <- IH. clear IH.
  cbn [filter]. unfold keyed.
  destruct (key d) as [k0|] eqn:Ek.
  - assert (Hstep : forall l : list string,
               list_sum (map (fun k => list_sum
                                         (map w (select key k (ds ++ [d])))) l)
               = list_sum (map (fun k => list_sum (map w (select key k ds))) l)
                 + list_sum (map (fun k => if String.eqb k0 k then w d else 0)
                                 l)).
    { intro l. rewrite <- list_sum_map_add. f_equal. apply map_ext.
      intro k. rewrite select_snoc, Ek, map_app, list_sum_app. simpl.
      destruct (String.eqb k0 k); simpl; lia. }
    destruct (existsb (fun k' => String.eqb k' k0) (keys_of key ds)) eqn:Eh.
    + rewrite Hstep, list_sum_indicator by apply first_occ_NoDup.
      rewrite Eh. simpl. lia.
    + rewrite map_app, list_sum_app, Hstep.
      rewrite list_sum_indicator by apply first_occ_NoDup. rewrite Eh.
      cbn [map list_sum fold_right].
      rewrite select_snoc, Ek. cbn [key_is]. rewrite String.eqb_refl.
      rewrite select_fresh; [simpl; lia|].
      intro Hin. apply existsb_eqb_In in Hin. congruence.
  - simpl. rewrite Nat.add_0_r. f_equal. apply map_ext. intro k.
    rewrite select_snoc, Ek. simpl. rewrite app_nil_r. reflexivity.
Qed.
End Partition.

Lemma list_sum_ones {A : Type} (l : list A) :
  list_sum (map (fun _ => 1) l) = List.length l.
Proof. induction l as [|x l IH]; simpl; congruence. Qed.

Lemma filter_keyed_fund_key (l : list Fund.t) : filter (keyed fund_key) l = l.
Proof. induction l as [|x l IH]; simpl; congruence. Qed.

Lemma fundPoints_bucket (ds : list DayData.t) (k : string) :
  fundPoints (summarize (k, bucket ds k)) = List.length (month_samples ds k).
Proof.
  unfold fundPoints. rewrite summarize_funds, rankedFunds_bucket.
  change (map FundSummary.dataPoints ?l)
    with (map (fun f => Averages.dataPoints
                          (FundEntry.averages (FundSummary.entry f))) l).
  rewrite <- (map_map FundSummary.entry
                (fun e => Averages.dataPoints (FundEntry.averages e))).
  rewrite ranked_entries.
  rewrite (Permutation_map _ (sort_perm compareFunds _)).
  unfold fund_entries, month_fund_names. rewrite map_map. simpl.
  rewrite <- keys_of_fund_key.
  rewrite <- (filter_keyed_fund_key (month_samples ds k)) at 2.
  rewrite <- list_sum_ones.
  rewrite <- (select_partition fund_key (fun _ => 1)).
  f_equal. apply map_ext. intro n. rewrite list_sum_ones. reflexivity.
Qed.

Lemma portfolioPoints_bucket (ds : list DayData.t) (k : string) :
  portfolioPoints (summarize (k, bucket ds k))
  = List.length (month_triples ds k).
Proof.
  unfold portfolioPoints, MonthSummary.statistics.
  cbn [summarize MonthSummary.metadata MonthMetadata.statistics
       MonthStatistics.average].
  rewrite bucket_statistics. reflexivity.
Qed.

Lemma list_sum_monthly (P : MonthSummary.t -> nat) (ds : list DayData.t) :
  list_sum (map P (summaries ds))
  = list_sum (map (fun k => P (summarize (k, bucket ds k)))
                  (keys_of day_key ds)).
Proof.
  unfold summaries, JsMap.entries.
  rewrite (Permutation_map P (sort_perm compareMonths _)).
  rewrite collected_grouped, !map_map. reflexivity.
Qed.

Lemma count_complete (l : list DayData.t) :
  list_sum (map (fun d => List.length (triple_list d))
                (filter (keyed day_key) l))
  = List.length (filter (fun d => has_key d && has_triple d) l).
Proof.
  induction l as [|d l IH]; simpl; [reflexivity|].
  unfold has_key, keyed, has_triple, triple_list in *.
  destruct (day_key d); simpl; [|exact IH].
  destruct (day_triple d); simpl; rewrite IH; reflexivity.
Qed.

(** Summed over the months of a result that is returned, the portfolio
    data points are the records that have a readable date and ran to
    their end, and the data points of the fund summaries are the fund
    samples of the records that have a readable date: no sample goes to
    two months or to two funds, and none of a dated record is dropped. *)
Theorem data_points_are_conserved (ds : list DayData.t)
  (r : list MonthSummary.t) :
  processMonthlyData ds = Normal r ->
  list_sum (map portfolioPoints r)
  = List.length (filter (fun d => has_key d && has_triple d) ds)
  /\ list_sum (map fundPoints r)
     = List.length (flat_map day_funds (filter has_key ds)).
Proof.
  intro Hret. apply processMonthlyData_returns in Hret.
  destruct Hret as [_ ->].
  split.
  - rewrite list_sum_monthly, <- count_complete.
    rewrite <- (select_partition day_key).
    f_equal. apply map_ext. intro k.
    rewrite portfolioPoints_bucket. unfold month_triples, month_days.
    apply length_flat_map.
  - rewrite list_sum_monthly, length_flat_map.
    change (filter has_key ds) with (filter (keyed day_key) ds).
    rewrite <- (select_partition day_key).
    f_equal. apply map_ext. intro k.
    rewrite fundPoints_bucket. unfold month_samples, month_days.
    apply length_flat_map.
Qed.

Lemma data_points_are_conserved_witness :
  processMonthlyData days_X4_X6 = Normal [month_X4_X6]
  /\ list_sum (map portfolioPoints [month_X4_X6])
     = List.length
         (filter (fun d => has_key d && has_triple d) days_X4_X6).
Proof.
  assert (H : processMonthlyData days_X4_X6 = Normal [month_X4_X6])
    by (vm_compute; reflexivity).
  split; [exact H|].
  apply (proj1 (data_points_are_conserved days_X4_X6 [month_X4_X6] H)).
Defined.

(* ------------------------------------------------------------------ *)
(** ** The month key of a date *)

Lemma upper_char_idem (c : ascii) :
  JsString.upper_char (JsString.upper_char c) = JsString.upper_char c.
Proof.
  destruct c as [b0 b1 b2 b3 b4 b5 b6 b7].
  destruct b0, b1, b2, b3, b4, b5, b6, b7; reflexivity.
Qed.

Lemma toUpperCase_idem (s : string) :
  JsString.toUpperCase (JsString.toUpperCase s) = JsString.toUpperCase s.
Proof.
  induction s as [|c s IH]; simpl; [reflexivity|].
  rewrite upper_char_idem, IH. reflexivity.
Qed.

Lemma split_toUpperCase (s : string) :
  JsString.split " " (JsString.toUpperCase s)
  = map JsString.toUpperCase (JsString.split " " s).
Proof.
  induction s as [|c s IH]; simpl; [reflexivity|].
  rewrite upper_char_space, IH.
  destruct (Ascii.eqb c " "); [reflexivity|].
  destruct (JsString.split " " s); reflexivity.
Qed.

Lemma template_toUpperCase (o : option string) :
  JsString.toUpperCase
    (JsString.template (option_map JsString.toUpperCase o))
  = JsString.toUpperCase (JsString.template o).
Proof.
  destruct o as [s|]; simpl; [apply toUpperCase_idem | reflexivity].
Qed.

Lemma monthYear_of_toUpperCase (date : string) :
  monthYear_of (JsString.toUpperCase date) = monthYear_of date.
Proof.
  unfold monthYear_of. rewrite split_toUpperCase, !nth_error_map.
  rewrite !toUpperCase_app, !template_toUpperCase. reflexivity.
Qed.

(** The month key does not depend on the case of the letters of the date:
    two dates that agree when uppercased give the same key, so their
    records go to the same bucket.  A key is itself in upper case. *)
Theorem month_key_ignores_case :
  (forall date1 date2 : string,
      JsString.toUpperCase date1 = JsString.toUpperCase date2 ->
      monthYear_of date1 = monthYear_of date2)
  /\ (forall date : string,
        JsString.toUpperCase (monthYear_of date) = monthYear_of date).
Proof.
  split.
  - intros date1 date2 H.
    rewrite <- (monthYear_of_toUpperCase date1), H.
    apply monthYear_of_toUpperCase.
  - intro date. unfold monthYear_of. apply toUpperCase_idem.
Qed.

Lemma month_key_ignores_case_witness :
  JsString.toUpperCase "01 january 2024" = JsString.toUpperCase "01 JANUARY 2024"
  /\ monthYear_of "01 january 2024" = monthYear_of "01 JANUARY 2024".
Proof.
  assert (H : JsString.toUpperCase "01 january 2024"
              = JsString.toUpperCase "01 JANUARY 2024") by reflexivity.
  split; [exact H|].
  apply (proj1 month_key_ignores_case _ _ H).
Defined.

(** Splitting at the spaces loses nothing: the tokens have no space in
    them, and joined by single spaces they give the string back. *)
Theorem split_then_join (s : string) :
  String.concat " " (JsString.split " " s) = s
  /\ Forall (fun t => has_space t = false) (JsString.split " " s).
Proof.
  split; [|apply split_tokens_no_space].
  induction s as [|c s IH]; [reflexivity|].
  cbn [JsString.split].
  destruct (Ascii.eqb_spec c " ") as [-> | Hc].
  - cbn [String.concat]. rewrite IH.
    destruct (JsString.split " " s) as [|t ts] eqn:E; [|reflexivity].
    simpl in IH. subst s. simpl in E. discriminate.
  - destruct (JsString.split " " s) as [|t ts] eqn:E.
    + simpl in IH. subst s. simpl in E. discriminate.
    + cbn [String.concat] in *. destruct ts; simpl; rewrite <- IH; reflexivity.
Qed.

(* ------------------------------------------------------------------ *)
(** ** The calendar index *)

Lemma indexOf_found (l : list string) (x : string) :
  In x l ->
  (0 <= JsArray.indexOf l x < Z.of_nat (List.length l))%Z
  /\ nth_error l (Z.to_nat (JsArray.indexOf l x)) = Some x.
Proof.
  induction l as [|y l IH]; intro H; [destruct H|].
  cbn [JsArray.indexOf].
  destruct (String.eqb_spec y x) as [-> | Hne].
  - simpl List.length. split; [lia | reflexivity].
  - destruct H as [H | H]; [congruence|].
    destruct (IH H) as [Hr Hn].
    destruct (Z.ltb_spec (JsArray.indexOf l x) 0) as [Hlt | Hge]; [lia|].
    simpl List.length. split; [lia|].
    replace (Z.to_nat (JsArray.indexOf l x + 1))
      with (S (Z.to_nat (JsArray.indexOf l x))) by lia.
    exact Hn.
Qed.


(** The calendar index that the chronological sort gives a month name is
    -1 exactly for a name that is not one of the twelve upper-case entries
    of the table; for an entry it is its position, from 0 for JANUARY to 11
    for DECEMBER. *)
Theorem monthIndex_is_table_position (name : string) :
  (~ In name months /\ monthIndex (Some name) = (-1)%Z)
  \/ (In name months
      /\ (0 <= monthIndex (Some name) <= 11)%Z
      /\ nth_error months (Z.to_nat (monthIndex (Some name))) = Some name).
Proof.
  unfold monthIndex.
  destruct (in_dec string_dec name months) as [Hin | Hout].
  - right. split; [exact Hin|].
    destruct (indexOf_found months name Hin) as [Hr Hn].
    change (Z.of_nat (List.length months)) with 12%Z in Hr.
    split; [lia | exact Hn].
  - left. split; [exact Hout | apply indexOf_absent, Hout].
Qed.

(* ------------------------------------------------------------------ *)
(** ** The date range of the summary *)

Lemma chron_le_refl (a : string) : chron_le a a.
Proof. unfold chron_le. right. split; lia. Qed.

Lemma summaryData_of_fields (l : list MonthSummary.t) :
  l <> [] ->
  exists s first last,
    summaryData_of l = Normal s
    /\ nth_error l 0 = Some first
    /\ nth_error l (List.length l - 1) = Some last
    /\ SummaryData.monthlyData s = l
    /\ Summary.totalMonths (SummaryData.summary s) = List.length l
    /\ DateRange.start (Summary.dateRange (SummaryData.summary s))
       = MonthSummary.month first
    /\ DateRange.end_ (Summary.dateRange (SummaryData.summary s))
       = MonthSummary.month last.
Proof.
  intro H. unfold summaryData_of.
  rewrite (at_index_last l H), at_index_0.
  destruct (nth_error l 0) as [first|] eqn:E0.
  - destruct (nth_error l (List.length l - 1)) as [last|] eqn:E1.
    + eexists. exists first, last. repeat split.
    + apply nth_error_None in E1. destruct l; [congruence | simpl in E1; lia].
  - apply nth_error_None in E0. destruct l; [congruence | simpl in E0; lia].
Qed.

(** When [processMonthlyData] returns, the dates that can be read have
    three tokens and a numeral year of at most 2^53, and at least one date
    can be read, the run writes a summary whose month count is the number
    of distinct month keys and whose date range runs from the
    chronologically first month of the result to the last: both ends are
    months of the result, no month is before the start and none after the
    end. *)
Theorem summary_date_range (ds : list DayData.t) (r : list MonthSummary.t) :
  (forall d date, In d ds -> day_date d = Some date ->
                  orderable_date date = true) ->
  (exists d, In d ds /\ day_date d <> None) ->
  processMonthlyData ds = Normal r ->
  exists s,
    main ds = Written s
    /\ SummaryData.monthlyData s = r
    /\ Summary.totalMonths (SummaryData.summary s)
       = List.length (keys_of day_key ds)
    /\ let range := Summary.dateRange (SummaryData.summary s) in
       In (DateRange.start range) (map MonthSummary.month r)
       /\ In (DateRange.end_ range) (map MonthSummary.month r)
       /\ (forall m, In m r ->
             chron_le (DateRange.start range) (MonthSummary.month m)
             /\ chron_le (MonthSummary.month m) (DateRange.end_ range)).
Proof.
  intros Hds [d [Hd Hdate]] Hret.
  pose proof Hret as Hr. apply processMonthlyData_returns in Hr.
  destruct Hr as [_ ->].
  pose proof (summaries_sorted ds Hds) as Hs.
  assert (Hne : summaries ds <> []).
  { intro E. apply (f_equal (@List.length MonthSummary.t)) in E.
    rewrite summaries_length in E. simpl in E.
    apply length_zero_iff_nil in E.
    destruct (day_date d) as [date|] eqn:Ed; [|congruence].
    assert (Hk : In (monthYear_of date) (keys_of day_key ds)).
    { apply keys_of_In. exists d. split; [exact Hd|].
      unfold day_key. rewrite Ed. reflexivity. }
    rewrite E in Hk. destruct Hk. }
  destruct (summaryData_of_fields _ Hne)
    as [s [first [last [Hsum [H0 [H1 [Hm [Ht [Hstart Hend]]]]]]]]].
  exists s. unfold main. rewrite Hret, Hsum.
  split; [reflexivity|]. split; [exact Hm|].
  split; [rewrite Ht; apply summaries_length|].
  cbv zeta. rewrite Hstart, Hend.
  split; [apply in_map; eapply nth_error_In; exact H0|].
  split; [apply in_map; eapply nth_error_In; exact H1|].
  intros m Hin. destruct (In_nth_error _ _ Hin) as [i Hi].
  assert (Hlt : i < List.length (summaries ds))
    by (apply nth_error_Some; congruence).
  split.
  - destruct i as [|i].
    + rewrite H0 in Hi. injection Hi as ->. apply chron_le_refl.
    + apply (sorted_first_last _ _ Hs 0 (S i) first m H0 Hi). lia.
  - destruct (Nat.eq_dec i (List.length (summaries ds) - 1))
      as [-> | Hneq].
    + rewrite H1 in Hi. injection Hi as ->. apply chron_le_refl.
    + apply (sorted_first_last _ _ Hs i _ m last Hi H1). lia.
Qed.

Lemma summary_date_range_witness :
  (forall d date, In d days_three_months -> day_date d = Some date ->
                  orderable_date date = true)
  /\ (exists d, In d days_three_months /\ day_date d <> None)
  /\ processMonthlyData days_three_months
     = Normal (summaries days_three_months)
  /\ exists s, main days_three_months = Written s
               /\ SummaryData.monthlyData s
                  = summaries days_three_months.
Proof.
  assert (H : forall d date, In d days_three_months ->
                day_date d = Some date -> orderable_date date = true).
  { intros d date [<- | [<- | [<- | []]]] E; injection E as <-; reflexivity. }
  assert (H' : exists d, In d days_three_months /\ day_date d <> None).
  { eexists. split; [left; reflexivity | discriminate]. }
  assert (Hret : processMonthlyData days_three_months
                 = Normal (summaries days_three_months))
    by (apply processMonthlyData_summaries; reflexivity).
  split; [exact H|]. split; [exact H'|]. split; [exact Hret|].
  destruct (summary_date_range days_three_months _ H H' Hret)
    as [s [Hs [Hm _]]].
  exists s. auto.
Defined.

(* ------------------------------------------------------------------ *)
(** ** The order of the months does not depend on the order of the input *)

Lemma months_no_space : Forall (fun mo => has_space mo = false) months.
Proof. repeat constructor. Qed.

Lemma calendar_key_wf (k : string) : calendar_key k -> wf_key k.
Proof.
  intros [mo [y [E [Hmo [Hy He]]]]]. exists mo, y. repeat split; auto.
  pose proof months_no_space as H. rewrite Forall_forall in H. auto.
Qed.

Lemma calendar_date_orderable (date : string) :
  calendar_date date = true -> orderable_date date = true.
Proof.
  unfold calendar_date, orderable_date.
  destruct (JsString.split " " date) as [|d [|mo [|y rest]]]; try discriminate.
  intro H. apply andb_true_iff in H. tauto.
Qed.

Lemma calendar_date_key (date : string) :
  calendar_date date = true -> calendar_key (monthYear_of date).
Proof.
  intro H. unfold calendar_date in H. unfold monthYear_of.
  destruct (JsString.split " " date) as [|d [|mo [|y rest]]]; try discriminate.
  apply andb_true_iff in H. destruct H as [Hy Hmo].
  apply andb_true_iff in Hy. destruct Hy as [Hy He].
  exists (JsString.toUpperCase mo), y.
  cbn [nth_error JsString.template]. repeat split.
  - rewrite toUpperCase_app. f_equal.
    change (" " ++ y)%string with (String " " y).
    cbn [JsString.toUpperCase]. f_equal.
    apply toUpperCase_digits, canonical_year_digits, Hy.
  - apply existsb_exists in Hmo. destruct Hmo as [x [Hx E]].
    apply String.eqb_eq in E. subst x. exact Hx.
  - exact Hy.
  - exact He.
Qed.

Lemma indexOf_inj (l : list string) (x y : string) :
  In x l -> JsArray.indexOf l x = JsArray.indexOf l y -> x = y.
Proof.
  intros Hx E. destruct (indexOf_found l x Hx) as [Hr Hn].
  destruct (in_dec string_dec y l) as [Hy | Hy].
  - destruct (indexOf_found l y Hy) as [_ Hn']. rewrite <- E in Hn'.
    congruence.
  - rewrite (indexOf_absent l y Hy) in E. lia.
Qed.

Lemma calendar_key_inj (a b : string) :
  calendar_key a -> calendar_key b ->
  key_year a = key_year b -> key_index a = key_index b -> a = b.
Proof.
  intros [ma [ya [-> [Hma [Hya Hea]]]]] [mb [yb [-> [Hmb [Hyb Heb]]]]].
  pose proof months_no_space as Hns. rewrite Forall_forall in Hns.
  rewrite (wf_key_year ma ya (Hns _ Hma) Hya),
          (wf_key_year mb yb (Hns _ Hmb) Hyb),
          (wf_key_index ma ya (Hns _ Hma) Hya),
          (wf_key_index mb yb (Hns _ Hmb) Hyb).
  intros Ey Ei.
  rewrite (canonical_year_inj ya yb Hya Hyb Ey).
  rewrite (indexOf_inj months ma mb Hma Ei). reflexivity.
Qed.

Lemma chron_le_lt (a b : string) :
  calendar_key a -> calendar_key b -> a <> b -> chron_le a b -> chron_lt a b.
Proof.
  intros Ha Hb Hne [H | [Hy Hi]]; [left; exact H|].
  right. split; [exact Hy|].
  destruct (Z.eq_dec (key_index a) (key_index b)) as [E | E]; [|lia].
  exfalso. apply Hne. apply calendar_key_inj; assumption.
Qed.

Lemma sorted_strictly (l : list string) :
  Forall calendar_key l -> NoDup l ->
  StronglySorted chron_le l -> StronglySorted chron_lt l.
Proof.
  intros Hc Hn Hs. induction Hs as [|a l Hs IH Hall]; [constructor|].
  inversion Hc as [|? ? Ha Hc']; subst.
  inversion Hn as [|? ? Hnotin Hn']; subst.
  constructor; [apply IH; assumption|].
  rewrite Forall_forall in Hall, Hc'. apply Forall_forall. intros b Hb.
  apply chron_le_lt; auto. intros ->. contradiction.
Qed.

Lemma sorted_perm_unique {A : Type} (lt : A -> A -> Prop) (l1 l2 : list A) :
  (forall a b, lt a b -> lt b a -> False) ->
  StronglySorted lt l1 -> StronglySorted lt l2 -> Permutation l1 l2 ->
  l1 = l2.
Proof.
  intro Hasym. revert l2.
  induction l1 as [|a l1 IH]; intros l2 H1 H2 Hp.
  - apply Permutation_nil in Hp. congruence.
  - destruct l2 as [|b l2];
      [apply Permutation_sym, Permutation_nil in Hp; discriminate|].
    inversion H1 as [|? ? H1' F1]; subst.
    inversion H2 as [|? ? H2' F2]; subst.
    rewrite Forall_forall in F1, F2.
    assert (E : a = b).
    { assert (Ha : In a (b :: l2))
        by (apply (Permutation_in _ Hp); left; reflexivity).
      assert (Hb : In b (a :: l1))
        by (apply (Permutation_in _ (Permutation_sym Hp)); left; reflexivity).
      destruct Ha as [Ha | Ha]; [congruence|].
      destruct Hb as [Hb | Hb]; [congruence|].
      exfalso. apply (Hasym a b); auto. }
    subst b. f_equal. apply IH; auto.
    apply (Permutation_cons_inv Hp).
Qed.

Lemma StronglySorted_map {A B : Type} (R : B -> B -> Prop) (h : A -> B)
  (l : list A) :
  StronglySorted (fun x y => R (h x) (h y)) l -> StronglySorted R (map h l).
Proof.
  induction 1 as [|a l Hs IH Hall]; simpl; constructor; [exact IH|].
  rewrite Forall_forall in Hall. apply Forall_forall. intros b Hb.
  apply in_map_iff in Hb. destruct Hb as [x [<- Hx]]. auto.
Qed.

Lemma keys_of_Permutation (ds ds' : list DayData.t) :
  Permutation ds ds' ->
  Permutation (keys_of day_key ds) (keys_of day_key ds').
Proof.
  intro Hp. apply NoDup_Permutation; try apply first_occ_NoDup.
  intro k. rewrite !keys_of_In.
  split; intros [d [Hd Hk]]; exists d; split; auto.
  - apply (Permutation_in _ Hp Hd).
  - apply (Permutation_in _ (Permutation_sym Hp) Hd).
Qed.

Lemma months_strictly_sorted (ds : list DayData.t) :
  (forall d date, In d ds -> day_date d = Some date ->
                  calendar_date date = true) ->
  StronglySorted chron_lt (map MonthSummary.month (summaries ds)).
Proof.
  intro Hds. apply sorted_strictly.
  - apply Forall_forall. intros k Hk.
    apply (Permutation_in _ (summaries_months ds)) in Hk.
    apply keys_of_In in Hk. destruct Hk as [d [Hd Hkey]].
    unfold day_key in Hkey.
    destruct (day_date d) as [date|] eqn:Ed; [|discriminate].
    simpl in Hkey. injection Hkey as <-.
    apply calendar_date_key. apply (Hds d date Hd Ed).
  - apply (Permutation_NoDup
             (Permutation_sym (summaries_months ds))).
    apply first_occ_NoDup.
  - apply StronglySorted_map. apply summaries_sorted.
    intros d date Hd Ed. apply calendar_date_orderable.
    apply (Hds d date Hd Ed).
Qed.

Lemma forallb_Permutation {A : Type} (f : A -> bool) (l l' : list A) :
  Permutation l l' -> forallb f l = true -> forallb f l' = true.
Proof.
  intros Hp H. rewrite forallb_forall in *. intros x Hx. apply H.
  apply (Permutation_in _ (Permutation_sym Hp) Hx).
Qed.

(** When every readable date of the input has a numeral year of at most
    2^53 and a month of the table, the months of a result that is
    returned are in strictly ascending chronological order, and for every
    reordering of the input records the function returns too, with the
    same sequence of months. *)
Theorem month_order_independent_of_input_order (ds ds' : list DayData.t)
  (r : list MonthSummary.t) :
  Permutation ds ds' ->
  (forall d date, In d ds -> day_date d = Some date ->
                  calendar_date date = true) ->
  processMonthlyData ds = Normal r ->
  StronglySorted chron_lt (map MonthSummary.month r)
  /\ exists r',
       processMonthlyData ds' = Normal r'
       /\ map MonthSummary.month r = map MonthSummary.month r'.
Proof.
  intros Hp Hds Hret.
  apply processMonthlyData_returns in Hret. destruct Hret as [Hmeta ->].
  assert (Hds' : forall d date, In d ds' -> day_date d = Some date ->
                                calendar_date date = true).
  { intros d date Hd. apply Hds.
    apply (Permutation_in _ (Permutation_sym Hp) Hd). }
  split; [apply months_strictly_sorted; exact Hds|].
  exists (summaries ds'). split.
  { apply processMonthlyData_summaries.
    apply (forallb_Permutation _ ds ds' Hp Hmeta). }
  apply (sorted_perm_unique chron_lt).
  - unfold chron_lt. intros a b. lia.
  - apply months_strictly_sorted; exact Hds.
  - apply months_strictly_sorted; exact Hds'.
  - rewrite (summaries_months ds), (summaries_months ds').
    apply keys_of_Permutation. exact Hp.
Qed.

Lemma month_order_independent_of_input_order_witness :
  Permutation days_three_months (rev days_three_months)
  /\ (forall d date, In d days_three_months -> day_date d = Some date ->
                     calendar_date date = true)
  /\ processMonthlyData days_three_months
     = Normal (summaries days_three_months)
  /\ StronglySorted chron_lt
       (map MonthSummary.month (summaries days_three_months)).
Proof.
  assert (Hp : Permutation days_three_months (rev days_three_months))
    by apply Permutation_rev.
  assert (H : forall d date, In d days_three_months ->
                day_date d = Some date -> calendar_date date = true).
  { intros d date [<- | [<- | [<- | []]]] E; injection E as <-; reflexivity. }
  assert (Hret : processMonthlyData days_three_months
                 = Normal (summaries days_three_months))
    by (apply processMonthlyData_summaries; reflexivity).
  split; [exact Hp|]. split; [exact H|]. split; [exact Hret|].
  apply (month_order_independent_of_input_order _ _ _ Hp H Hret).
Defined.

(* ------------------------------------------------------------------ *)
(** ** [MonthData.addFundData] *)

Section MapLookup.
Context {V : Type}.

Lemma get_modify_other (m : JsMap.t V) (k n : string) (h : V -> V) :
  n <> k -> JsMap.get (JsMap.modify m k h) n = JsMap.get m n.
Proof.
  intro Hne. induction m as [|[a w] m IH]; simpl; [reflexivity|].
  destruct (String.eqb_spec a k) as [-> | Hak]; simpl.
  - destruct (String.eqb_spec k n); [congruence | reflexivity].
  - rewrite IH. reflexivity.
Qed.

Lemma get_set_other (m : JsMap.t V) (k n : string) (v : V) :
  n <> k -> JsMap.get (JsMap.set m k v) n = JsMap.get m n.
Proof.
  intro Hne. induction m as [|[a w] m IH]; simpl.
  - destruct (String.eqb_spec k n); [congruence | reflexivity].
  - destruct (String.eqb_spec a k) as [-> | Hak]; simpl.
    + destruct (String.eqb_spec k n); [congruence | reflexivity].
    + rewrite IH. reflexivity.
Qed.

Lemma keys_modify (m : JsMap.t V) (k : string) (h : V -> V) :
  map fst (JsMap.modify m k h) = map fst m.
Proof.
  induction m as [|[a w] m IH]; simpl; [reflexivity|].
  destruct (String.eqb a k); simpl; [reflexivity | rewrite IH; reflexivity].
Qed.

Lemma has_In (m : JsMap.t V) (k : string) :
  JsMap.has m k = true <-> In k (map fst m).
Proof.
  induction m as [|[a w] m IH]; simpl; [split; [discriminate | tauto]|].
  rewrite orb_true_iff, IH, String.eqb_eq. tauto.
Qed.

Lemma keys_set_fresh (m : JsMap.t V) (k : string) (v : V) :
  JsMap.has m k = false -> map fst (JsMap.set m k v) = map fst m ++ [k].
Proof.
  induction m as [|[a w] m IH]; simpl; [reflexivity|].
  intro H. apply orb_false_iff in H. destruct H as [Ha Hm].
  rewrite Ha. simpl. rewrite (IH Hm). reflexivity.
Qed.

Lemma has_false_get (m : JsMap.t V) (k : string) :
  JsMap.has m k = false -> JsMap.get m k = None.
Proof.
  induction m as [|[a w] m IH]; simpl; [reflexivity|].
  intro H. apply orb_false_iff in H. destruct H as [Ha Hm].
  rewrite Ha. apply IH, Hm.
Qed.

End MapLookup.

(** [addFundData] files a sample under the name of its fund: afterwards
    the accumulator found under that name is the one found before, or a new
    one when there was none, with the sample added; the accumulators of all
    other names and the portfolio accumulator are as before; a name that
    was absent is entered last, a name that was present keeps its place, and
    no name is ever entered twice. *)
Theorem addFundData_files_under_name (fund : Fund.t) (this : MonthData.t) :
  let this' := MonthData.addFundData fund this in
  let before :=
    match JsMap.get (MonthData.fundsData this) (Fund.name fund) with
    | Some fm => fm
    | None => FundMetrics.new
    end in
  JsMap.get (MonthData.fundsData this') (Fund.name fund)
  = Some (addSample fund before)
  /\ (forall n, n <> Fund.name fund ->
        JsMap.get (MonthData.fundsData this') n
        = JsMap.get (MonthData.fundsData this) n)
  /\ map fst (MonthData.fundsData this')
     = (if JsMap.has (MonthData.fundsData this) (Fund.name fund)
        then map fst (MonthData.fundsData this)
        else map fst (MonthData.fundsData this) ++ [Fund.name fund])
  /\ (NoDup (map fst (MonthData.fundsData this)) ->
      NoDup (map fst (MonthData.fundsData this')))
  /\ MonthData.statistics this' = MonthData.statistics this.
Proof.
  cbv zeta. unfold MonthData.addFundData.
  cbn [MonthData.fundsData MonthData.statistics].
  set (m := MonthData.fundsData this). set (k := Fund.name fund).
  fold (addSample fund).
  destruct (JsMap.has m k) eqn:Eh; cbn [negb].
  - destruct (has_get m k Eh) as [fm Hfm].
    rewrite get_modify_same, Hfm, keys_modify. repeat split; auto.
    intros n Hn. apply get_modify_other. exact Hn.
  - rewrite get_modify_same, get_set_same, (has_false_get m k Eh).
    rewrite keys_modify, (keys_set_fresh m k _ Eh).
    repeat split.
    + intros n Hn. rewrite get_modify_other, get_set_other by exact Hn.
      reflexivity.
    + intro Hnd. apply NoDup_app; [exact Hnd | repeat constructor; auto|].
      intros x Hx [<- | []]. apply has_In in Hx. congruence.
Qed.

Lemma addFundData_files_under_name_witness :
  NoDup (map fst (MonthData.fundsData MonthData.new))
  /\ NoDup (map fst (MonthData.fundsData
                       (MonthData.addFundData (Fund.mk "X" 4 4 4)
                          MonthData.new))).
Proof.
  assert (H : NoDup (map fst (MonthData.fundsData MonthData.new)))
    by constructor.
  split; [exact H|].
  apply (addFundData_files_under_name (Fund.mk "X" 4 4 4) MonthData.new).
  exact H.
Defined.

(* ------------------------------------------------------------------ *)
(** ** [statistics.median] *)

Lemma ascending_sorted (arr : list Q) :
  StronglySorted Qle (JsArray.sort (fun a b => Some (a - b)%Q) arr).
Proof.
  apply (sort_sorted _ (fun _ => True) Qle).
  - intros x y z _ _ _. apply Qle_trans.
  - intros x y _ _ H. unfold JsArray.before in H. apply Qltb_lt in H. lra.
  - intros x y _ _ H. unfold JsArray.before in H. apply Qltb_ge in H. lra.
  - apply Forall_forall. intros; exact I.
Qed.

Lemma Qle_bool_refl (x : Q) : Qle_bool x x = true.
Proof. apply Qle_bool_iff, Qle_refl. Qed.

Lemma filter_length_le {A : Type} (p : A -> bool) (l : list A) :
  List.length (filter p l) <= List.length l.
Proof.
  induction l as [|x l IH]; simpl; [lia|]. destruct (p x); simpl; lia.
Qed.

Lemma filter_all {A : Type} (p : A -> bool) (l : list A) :
  (forall x, In x l -> p x = true) -> filter p l = l.
Proof.
  induction l as [|x l IH]; simpl; intro H; [reflexivity|].
  rewrite (H x (or_introl eq_refl)), IH; [reflexivity|].
  intros y Hy. apply H. right. exact Hy.
Qed.

Lemma count_le_sorted (l : list Q) (i : nat) (a : Q) :
  StronglySorted Qle l -> nth_error l i = Some a ->
  i + 1 <= List.length (filter (fun x => Qle_bool x a) l).
Proof.
  intro Hs. revert i. induction Hs as [|x l Hs IH Hall]; intros i Hi.
  - destruct i; discriminate.
  - destruct i as [|i]; simpl in Hi.
    + injection Hi as ->. simpl. rewrite Qle_bool_refl. simpl. lia.
    + rewrite Forall_forall in Hall.
      assert (Hxa : Qle_bool x a = true)
        by (apply Qle_bool_iff, Hall; eapply nth_error_In; exact Hi).
      simpl. rewrite Hxa. simpl. specialize (IH i Hi). lia.
Qed.

Lemma count_ge_sorted (l : list Q) (i : nat) (b : Q) :
  StronglySorted Qle l -> nth_error l i = Some b ->
  List.length l - i <= List.length (filter (fun x => Qle_bool b x) l).
Proof.
  intro Hs. revert i. induction Hs as [|x l Hs IH Hall]; intros i Hi.
  - destruct i; discriminate.
  - destruct i as [|i]; simpl in Hi.
    + injection Hi as ->. rewrite filter_all; [simpl; lia|].
      rewrite Forall_forall in Hall.
      intros y [<- | Hy]; [apply Qle_bool_refl | apply Qle_bool_iff; auto].
    + specialize (IH i Hi). simpl.
      destruct (Qle_bool b x); simpl; lia.
Qed.

Lemma Permutation_filter_length {A : Type} (p : A -> bool) (l l' : list A) :
  Permutation l l' -> List.length (filter p l) = List.length (filter p l').
Proof.
  induction 1 as [|x l l' _ IH|x y l|l l' l'' _ IH1 _ IH2]; simpl.
  - reflexivity.
  - destruct (p x); simpl; congruence.
  - destruct (p x), (p y); reflexivity.
  - congruence.
Qed.

Lemma nth_error_nth_Q (l : list Q) (i : nat) :
  i < List.length l -> nth_error l i = Some (nth i l 0%Q).
Proof.
  intro H. apply nth_error_nth'. exact H.
Qed.

(** The median is taken of the middle of the samples in ascending order.
    For a non-empty array there are samples [a <= b], with no sample
    strictly between them, at least half of the samples at most [a] and at
    least half at least [b]; the median is [b] rounded when the number of
    samples is odd (then [a] is [b]) and the mean of [a] and [b] rounded
    when it is even. *)
Theorem median_is_middle_of_samples (arr : list Q) :
  arr <> [] ->
  exists a b : Q,
    In a arr /\ In b arr /\ (a <= b)%Q
    /\ (forall x, In x arr -> (x <= a)%Q \/ (b <= x)%Q)
    /\ List.length arr
       <= 2 * List.length (filter (fun x => Qle_bool x a) arr)
    /\ List.length arr
       <= 2 * List.length (filter (fun x => Qle_bool b x) arr)
    /\ statistics.median arr
       = (if Nat.eqb (Nat.modulo (List.length arr) 2) 0
          then JsNumber.toFixed2 ((a + b) / inject_Z 2)%Q
          else JsNumber.toFixed2 b)
    /\ (Nat.modulo (List.length arr) 2 <> 0 -> a = b).
Proof.
  intro Hne.
  set (sorted := JsArray.sort (fun a b => Some (a - b)%Q) arr).
  assert (Hs : StronglySorted Qle sorted) by apply ascending_sorted.
  assert (Hp : Permutation sorted arr) by apply sort_perm.
  assert (Hlen : List.length sorted = List.length arr)
    by apply sort_length.
  assert (Hpos : 0 < List.length arr)
    by (destruct arr; [congruence | simpl; lia]).
  assert (Hmed : statistics.median arr
                 = if Nat.eqb (Nat.modulo (List.length sorted) 2) 0
                   then JsNumber.toFixed2
                          ((nth (List.length sorted / 2 - 1) sorted 0
                            + nth (List.length sorted / 2) sorted 0)
                           / inject_Z 2)%Q
                   else JsNumber.toFixed2
                          (nth (List.length sorted / 2) sorted 0%Q))
    by (destruct arr; [congruence | reflexivity]).
  rewrite Hmed, Hlen. clear Hmed.
  set (n := List.length arr) in *.
  pose proof (Nat.div_mod_eq n 2) as Hdm.
  pose proof (Nat.mod_upper_bound n 2 ltac:(lia)) as Hmod.
  set (mid := n / 2) in *.
  assert (Hmidlt : mid < List.length sorted) by lia.
  pose proof (nth_error_nth_Q sorted mid Hmidlt) as Hb.
  set (b := nth mid sorted 0%Q) in *.
  assert (Hcount : forall (i : nat) (x : Q),
             nth_error sorted i = Some x ->
             i + 1 <= List.length (filter (fun y => Qle_bool y x) arr)
             /\ n - i <= List.length (filter (fun y => Qle_bool x y) arr)).
  { intros i x Hi.
    rewrite <- (Permutation_filter_length _ _ _ Hp).
    rewrite <- (Permutation_filter_length (fun y => Qle_bool x y) _ _ Hp).
    split; [apply count_le_sorted; assumption|].
    rewrite <- Hlen. apply count_ge_sorted; assumption. }
  assert (Hin : forall (i : nat) (x : Q),
             nth_error sorted i = Some x -> In x arr).
  { intros i x Hi. apply (Permutation_in _ Hp).
    eapply nth_error_In; exact Hi. }
  assert (Hsplit : forall (i : nat) (a' : Q),
             nth_error sorted i = Some a' -> mid <= i + 1 -> i <= mid ->
             forall x, In x arr -> (x <= a')%Q \/ (b <= x)%Q).
  { intros i a' Hi H1 H2 x Hx.
    apply (Permutation_in _ (Permutation_sym Hp)) in Hx.
    destruct (In_nth_error _ _ Hx) as [j Hj].
    destruct (Nat.lt_trichotomy j i) as [Hlt | [-> | Hgt]].
    - left. apply (sorted_first_last Qle sorted Hs j i x a' Hj Hi Hlt).
    - left. rewrite Hi in Hj. injection Hj as ->. apply Qle_refl.
    - right. destruct (Nat.eq_dec j mid) as [-> | Hneq].
      + rewrite Hb in Hj. injection Hj as ->. apply Qle_refl.
      + apply (sorted_first_last Qle sorted Hs mid j b x Hb Hj). lia. }
  destruct (Nat.eqb_spec (n mod 2) 0) as [Heven | Hodd].
  - assert (Hmid1 : mid - 1 < List.length sorted) by lia.
    pose proof (nth_error_nth_Q sorted (mid - 1) Hmid1) as Ha.
    set (a := nth (mid - 1) sorted 0%Q) in *.
    exists a, b.
    destruct (Hcount _ _ Ha) as [Ca _]. destruct (Hcount _ _ Hb) as [_ Cb].
    split; [apply (Hin _ _ Ha)|]. split; [apply (Hin _ _ Hb)|].
    split; [apply (sorted_first_last Qle sorted Hs (mid - 1) mid a b Ha Hb);
            lia|].
    split; [apply (Hsplit (mid - 1) a Ha); lia|].
    split; [lia|]. split; [lia|]. split; [reflexivity|]. lia.
  - exists b, b.
    destruct (Hcount _ _ Hb) as [Ca Cb].
    split; [apply (Hin _ _ Hb)|]. split; [apply (Hin _ _ Hb)|].
    split; [apply Qle_refl|].
    split; [apply (Hsplit mid b Hb); lia|].
    split; [lia|]. split; [lia|]. split; reflexivity.
Qed.

Lemma median_is_middle_of_samples_witness :
  [3; 1; 2]%Q <> []
  /\ exists a b : Q,
       In a [3; 1; 2]%Q /\ In b [3; 1; 2]%Q
       /\ statistics.median [3; 1; 2]%Q = JsNumber.toFixed2 b.
Proof.
  assert (H : [3; 1; 2]%Q <> []) by discriminate.
  split; [exact H|].
  destruct (median_is_middle_of_samples [3; 1; 2]%Q H)
    as [a [b [Ha [Hb [_ [_ [_ [_ [Hm _]]]]]]]]].
  exists a, b. auto.
Defined.

(* ------------------------------------------------------------------ *)
(** ** Dates with fewer than three tokens *)

(** A date without a space has neither month nor year token and is filed
    under [UNDEFINED UNDEFINED], whatever it is (an ISO date, for one); a
    date of two tokens is filed under its second token, uppercased, with the
    year [UNDEFINED]. *)
Theorem dates_with_missing_tokens :
  (forall date : string,
      has_space date = false -> monthYear_of date = "UNDEFINED UNDEFINED")
  /\ (forall a b : string,
        has_space a = false -> has_space b = false ->
        monthYear_of (a ++ " " ++ b)%string
        = (JsString.toUpperCase b ++ " UNDEFINED")%string).
Proof.
  split.
  - intros date H. unfold monthYear_of. rewrite (split_no_space date H).
    reflexivity.
  - intros a b Ha Hb. unfold monthYear_of. rewrite (split_key a b Ha Hb).
    cbn [nth_error JsString.template]. rewrite toUpperCase_app. reflexivity.
Qed.

Lemma dates_with_missing_tokens_witness :
  has_space "2024-01-05" = false
  /\ monthYear_of "2024-01-05" = "UNDEFINED UNDEFINED".
Proof.
  assert (H : has_space "2024-01-05" = false) by reflexivity.
  split; [exact H|].
  apply (proj1 dates_with_missing_tokens _ H).
Defined.

(* ------------------------------------------------------------------ *)
(** ** Months that the comparator leaves tied *)

Lemma wf_key_tie (a b : string) :
  wf_key a -> wf_key b ->
  key_year a = key_year b -> key_index a = key_index b ->
  JsArray.before compareMonthKeys a b = false.
Proof.
  intros [ma [ya [-> [Hma [Hya Hea]]]]] [mb [yb [-> [Hmb [Hyb Heb]]]]].
  rewrite (wf_key_before ma ya mb yb Hma Hmb Hya Hyb Hea Heb).
  rewrite (wf_key_year ma ya Hma Hya), (wf_key_year mb yb Hmb Hyb).
  rewrite (wf_key_index ma ya Hma Hya), (wf_key_index mb yb Hmb Hyb).
  intros Ey Ei. rewrite (canonical_year_inj ya yb Hya Hyb Ey).
  rewrite String.eqb_refl. cbn [negb]. apply Z.ltb_ge. lia.
Qed.

(** The chronological sort is stable: when the dates that can be read have
    three tokens and a numeral year of at most 2^53, so that the
    comparator is a consistent ordering of the month keys, two months of a
    returned result that have the same year and the same calendar index
    (two names outside the table, both with index -1) stand in the order
    in which their keys first appeared in the input. *)
Theorem tied_months_keep_input_order (ds : list DayData.t)
  (r : list MonthSummary.t) (m1 m2 : MonthSummary.t) :
  (forall d date, In d ds -> day_date d = Some date ->
                  orderable_date date = true) ->
  processMonthlyData ds = Normal r ->
  precedes m1 m2 r ->
  key_year (MonthSummary.month m1) = key_year (MonthSummary.month m2) ->
  key_index (MonthSummary.month m1) = key_index (MonthSummary.month m2) ->
  precedes (MonthSummary.month m1) (MonthSummary.month m2)
           (keys_of day_key ds).
Proof.
  intros Hds Hret Hp Ey Ei.
  apply processMonthlyData_returns in Hret. destruct Hret as [_ ->].
  assert (Hwf : forall m, In m (summaries ds) ->
                          wf_key (MonthSummary.month m)).
  { intros m Hm. apply summaries_In in Hm.
    destruct Hm as [k [Hk ->]]. rewrite summarize_month.
    apply keys_of_In in Hk. destruct Hk as [d [Hd Hkey]].
    unfold day_key in Hkey.
    destruct (day_date d) as [date|] eqn:Ed; [|discriminate].
    simpl in Hkey. injection Hkey as <-.
    apply orderable_date_wf_key. apply (Hds d date Hd Ed). }
  assert (Hin : In m1 (summaries ds)
                /\ In m2 (summaries ds)).
  { clear - Hp. induction Hp as [l H | z l Hp [IH1 IH2]]; simpl; auto. }
  destruct Hin as [Hin1 Hin2].
  unfold summaries in Hp. apply sort_stable in Hp.
  - unfold JsMap.entries in Hp. rewrite collected_grouped, map_map in Hp.
    apply (precedes_map MonthSummary.month) in Hp.
    rewrite map_map in Hp. simpl in Hp. rewrite map_id in Hp. exact Hp.
  - change (JsArray.before compareMonthKeys (MonthSummary.month m1)
              (MonthSummary.month m2) = false).
    apply wf_key_tie; auto.
Qed.

Lemma tied_months_keep_input_order_witness :
  (forall d date, In d days_foo_bar -> day_date d = Some date ->
                  orderable_date date = true)
  /\ processMonthlyData days_foo_bar = Normal [month_foo; month_bar]
  /\ precedes month_foo month_bar [month_foo; month_bar]
  /\ key_year (MonthSummary.month month_foo)
     = key_year (MonthSummary.month month_bar)
  /\ key_index (MonthSummary.month month_foo)
     = key_index (MonthSummary.month month_bar)
  /\ precedes (MonthSummary.month month_foo) (MonthSummary.month month_bar)
              (keys_of day_key days_foo_bar).
Proof.
  assert (H : forall d date, In d days_foo_bar -> day_date d = Some date ->
                orderable_date date = true).
  { intros d date [<- | [<- | []]] E; injection E as <-; reflexivity. }
  assert (Hret : processMonthlyData days_foo_bar
                 = Normal [month_foo; month_bar])
    by (vm_compute; reflexivity).
  assert (Hp : precedes month_foo month_bar [month_foo; month_bar]).
  { apply precedes_here. left. reflexivity. }
  assert (Ey : key_year (MonthSummary.month month_foo)
               = key_year (MonthSummary.month month_bar)) by reflexivity.
  assert (Ei : key_index (MonthSummary.month month_foo)
               = key_index (MonthSummary.month month_bar)) by reflexivity.
  split; [exact H|]. split; [exact Hret|]. split; [exact Hp|].
  split; [exact Ey|]. split; [exact Ei|].
  apply (tied_months_keep_input_order days_foo_bar _ month_foo month_bar
           H Hret Hp Ey Ei).
Defined.

(* ================================================================== *)
(** * The earlier conversion script *)

(** ** Plain objects *)

Lemma prototypeNames_no_space :
  Forall (fun k => has_space k = false) JsObject.prototypeNames.
Proof. repeat constructor. Qed.

Lemma has_space_app_space (a b : string) :
  has_space (a ++ String " " b)%string = true.
Proof.
  induction a as [|c a IH]; simpl; [reflexivity|].
  rewrite IH. apply orb_true_r.
Qed.

Lemma monthYear_of_has_space (date : string) :
  has_space (monthYear_of date) = true.
Proof.
  unfold monthYear_of. rewrite toUpperCase_has_space.
  apply has_space_app_space.
Qed.

Lemma monthYear_of_ordinary (date : string) :
  Legacy.ordinary_name (monthYear_of date) = true.
Proof.
  unfold Legacy.ordinary_name. apply negb_true_iff.
  destruct (existsb _ JsObject.prototypeNames) eqn:E; [|reflexivity].
  apply existsb_exists in E. destruct E as [x [Hx E]].
  apply String.eqb_eq in E. subst x.
  pose proof prototypeNames_no_space as H. rewrite Forall_forall in H.
  specialize (H _ Hx). rewrite (monthYear_of_has_space date) in H.
  discriminate.
Qed.

Section ObjectLookup.
Context {V : Type}.

Lemma get_own (o : JsObject.t V) (k : string) (v : V) :
  JsMap.get o k = Some v -> JsObject.get o k = JsObject.Own v.
Proof. unfold JsObject.get. intros ->. reflexivity. Qed.

Lemma truthy_ordinary (o : JsObject.t V) (k : string) :
  Legacy.ordinary_name k = true ->
  JsObject.truthy (JsObject.get o k) = JsMap.has o k.
Proof.
  unfold Legacy.ordinary_name, JsObject.get. intro H.
  apply negb_true_iff in H. rewrite H.
  destruct (JsMap.has o k) eqn:Eh.
  - destruct (has_get o k Eh) as [v ->]. reflexivity.
  - rewrite (has_false_get o k Eh). reflexivity.
Qed.

Lemma get_inherited (o : JsObject.t V) (k : string) :
  Legacy.ordinary_name k = false -> JsMap.get o k = None ->
  JsObject.get o k = JsObject.Inherited.
Proof.
  unfold Legacy.ordinary_name, JsObject.get. intros H ->.
  apply negb_false_iff in H. rewrite H. reflexivity.
Qed.

Lemma on_property_own {A : Type} (o : JsObject.t V) (k : string) (v : V)
  (c : Eff V A) :
  JsMap.get o k = Some v ->
  on_property k c o
  = (JsMap.modify o k (fun _ => fst (c v)), snd (c v)).
Proof.
  intro H. unfold on_property. rewrite (get_own o k v H).
  destruct (c v). reflexivity.
Qed.

Lemma forEach_on_property {A : Type} (c : A -> Eff V unit) (g : A -> V -> V)
  (k : string) (arr : list A) (o : JsObject.t V) (v : V) :
  (forall x w, In x arr -> c x w = (g x w, Normal tt)) ->
  JsMap.get o k = Some v ->
  forEach arr (fun x => on_property k (c x)) o
  = (JsMap.modify o k (fun b => fold_left (fun b x => g x b) arr b),
     Normal tt).
Proof.
  revert o v. induction arr as [|x arr IH]; intros o v Hc H; simpl.
  - unfold ret. rewrite modify_id. reflexivity.
  - unfold bind. rewrite (on_property_own o k v (c x) H).
    rewrite (Hc x v (or_introl eq_refl)). simpl.
    rewrite (modify_const o k v (g x) H).
    erewrite IH;
      [ | intros y w Hy; apply Hc; right; exact Hy
        | rewrite get_modify_same, H; reflexivity ].
    rewrite modify_modify. reflexivity.
Qed.

Lemma forEach_on_property_throw {A : Type} (c : A -> Eff V unit)
  (k : string) (arr : list A) (bad : A) (o : JsObject.t V) (v : V) :
  In bad arr -> (forall w, snd (c bad w) = Throw) ->
  JsMap.get o k = Some v ->
  snd (forEach arr (fun x => on_property k (c x)) o) = Throw.
Proof.
  revert o v. induction arr as [|x arr IH]; intros o v Hin Hbad H;
    [destruct Hin|].
  simpl. unfold bind. rewrite (on_property_own o k v (c x) H).
  destruct (snd (c x v)) as [[]|] eqn:E; simpl; [|reflexivity].
  destruct Hin as [-> | Hin]; [rewrite Hbad in E; discriminate|].
  apply (IH _ (fst (c x v)) Hin Hbad).
  rewrite get_modify_same, H. reflexivity.
Qed.

End ObjectLookup.

Lemma forEach_normal {S A : Type} (f : A -> Eff S unit) (g : S -> A -> S)
  (l : list A) (s : S) :
  (forall x s', In x l -> f x s' = (g s' x, Normal tt)) ->
  forEach l f s = (fold_left g l s, Normal tt).
Proof.
  revert s. induction l as [|x l IH]; intros s H; simpl; [reflexivity|].
  unfold bind. rewrite (H x s (or_introl eq_refl)).
  apply IH. intros y s' Hy. apply H. right. exact Hy.
Qed.

Lemma forEach_throw {S A : Type} (f : A -> Eff S unit) (l : list A) (bad : A)
  (s : S) :
  In bad l -> (forall s', snd (f bad s') = Throw) ->
  snd (forEach l f s) = Throw.
Proof.
  revert s. induction l as [|x l IH]; intros s Hin Hbad; [destruct Hin|].
  simpl. unfold bind. destruct (f x s) as [s' [[]|]] eqn:E; [|reflexivity].
  destruct Hin as [-> | Hin].
  - specialize (Hbad s). rewrite E in Hbad. discriminate.
  - apply IH; assumption.
Qed.

(** ** One day of the earlier script *)

Lemma legacy_collect_fund_ordinary (f : Legacy.Fund.t)
  (b : Legacy.MonthData.t) :
  Legacy.ordinary_name (Legacy.Fund.fundManager f) = true ->
  Legacy.collect_fund f b
  = (Legacy.MonthData.mk
       (upsert Legacy.fund_key Legacy.addSample Legacy.Series.empty
               (Legacy.MonthData.fundsData b) f)
       (Legacy.MonthData.statisticsData_average b),
     Normal tt).
Proof.
  intro H. unfold Legacy.collect_fund, upsert, Legacy.fund_key. cbv zeta.
  rewrite (truthy_ordinary _ _ H).
  destruct (get_ensure (Legacy.MonthData.fundsData b)
              (Legacy.Fund.fundManager f) Legacy.Series.empty) as [s Hs].
  rewrite (on_property_own _ _ s _ Hs). unfold update, Legacy.addSample.
  cbn [fst snd].
  rewrite (modify_const _ _ s
             (Legacy.Series.push (Legacy.Fund.nominalRate f)
                (Legacy.Fund.afterTaxReturn f) (Legacy.Fund.realReturn f)) Hs).
  reflexivity.
Qed.

Lemma legacy_collect_fund_inherited (f : Legacy.Fund.t)
  (b : Legacy.MonthData.t) :
  Legacy.ordinary_name (Legacy.Fund.fundManager f) = false ->
  JsMap.get (Legacy.MonthData.fundsData b) (Legacy.Fund.fundManager f) = None ->
  snd (Legacy.collect_fund f b) = Throw.
Proof.
  intros H Hg. unfold Legacy.collect_fund. cbv zeta.
  rewrite (get_inherited _ _ H Hg). simpl.
  unfold on_property. rewrite (get_inherited _ _ H Hg). reflexivity.
Qed.

Section UpsertKeys.
Context {D V : Type}.
Variable key : D -> option string.
Variable f : D -> V -> V.
Variable new : V.

Lemma upsert_keys (m : JsMap.t V) (d : D) (k : string) :
  key d = Some k ->
  map fst (upsert key f new m d)
  = if JsMap.has m k then map fst m else map fst m ++ [k].
Proof.
  intro Hk. unfold upsert. rewrite Hk, keys_modify.
  destruct (JsMap.has m k) eqn:E; simpl; [reflexivity|].
  apply keys_set_fresh. exact E.
Qed.

Lemma fold_upsert_keys (P : string -> Prop) (ds : list D) (m : JsMap.t V) :
  Forall P (map fst m) ->
  (forall d k, In d ds -> key d = Some k -> P k) ->
  Forall P (map fst (fold_left (upsert key f new) ds m)).
Proof.
  revert m. induction ds as [|d ds IH]; intros m Hm Hd; simpl; [exact Hm|].
  apply IH; [|intros d' k Hin; apply Hd; right; exact Hin].
  destruct (key d) as [k|] eqn:Ek.
  - rewrite (upsert_keys m d k Ek).
    destruct (JsMap.has m k); [exact Hm|].
    apply Forall_app. split; [exact Hm|].
    repeat constructor. apply (Hd d k (or_introl eq_refl) Ek).
  - unfold upsert. rewrite Ek. exact Hm.
Qed.
End UpsertKeys.

Lemma legacy_funds_fold (fs : list Legacy.Fund.t) (b : Legacy.MonthData.t) :
  fold_left
    (fun b f =>
       Legacy.MonthData.mk
         (upsert Legacy.fund_key Legacy.addSample Legacy.Series.empty
                 (Legacy.MonthData.fundsData b) f)
         (Legacy.MonthData.statisticsData_average b))
    fs b
  = Legacy.MonthData.mk
      (fold_left (upsert Legacy.fund_key Legacy.addSample Legacy.Series.empty)
                 fs (Legacy.MonthData.fundsData b))
      (Legacy.MonthData.statisticsData_average b).
Proof.
  revert b. induction fs as [|f fs IH]; intro b; simpl.
  - destruct b; reflexivity.
  - rewrite IH. reflexivity.
Qed.

Lemma forallb_ordinary (fs : list Legacy.Fund.t) :
  forallb (fun f => Legacy.ordinary_name (Legacy.Fund.fundManager f)) fs
  = true ->
  forall f, In f fs -> Legacy.ordinary_name (Legacy.Fund.fundManager f) = true.
Proof. intro H. apply forallb_forall. exact H. Qed.

Lemma apply_day_ordinary (d : Legacy.DayData.t) (b : Legacy.MonthData.t) :
  (forall f, In f (Legacy.day_funds d) ->
             Legacy.ordinary_name (Legacy.Fund.fundManager f) = true) ->
  ordinary_funds b -> ordinary_funds (Legacy.apply_day d b).
Proof.
  intros Hd Hb. unfold ordinary_funds, Legacy.apply_day. simpl.
  apply fold_upsert_keys; [exact Hb|].
  intros f k Hin Hk. injection Hk as <-. apply Hd. exact Hin.
Qed.

Lemma legacy_day_ok (d : Legacy.DayData.t) (m : JsObject.t Legacy.MonthData.t) :
  Legacy.day_ok d = true ->
  Legacy.collect_day d m
  = (upsert Legacy.day_key Legacy.apply_day Legacy.MonthData.new m d,
     Normal tt).
Proof.
  unfold Legacy.day_ok, Legacy.collect_day, upsert, Legacy.day_key,
    Legacy.day_date, Legacy.apply_day, Legacy.triple_list, Legacy.day_triple,
    Legacy.day_funds.
  destruct d as [[[[date|] [[[t|]]|]]|] [fs|]];
    cbn [Legacy.DayData.metadata Legacy.DayData.funds DayMetadata.date
         DayMetadata.statistics DayStatistics.average option_map];
    try discriminate.
  intro Hfs.
  rewrite bind_deref_Some. cbv beta zeta.
  cbn [DayMetadata.date DayMetadata.statistics].
  rewrite bind_deref_Some. cbv beta zeta.
  rewrite bind_update, bind_deref_Some. cbv beta.
  rewrite (truthy_ordinary _ _ (monthYear_of_ordinary date)).
  destruct (get_ensure m (monthYear_of date) Legacy.MonthData.new) as [v Hv].
  rewrite (bind_Normal _ _ _ _ _
             (forEach_on_property Legacy.collect_fund
                (fun f b =>
                   Legacy.MonthData.mk
                     (upsert Legacy.fund_key Legacy.addSample
                        Legacy.Series.empty (Legacy.MonthData.fundsData b) f)
                     (Legacy.MonthData.statisticsData_average b))
                _ fs _ v
                (fun x w Hx =>
                   legacy_collect_fund_ordinary x w
                     (forallb_ordinary fs Hfs x Hx))
                Hv)).
  erewrite on_property_own
    by (rewrite get_modify_same, Hv; reflexivity).
  unfold Legacy.collect_statistics.
  rewrite !bind_deref_Some. unfold update. cbn [fst snd].
  cbn [DayStatistics.average].
  rewrite modify_modify. f_equal.
  etransitivity; [|apply (modify_const _ _ v _ Hv)].
  apply modify_ext. intros _. cbv beta.
  rewrite legacy_funds_fold. reflexivity.
Qed.

Lemma legacy_funds_throw (k : string) (fs : list Legacy.Fund.t)
  (bad : Legacy.Fund.t) (o : JsObject.t Legacy.MonthData.t)
  (v : Legacy.MonthData.t) :
  In bad fs ->
  Legacy.ordinary_name (Legacy.Fund.fundManager bad) = false ->
  JsMap.get o k = Some v -> ordinary_funds v ->
  snd (forEach fs (fun fund => on_property k (Legacy.collect_fund fund)) o)
  = Throw.
Proof.
  intros Hin Hb. revert o v.
  induction fs as [|x fs IH]; intros o v Hv Pv; [destruct Hin|].
  simpl. unfold bind. rewrite (on_property_own o k v _ Hv).
  destruct (Legacy.ordinary_name (Legacy.Fund.fundManager x)) eqn:Ex.
  - rewrite (legacy_collect_fund_ordinary x v Ex). cbn [fst snd].
    destruct Hin as [-> | Hin]; [congruence|].
    eapply (IH Hin).
    + rewrite get_modify_same, Hv. reflexivity.
    + unfold ordinary_funds. cbn [Legacy.MonthData.fundsData].
      apply (fold_upsert_keys Legacy.fund_key Legacy.addSample
               Legacy.Series.empty _ [x]); [exact Pv|].
      intros f' k' [<- | []] Hk. injection Hk as <-. exact Ex.
  - assert (Hnone : JsMap.get (Legacy.MonthData.fundsData v)
                      (Legacy.Fund.fundManager x) = None).
    { destruct (JsMap.get (Legacy.MonthData.fundsData v)
                  (Legacy.Fund.fundManager x)) as [s|] eqn:Eg;
        [|reflexivity].
      exfalso. unfold ordinary_funds in Pv. rewrite Forall_forall in Pv.
      assert (Hk : In (Legacy.Fund.fundManager x)
                      (map fst (Legacy.MonthData.fundsData v))).
      { apply has_In. destruct (JsMap.has _ _) eqn:Eh; [reflexivity|].
        rewrite (has_false_get _ _ Eh) in Eg. discriminate. }
      rewrite (Pv _ Hk) in Ex. discriminate. }
    rewrite (legacy_collect_fund_inherited x v Ex Hnone). reflexivity.
Qed.

Lemma legacy_day_bad (d : Legacy.DayData.t)
  (m : JsObject.t Legacy.MonthData.t) :
  Legacy.day_ok d = false -> ordinary_months m ->
  snd (Legacy.collect_day d m) = Throw.
Proof.
  unfold Legacy.day_ok, Legacy.collect_day, Legacy.day_date,
    Legacy.day_triple.
  destruct d as [[[[date|] stats]|] [fs|]];
    cbn [Legacy.DayData.metadata Legacy.DayData.funds DayMetadata.date
         DayMetadata.statistics];
    intros Hbad Hinv; try reflexivity.
  rewrite bind_deref_Some. cbv beta zeta.
  cbn [DayMetadata.date DayMetadata.statistics].
  rewrite bind_deref_Some. cbv beta zeta.
  rewrite bind_update, bind_deref_Some. cbv beta.
  rewrite (truthy_ordinary _ _ (monthYear_of_ordinary date)).
  set (k := monthYear_of date).
  set (m1 := if negb (JsMap.has m k)
             then JsMap.set m k Legacy.MonthData.new else m).
  assert (Hv : exists v, JsMap.get m1 k = Some v /\ ordinary_funds v).
  { unfold m1. destruct (JsMap.has m k) eqn:Eh; simpl.
    - destruct (has_get m k Eh) as [v Hv]. exists v. split; [exact Hv|].
      apply (Hinv k v Hv).
    - exists Legacy.MonthData.new. split; [apply get_set_same|].
      constructor. }
  destruct Hv as [v [Hv Pv]].
  destruct (forallb (fun f => Legacy.ordinary_name (Legacy.Fund.fundManager f))
              fs) eqn:Efs.
  - rewrite (bind_Normal _ _ _ _ _
               (forEach_on_property Legacy.collect_fund
                  (fun f b =>
                     Legacy.MonthData.mk
                       (upsert Legacy.fund_key Legacy.addSample
                          Legacy.Series.empty (Legacy.MonthData.fundsData b) f)
                       (Legacy.MonthData.statisticsData_average b))
                  _ fs _ v
                  (fun x w Hx =>
                     legacy_collect_fund_ordinary x w
                       (forallb_ordinary fs Efs x Hx))
                  Hv)).
    erewrite on_property_own
      by (rewrite get_modify_same, Hv; reflexivity).
    cbn [snd]. unfold Legacy.collect_statistics.
    destruct stats as [[[t|]]|]; try reflexivity. discriminate.
  - assert (Hex : exists bad, In bad fs
                    /\ Legacy.ordinary_name (Legacy.Fund.fundManager bad)
                       = false).
    { clear - Efs. induction fs as [|f fs IH]; [discriminate|].
      simpl in Efs. apply andb_false_iff in Efs.
      destruct Efs as [E | E]; [exists f; simpl; auto|].
      destruct (IH E) as [bad [Hin Hb]]. exists bad. simpl. auto. }
    destruct Hex as [bad [Hin Hb]].
    apply bind_Throw.
    exact (legacy_funds_throw k fs bad m1 v Hin Hb Hv Pv).
Qed.

(** ** The loop over the days *)

Lemma day_ok_key (d : Legacy.DayData.t) :
  Legacy.day_ok d = true -> exists k, Legacy.day_key d = Some k.
Proof.
  unfold Legacy.day_ok, Legacy.day_key.
  destruct (Legacy.day_date d) as [date|]; [|discriminate].
  intros _. exists (monthYear_of date). reflexivity.
Qed.

Lemma day_ok_funds (d : Legacy.DayData.t) :
  Legacy.day_ok d = true ->
  forall f, In f (Legacy.day_funds d) ->
            Legacy.ordinary_name (Legacy.Fund.fundManager f) = true.
Proof.
  unfold Legacy.day_ok, Legacy.day_funds.
  destruct (Legacy.day_date d); [|discriminate].
  destruct (Legacy.DayData.funds d) as [fs|]; [|discriminate].
  destruct (Legacy.day_triple d); [|discriminate].
  apply forallb_ordinary.
Qed.

Lemma day_ok_triple (d : Legacy.DayData.t) :
  Legacy.day_ok d = true -> Legacy.triple_list d <> [].
Proof.
  unfold Legacy.day_ok, Legacy.triple_list.
  destruct (Legacy.day_date d); [|discriminate].
  destruct (Legacy.DayData.funds d) as [fs|]; [|discriminate].
  destruct (Legacy.day_triple d); discriminate.
Qed.

Lemma ordinary_months_upsert (d : Legacy.DayData.t)
  (m : JsObject.t Legacy.MonthData.t) :
  Legacy.day_ok d = true -> ordinary_months m ->
  ordinary_months
    (upsert Legacy.day_key Legacy.apply_day Legacy.MonthData.new m d).
Proof.
  intros Hok Hm. destruct (day_ok_key d Hok) as [k Hk].
  unfold upsert. rewrite Hk. intros k' b.
  destruct (String.eqb_spec k' k) as [-> | Hne].
  - rewrite get_modify_same.
    destruct (JsMap.has m k) eqn:Eh; cbn [negb].
    + destruct (has_get m k Eh) as [v Hv]. rewrite Hv. simpl.
      intro E. injection E as <-.
      apply apply_day_ordinary; [apply day_ok_funds, Hok|].
      apply (Hm k v Hv).
    + rewrite get_set_same. simpl. intro E. injection E as <-.
      apply apply_day_ordinary; [apply day_ok_funds, Hok|]. constructor.
  - rewrite get_modify_other by exact Hne.
    destruct (JsMap.has m k); cbn [negb].
    + apply Hm.
    + rewrite get_set_other by exact Hne. apply Hm.
Qed.

Lemma legacy_loop_ok (data : list Legacy.DayData.t)
  (m : JsObject.t Legacy.MonthData.t) :
  forallb Legacy.day_ok data = true -> ordinary_months m ->
  forEach data Legacy.collect_day m
  = (fold_left (upsert Legacy.day_key Legacy.apply_day Legacy.MonthData.new)
               data m,
     Normal tt).
Proof.
  revert m. induction data as [|d data IH]; intros m Hok Hm;
    [reflexivity|].
  simpl in Hok. apply andb_true_iff in Hok. destruct Hok as [Hd Hok].
  simpl. unfold bind. rewrite (legacy_day_ok d m Hd).
  apply IH; [exact Hok|]. apply ordinary_months_upsert; assumption.
Qed.

Lemma legacy_loop_bad (data : list Legacy.DayData.t)
  (m : JsObject.t Legacy.MonthData.t) :
  forallb Legacy.day_ok data = false -> ordinary_months m ->
  snd (forEach data Legacy.collect_day m) = Throw.
Proof.
  revert m. induction data as [|d data IH]; intros m Hbad Hm;
    [discriminate|].
  simpl in Hbad. simpl.
  destruct (Legacy.day_ok d) eqn:Hd.
  - unfold bind. rewrite (legacy_day_ok d m Hd).
    apply IH; [exact Hbad|]. apply ordinary_months_upsert; assumption.
  - apply bind_Throw. apply legacy_day_bad; assumption.
Qed.

Lemma ordinary_months_empty : ordinary_months [].
Proof. intros k b H. discriminate H. Qed.

(** ** Enumeration of the own properties *)

Lemma all_digits_no_space (s : string) :
  has_space s = true -> JsString.all_digits s = false.
Proof.
  induction s as [|c s IH]; simpl; [discriminate|].
  intro H. apply orb_true_iff in H. destruct H as [H | H].
  - apply Ascii.eqb_eq in H. subst c. reflexivity.
  - rewrite (IH H). apply andb_false_r.
Qed.

Lemma is_index_no_space (k : string) :
  has_space k = true -> JsObject.is_index k = false.
Proof.
  intro H. unfold JsObject.is_index, canonical_year.
  destruct k as [|c k]; [reflexivity|].
  rewrite (all_digits_no_space _ H). reflexivity.
Qed.

Lemma key_order_no_index (l : list string) :
  (forall k, In k l -> JsObject.is_index k = false) ->
  JsObject.key_order l = l.
Proof.
  intro H. unfold JsObject.key_order.
  assert (E : filter JsObject.is_index l = []
              /\ filter (fun k => negb (JsObject.is_index k)) l = l).
  { induction l as [|k l IH]; [split; reflexivity|].
    simpl. rewrite (H k (or_introl eq_refl)). simpl.
    destruct IH as [E1 E2]; [intros k' Hk'; apply H; right; exact Hk'|].
    rewrite E1, E2. split; reflexivity. }
  destruct E as [-> ->]. reflexivity.
Qed.

Lemma insert_index_In (k x : string) (l : list string) :
  In x (JsObject.insert_index k l) <-> x = k \/ In x l.
Proof.
  induction l as [|k' l IH]; simpl; [intuition congruence|].
  destruct (_ <? _)%Z; simpl; [rewrite IH|]; intuition congruence.
Qed.

Lemma sort_index_In (x : string) (l : list string) :
  In x (JsObject.sort_index l) <-> In x l.
Proof.
  induction l as [|k l IH]; simpl; [tauto|].
  rewrite insert_index_In, IH. intuition congruence.
Qed.

Lemma key_order_In (x : string) (l : list string) :
  In x (JsObject.key_order l) <-> In x l.
Proof.
  unfold JsObject.key_order. rewrite in_app_iff, sort_index_In.
  rewrite !filter_In. destruct (JsObject.is_index x); simpl; intuition.
Qed.

Lemma get_map_In {V : Type} (g : string -> V) (l : list string) (k : string) :
  In k l -> JsMap.get (map (fun k' => (k', g k')) l) k = Some (g k).
Proof.
  induction l as [|k' l IH]; [intros []|].
  intro H. simpl. destruct (String.eqb_spec k' k) as [-> | Hne];
    [reflexivity|].
  destruct H as [H | H]; [congruence|]. apply IH, H.
Qed.

Lemma entries_map {V : Type} (g : string -> V) (l : list string) :
  JsObject.entries (map (fun k => (k, g k)) l)
  = map (fun k => (k, g k)) (JsObject.key_order l).
Proof.
  unfold JsObject.entries, JsObject.keys.
  rewrite map_map. cbn [fst]. rewrite map_id.
  assert (H : forall x, In x (JsObject.key_order l) -> In x l)
    by (intros x; apply key_order_In).
  induction (JsObject.key_order l) as [|k ks IH]; [reflexivity|].
  simpl. rewrite (get_map_In g l k (H k (or_introl eq_refl))).
  simpl. f_equal. apply IH. intros x Hx. apply H. right. exact Hx.
Qed.

(** ** The entry of a month *)

Lemma legacy_bucket (ds : list Legacy.DayData.t) (b : Legacy.MonthData.t) :
  fold_left (fun v d => Legacy.apply_day d v) ds b
  = Legacy.MonthData.mk
      (fold_left
         (upsert Legacy.fund_key Legacy.addSample Legacy.Series.empty)
         (flat_map Legacy.day_funds ds) (Legacy.MonthData.fundsData b))
      (fold_left (fun s t => Legacy.addTriple t s)
         (flat_map Legacy.triple_list ds)
         (Legacy.MonthData.statisticsData_average b)).
Proof.
  revert b. induction ds as [|d ds IH]; intro b; simpl.
  - destruct b; reflexivity.
  - rewrite IH, !fold_left_app. reflexivity.
Qed.

Lemma series_of_samples (l : list Legacy.Fund.t) (s : Legacy.Series.t) :
  fold_left (fun v f => Legacy.addSample f v) l s
  = Legacy.Series.mk
      (Legacy.Series.nominalRates s ++ map Legacy.Fund.nominalRate l)
      (Legacy.Series.afterTaxReturns s ++ map Legacy.Fund.afterTaxReturn l)
      (Legacy.Series.realReturns s ++ map Legacy.Fund.realReturn l).
Proof.
  revert s. induction l as [|f l IH]; intro s; simpl.
  - rewrite !app_nil_r. destruct s; reflexivity.
  - rewrite IH. unfold Legacy.addSample, Legacy.Series.push. simpl.
    rewrite <- !app_assoc. reflexivity.
Qed.

Lemma series_of_triples (l : list StatsAverage.t) (s : Legacy.Series.t) :
  fold_left (fun v t => Legacy.addTriple t v) l s
  = Legacy.Series.mk
      (Legacy.Series.nominalRates s ++ map StatsAverage.nominalRate l)
      (Legacy.Series.afterTaxReturns s ++ map StatsAverage.afterTaxReturn l)
      (Legacy.Series.realReturns s ++ map StatsAverage.realReturn l).
Proof.
  revert s. induction l as [|f l IH]; intro s; simpl.
  - rewrite !app_nil_r. destruct s; reflexivity.
  - rewrite IH. unfold Legacy.addTriple, Legacy.Series.push. simpl.
    rewrite <- !app_assoc. reflexivity.
Qed.

Lemma legacy_average_mean {A : Type} (h : A -> Q) (l : list A) :
  l <> [] -> Legacy.average (map h l) = Some (Legacy.mean (map h l)).
Proof. destruct l; [congruence|reflexivity]. Qed.

Lemma legacy_samples_named_nonempty (n : string) (l : list Legacy.Fund.t) :
  In n (map Legacy.Fund.fundManager l) -> Legacy.samples_named n l <> [].
Proof.
  intros H E. apply in_map_iff in H. destruct H as [f [Hn Hf]].
  assert (Hin : In f (Legacy.samples_named n l)).
  { unfold Legacy.samples_named. apply filter_In. split; [exact Hf|].
    rewrite Hn. apply String.eqb_refl. }
  rewrite E in Hin. destruct Hin.
Qed.

Lemma legacy_month_triples_nonempty (data : list Legacy.DayData.t)
  (k : string) :
  forallb Legacy.day_ok data = true ->
  In k (keys_of Legacy.day_key data) ->
  Legacy.month_triples data k <> [].
Proof.
  intros Hok Hk. apply (proj1 (keys_of_select _ _ _)) in Hk.
  unfold Legacy.month_triples.
  destruct (select Legacy.day_key k data) as [|d ds] eqn:E; [congruence|].
  assert (Hd : In d data).
  { assert (H : In d (select Legacy.day_key k data))
      by (rewrite E; left; reflexivity).
    unfold select in H. apply filter_In in H. apply H. }
  rewrite forallb_forall in Hok.
  pose proof (day_ok_triple d (Hok d Hd)) as Ht.
  simpl. destruct (Legacy.triple_list d); [congruence|discriminate].
Qed.

Lemma legacy_month_record (data : list Legacy.DayData.t) (k : string) :
  forallb Legacy.day_ok data = true ->
  In k (keys_of Legacy.day_key data) ->
  Legacy.monthRecord
    (k, fold_left (fun v d => Legacy.apply_day d v)
          (select Legacy.day_key k data) Legacy.MonthData.new)
  = Legacy.month_of data k.
Proof.
  intros Hok Hk. unfold Legacy.monthRecord, Legacy.month_of.
  rewrite legacy_bucket.
  cbn [Legacy.MonthData.fundsData Legacy.MonthData.statisticsData_average
       Legacy.MonthData.new].
  fold (Legacy.month_samples data k). fold (Legacy.month_triples data k).
  f_equal.
  - rewrite series_of_triples. unfold Legacy.averages, Legacy.triple_means.
    cbn [Legacy.Series.nominalRates Legacy.Series.afterTaxReturns
         Legacy.Series.realReturns Legacy.Series.empty app].
    pose proof (legacy_month_triples_nonempty data k Hok Hk) as Hne.
    rewrite !legacy_average_mean by exact Hne. reflexivity.
  - change (@nil (string * Legacy.Series.t))
      with (@JsMap.empty Legacy.Series.t).
    rewrite group_fold. unfold grouped. rewrite entries_map, map_map.
    unfold keys_of, Legacy.fund_key, Legacy.fund_names.
    assert (Hnames :
      flat_map (fun d => key_list (Some (Legacy.Fund.fundManager d)))
               (Legacy.month_samples data k)
      = map Legacy.Fund.fundManager (Legacy.month_samples data k)).
    { induction (Legacy.month_samples data k) as [|f l IH];
        [reflexivity|]. simpl. now f_equal. }
    rewrite Hnames. apply map_ext_in. intros n Hn.
    f_equal. rewrite series_of_samples.
    unfold Legacy.averages, Legacy.fund_means.
    cbn [Legacy.Series.nominalRates Legacy.Series.afterTaxReturns
         Legacy.Series.realReturns Legacy.Series.empty app].
    change (select (fun f => Some (Legacy.Fund.fundManager f)) n
              (Legacy.month_samples data k))
      with (Legacy.samples_named n (Legacy.month_samples data k)).
    assert (Hne : Legacy.samples_named n (Legacy.month_samples data k) <> []).
    { apply legacy_samples_named_nonempty.
      apply (proj1 (key_order_In _ _)) in Hn.
      apply (proj1 (first_occ_In _ _)) in Hn. exact Hn. }
    rewrite !legacy_average_mean by exact Hne. reflexivity.
Qed.

(** The earlier script on an input of complete records: one record for each
    month, in the order in which the months first appear. *)
Lemma legacy_convert_ok (data : list Legacy.DayData.t) :
  forallb Legacy.day_ok data = true ->
  Legacy.convertToMonthlyFormat data
  = Normal (map (Legacy.month_of data) (keys_of Legacy.day_key data)).
Proof.
  intro Hok. unfold Legacy.convertToMonthlyFormat.
  rewrite (legacy_loop_ok data [] Hok ordinary_months_empty).
  change (@nil (string * Legacy.MonthData.t))
    with (@JsMap.empty Legacy.MonthData.t).
  rewrite group_fold. unfold grouped. rewrite entries_map, map_map.
  rewrite key_order_no_index.
  - f_equal. apply map_ext_in. intros k Hk.
    apply legacy_month_record; assumption.
  - intros k Hk. apply is_index_no_space.
    apply keys_of_In in Hk. destruct Hk as [d [_ Hd]].
    unfold Legacy.day_key in Hd.
    destruct (Legacy.day_date d) as [date|]; [|discriminate].
    injection Hd as <-. apply monthYear_of_has_space.
Qed.

Lemma legacy_convert_bad (data : list Legacy.DayData.t) :
  forallb Legacy.day_ok data = false ->
  Legacy.convertToMonthlyFormat data = Throw.
Proof.
  intro Hbad. unfold Legacy.convertToMonthlyFormat.
  pose proof (legacy_loop_bad data [] Hbad ordinary_months_empty) as H.
  revert H. destruct (forEach data Legacy.collect_day []) as [s [a|]];
    cbn [snd]; [discriminate | reflexivity].
Qed.

Lemma legacy_convert_In (data : list Legacy.DayData.t)
  (r : list Legacy.Month.t) (mo : Legacy.Month.t) :
  Legacy.convertToMonthlyFormat data = Normal r -> In mo r ->
  forallb Legacy.day_ok data = true
  /\ In (Legacy.Month.month mo) (keys_of Legacy.day_key data)
  /\ mo = Legacy.month_of data (Legacy.Month.month mo).
Proof.
  intros Hr Hmo. destruct (forallb Legacy.day_ok data) eqn:Hok.
  - rewrite (legacy_convert_ok data Hok) in Hr. injection Hr as <-.
    apply in_map_iff in Hmo. destruct Hmo as [k [<- Hk]].
    repeat split. exact Hk.
  - rewrite (legacy_convert_bad data Hok) in Hr. discriminate.
Qed.

(** ** What the earlier script does *)

(** The earlier script has no [try]: it ends in an exception exactly when
    some record of the input is incomplete, that is, has no readable
    date, no fund list or no portfolio averages, or names a fund like a
    property of [Object.prototype]; one such record anywhere in the input
    is enough, and then no result is returned at all. *)
Theorem earlier_script_throws_iff_incomplete (data : list Legacy.DayData.t) :
  Legacy.convertToMonthlyFormat data = Throw
  <-> exists d, In d data /\ Legacy.day_ok d = false.
Proof.
  destruct (forallb Legacy.day_ok data) eqn:Hok.
  - rewrite (legacy_convert_ok data Hok). split; [discriminate|].
    intros [d [Hd Hbad]]. rewrite forallb_forall in Hok.
    rewrite (Hok d Hd) in Hbad. discriminate.
  - split; [|intros _; apply legacy_convert_bad, Hok].
    intros _. clear - Hok.
    induction data as [|d data IH]; [discriminate|].
    simpl in Hok. apply andb_false_iff in Hok.
    destruct Hok as [Hd | Hrest].
    + exists d. split; [left; reflexivity | exact Hd].
    + destruct (IH Hrest) as [d' [Hin Hd']]. exists d'.
      split; [right; exact Hin | exact Hd'].
Qed.

(** When the earlier script returns, its result has one record for each
    month of the input, in the order in which the months first appear in
    the input: [Object.keys] lists them in the order of their creation,
    a month key being no array index, and nothing sorts them. *)
Theorem earlier_months_in_first_appearance_order
  (data : list Legacy.DayData.t) (r : list Legacy.Month.t) :
  Legacy.convertToMonthlyFormat data = Normal r ->
  map Legacy.Month.month r = keys_of Legacy.day_key data.
Proof.
  intro Hr. destruct (forallb Legacy.day_ok data) eqn:Hok.
  - rewrite (legacy_convert_ok data Hok) in Hr. injection Hr as <-.
    rewrite map_map. cbn [Legacy.month_of Legacy.Month.month].
    apply map_id.
  - rewrite (legacy_convert_bad data Hok) in Hr. discriminate.
Qed.

Lemma earlier_months_in_first_appearance_order_witness :
  map Legacy.Month.month legacy_result_sample
  = keys_of Legacy.day_key legacy_days_sample.
Proof.
  apply (earlier_months_in_first_appearance_order legacy_days_sample
           legacy_result_sample).
  vm_compute. reflexivity.
Defined.

(** The funds of a month come out in the order of [Object.keys] on the
    fund object of that month: the names that are array indices first, in
    ascending numeric order, then the other names in the order of their
    first appearance among the samples of the month; each name once. *)
Theorem earlier_funds_in_key_order (data : list Legacy.DayData.t)
  (r : list Legacy.Month.t) (mo : Legacy.Month.t) :
  Legacy.convertToMonthlyFormat data = Normal r -> In mo r ->
  map Legacy.FundAverage.fundManager (Legacy.Month.funds mo)
  = JsObject.key_order
      (Legacy.fund_names
         (Legacy.month_samples data (Legacy.Month.month mo))).
Proof.
  intros Hr Hmo.
  destruct (legacy_convert_In data r mo Hr Hmo) as [_ [_ E]].
  rewrite E at 1. cbn [Legacy.month_of Legacy.Month.funds].
  rewrite map_map. cbn [Legacy.FundAverage.fundManager]. apply map_id.
Qed.

Lemma earlier_funds_in_key_order_witness :
  In legacy_january_sample legacy_result_sample
  /\ map Legacy.FundAverage.fundManager
         (Legacy.Month.funds legacy_january_sample)
     = JsObject.key_order
         (Legacy.fund_names
            (Legacy.month_samples legacy_days_sample
               (Legacy.Month.month legacy_january_sample))).
Proof.
  assert (Hr : Legacy.convertToMonthlyFormat legacy_days_sample
               = Normal legacy_result_sample)
    by (vm_compute; reflexivity).
  assert (Hmo : In legacy_january_sample legacy_result_sample)
    by (left; reflexivity).
  split; [exact Hmo|].
  apply (earlier_funds_in_key_order legacy_days_sample legacy_result_sample
           legacy_january_sample Hr Hmo).
Defined.

(** Every fund record of a month carries the exact means of the samples
    that bear its name in the records of that month, taken without any
    rounding; there is at least one such sample, so none of the three
    figures is [NaN]. *)
Theorem earlier_fund_figures_are_means (data : list Legacy.DayData.t)
  (r : list Legacy.Month.t) (mo : Legacy.Month.t)
  (fa : Legacy.FundAverage.t) :
  Legacy.convertToMonthlyFormat data = Normal r -> In mo r ->
  In fa (Legacy.Month.funds mo) ->
  let samples :=
    Legacy.samples_named (Legacy.FundAverage.fundManager fa)
      (Legacy.month_samples data (Legacy.Month.month mo)) in
  samples <> []
  /\ Legacy.FundAverage.averages fa = Legacy.fund_means samples.
Proof.
  intros Hr Hmo Hfa.
  destruct (legacy_convert_In data r mo Hr Hmo) as [_ [_ E]].
  rewrite E in Hfa. cbn [Legacy.month_of Legacy.Month.funds] in Hfa.
  apply in_map_iff in Hfa. destruct Hfa as [n [<- Hn]].
  cbn [Legacy.FundAverage.fundManager Legacy.FundAverage.averages].
  split; [|reflexivity].
  apply legacy_samples_named_nonempty.
  apply (proj1 (key_order_In _ _)) in Hn.
  apply (proj1 (first_occ_In _ _)) in Hn. exact Hn.
Qed.

Lemma earlier_fund_figures_are_means_witness :
  In legacy_january_sample legacy_result_sample
  /\ (forall fa, In fa (Legacy.Month.funds legacy_january_sample) ->
        Legacy.FundAverage.averages fa
        = Legacy.fund_means
            (Legacy.samples_named (Legacy.FundAverage.fundManager fa)
               (Legacy.month_samples legacy_days_sample
                  (Legacy.Month.month legacy_january_sample)))).
Proof.
  assert (Hr : Legacy.convertToMonthlyFormat legacy_days_sample
               = Normal legacy_result_sample)
    by (vm_compute; reflexivity).
  assert (Hmo : In legacy_january_sample legacy_result_sample)
    by (left; reflexivity).
  split; [exact Hmo|]. intros fa Hfa.
  apply (earlier_fund_figures_are_means legacy_days_sample
           legacy_result_sample legacy_january_sample fa Hr Hmo Hfa).
Defined.

(** The portfolio figures of a month are the exact means of the portfolio
    averages of the records of that month, of which there is at least
    one; the source line is the fixed text. *)
Theorem earlier_portfolio_figures_are_means (data : list Legacy.DayData.t)
  (r : list Legacy.Month.t) (mo : Legacy.Month.t) :
  Legacy.convertToMonthlyFormat data = Normal r -> In mo r ->
  let triples := Legacy.month_triples data (Legacy.Month.month mo) in
  triples <> []
  /\ Legacy.Month.statistics_average mo = Legacy.triple_means triples
  /\ Legacy.Month.source mo = "Daily Nation and M-PESA APP".
Proof.
  intros Hr Hmo.
  destruct (legacy_convert_In data r mo Hr Hmo) as [Hok [Hk E]].
  cbv zeta. split; [apply legacy_month_triples_nonempty; assumption|].
  rewrite E at 1 3. split; reflexivity.
Qed.

Lemma earlier_portfolio_figures_are_means_witness :
  In legacy_january_sample legacy_result_sample
  /\ Legacy.Month.statistics_average legacy_january_sample
     = Legacy.triple_means
         (Legacy.month_triples legacy_days_sample
            (Legacy.Month.month legacy_january_sample)).
Proof.
  assert (Hr : Legacy.convertToMonthlyFormat legacy_days_sample
               = Normal legacy_result_sample)
    by (vm_compute; reflexivity).
  assert (Hmo : In legacy_january_sample legacy_result_sample)
    by (left; reflexivity).
  split; [exact Hmo|].
  apply (earlier_portfolio_figures_are_means legacy_days_sample
           legacy_result_sample legacy_january_sample Hr Hmo).
Defined.
